(** * Excel-Automation: the table pipeline (cleaning, calculations, pivot)

    A shallow embedding of
      - backend/app/services/data_cleaning_service.py  (DataCleaner)
      - backend/app/services/calculations_service.py   (DataFrameCalculator)
      - backend/app/services/pivot_service.py          (PivotService)
    over a model of the pandas / NumPy operations these services call.

    DataFrames are mutable Python objects: they live in a store addressed by
    references, [df.copy()] allocates, [df[name] = values] updates in place.
    Python exceptions are values of an error monad; [try ... except Exception]
    is a handler on it. *)

From Stdlib Require Import ZArith String Ascii List Bool Lia.
From Stdlib Require Import Sorting.Sorted.
From Stdlib Require OrderedTypeEx.
From stdpp Require Import gmap strings list pretty sorting.

Local Open Scope string_scope.
Local Open Scope list_scope.
Local Open Scope Z_scope.

(** ** Python values and exceptions *)

Module Py.

(** A cell of a table, and a scalar of a rule or of an option. In a table
    [Null] is the missing value (NaN, or NaT in a column of dates; a [None]
    held in a column of objects is not represented); in a rule or an option
    it is [None]. [Num] is a number taken by its value, whatever its storage
    (int64 or float64; only integral values are represented); [Str] is
    text. *)
Inductive cell : Type :=
  | Null
  | Num (z : Z)
  | Str (s : string).

#[global] Instance cell_eq_dec : EqDecision cell.
Proof. solve_decision. Defined.

(** A JSON-like value of a rule or of a configuration: a scalar or a list. *)
Inductive value : Type :=
  | Scalar (c : cell)
  | ListOf (l : list cell).

#[global] Instance value_eq_dec : EqDecision value.
Proof. solve_decision. Defined.

Definition is_null (c : cell) : bool :=
  match c with Null => true | _ => false end.

Definition is_str (c : cell) : bool :=
  match c with Str _ => true | _ => false end.

(** Exceptions, all of them subclasses of [Exception]. [str(e)] is the
    message. *)
Inductive exn_class : Type :=
  | ValueError | TypeError | KeyError | IndexError | AxisError | OtherError.

Record exn : Type := Exception { exn_cls : exn_class; exn_msg : string }.

Definition str_exn (e : exn) : string := exn_msg e.

Inductive exc (A : Type) : Type :=
  | Ok (a : A)
  | Raise (e : exn).
Arguments Ok {A} a.
Arguments Raise {A} e.

Definition bind {A B} (m : exc A) (k : A -> exc B) : exc B :=
  match m with
  | Ok a => k a
  | Raise e => Raise e
  end.

(** [try: body  except Exception as e: handler e] *)
Definition try_except {A} (body : exc A) (handler : exn -> exc A) : exc A :=
  match body with
  | Ok a => Ok a
  | Raise e => handler e
  end.

(** [[f(x) for x in l]] where [f] may raise: the first exception wins. *)
Fixpoint map_exc {A B} (f : A -> exc B) (l : list A) : exc (list B) :=
  match l with
  | [] => Ok []
  | x :: l' =>
      bind (f x) (fun y => bind (map_exc f l') (fun ys => Ok (y :: ys)))
  end.

(** [sep.join(l)] *)
Fixpoint join (sep : string) (l : list string) : string :=
  match l with
  | [] => ""
  | [x] => x
  | x :: l' => x +:+ sep +:+ join sep l'
  end.

(** [p in s] on text: [p] occurs in [s] as a contiguous run. *)
Fixpoint occurs_in (p s : string) : bool :=
  if String.prefix p s then true
  else match s with
       | EmptyString => false
       | String _ s' => occurs_in p s'
       end.

(** Truthiness of an optional text ([None] and [""] are falsy). *)
Definition truthy (o : option string) : bool :=
  match o with
  | None => false
  | Some s => negb (String.eqb s "")
  end.

End Py.

Export Py.

Declare Scope exc_scope.
Delimit Scope exc_scope with exc.
Notation "x <- m ;; k" := (Py.bind m (fun x => k))
  (at level 100, m at next level, right associativity) : exc_scope.
Notation "m ;;; k" := (Py.bind m (fun _ => k))
  (at level 100, right associativity) : exc_scope.
Open Scope exc_scope.

(** ** The pandas / NumPy operations the services call *)

Module Pandas.

(** A DataFrame: the ordered column names and the rows, each row holding one
    cell per column. Column names are unique, so [df[name]] is one-dimensional.
    The row index plays no part in the services and is left out. The dtype of
    a column is not stored: a column that holds text is a column of objects,
    and whether one that holds none is stored as objects all the same is the
    library's to say. *)
Record DataFrame : Type := {
  df_columns : list string;
  df_rows : list (list cell)
}.

#[global] Instance DataFrame_eq_dec : EqDecision DataFrame.
Proof. solve_decision. Defined.

#[global] Instance DataFrame_inhabited : Inhabited DataFrame :=
  populate {| df_columns := []; df_rows := [] |}.

(** What the model takes from Python and its libraries without looking
    inside: number formatting, regular expressions, Unicode text functions,
    date parsing, evaluation of a caller's expression, NumPy's promotion of
    mixed scalars, and reductions over text. *)
Record Library : Type := {
  (** [str(x)] of a number held in a column (depends on its storage) *)
  cell_num_text : Z -> string;
  (** [str(x)] of a number held in a rule *)
  value_num_text : Z -> string;
  (** [str(l)] of a list held in a rule *)
  list_text : list cell -> string;
  (** [series.str.contains(pat)] for a pattern with special characters of
      regular expressions *)
  regex_contains : string -> list string -> exc (list bool);
  py_strip : string -> string;
  py_upper : string -> string;
  py_lower : string -> string;
  py_title : string -> string;
  (** [pd.to_datetime(column, format=..., errors='coerce')]: the column
      parsed cell by cell, a cell that does not parse becoming missing *)
  to_datetime : option string -> list cell -> exc (list cell);
  (** [exec("result = " + expr)] with [df] bound to the calculator's own
      frame, which the expression can change in place: the frame as the
      expression leaves it, and the value left in [result] or the exception
      raised. The expression reaches no other frame. *)
  eval_custom : string -> DataFrame -> DataFrame * exc value;
  (** [np.where(cond, x, y)] for a number against a text (NumPy promotes) *)
  where_promoted : list bool -> cell -> cell -> exc (list cell);
  (** [np.where(cond, x, y)] where [x] or [y] is a list *)
  where_listlike : list bool -> value -> value -> exc (list cell);
  (** Whether a column that holds no text is stored as objects all the same
      (a column of texts that has lost them, or all its rows) *)
  object_dtype : DataFrame -> string -> bool;
  (** The [TypeError] of an order comparison between a column and a value of
      another kind; its text names the storage of the column and the type
      of the value, or the types of the two objects compared. *)
  comparison_error : list cell -> cell -> exn;
  (** [frame.sum(axis=1)] over rows that hold text *)
  sum_axis1_object : list (list cell) -> exc (list cell);
  (** [frame.sum(axis=1)] at a row of the frame whose numbers are too large
      for their sum to be exact in every storage: what the arithmetic of the
      columns gives (int64 wraps around, float64 rounds) *)
  sum_inexact : list (list cell) -> list cell -> cell
}.

Definition nrows (t : DataFrame) : nat := length (df_rows t).

Fixpoint index_of (name : string) (l : list string) : option nat :=
  match l with
  | [] => None
  | x :: l' => if String.eqb x name then Some O
               else option_map S (index_of name l')
  end.

(** [name in df.columns] *)
Definition has_column (t : DataFrame) (name : string) : bool :=
  match index_of name (df_columns t) with Some _ => true | None => false end.

Definition column_at (i : nat) (t : DataFrame) : list cell :=
  map (fun r => nth i r Null) (df_rows t).

(** The position of a column; a name the frame does not have is a
    [KeyError]. *)
Definition column_index (t : DataFrame) (name : string) : exc nat :=
  match index_of name (df_columns t) with
  | Some i => Ok i
  | None => Raise (Exception KeyError name)
  end.

(** [df[name]] *)
Definition getitem (t : DataFrame) (name : string) : exc (list cell) :=
  i <- column_index t name ;; Ok (column_at i t).

(** [df[names]]: the rows cut down to the listed columns, in the listed
    order. *)
Definition getitems (t : DataFrame) (names : list string)
  : exc (list (list cell)) :=
  idxs <- map_exc (column_index t) names ;;
  Ok (map (fun r => map (fun i => nth i r Null) idxs) (df_rows t)).

(** The cell of a row under a column name *)
Definition row_cell (t : DataFrame) (r : list cell) (name : string) : cell :=
  match index_of name (df_columns t) with
  | Some i => nth i r Null
  | None => Null
  end.

(** A table as the services receive it: unique column names, one cell per
    column in every row. *)
Definition well_formed (t : DataFrame) : Prop :=
  NoDup (df_columns t)
  /\ Forall (fun r => length r = length (df_columns t)) (df_rows t).

(** [df[name] = values], for [values] of the frame's length: an existing
    column is overwritten in place, a new one is appended on the right. *)
Definition setitem (t : DataFrame) (name : string) (values : list cell)
  : DataFrame :=
  match index_of name (df_columns t) with
  | Some i =>
      {| df_columns := df_columns t;
         df_rows := zip_with (fun r v => <[i := v]> r) (df_rows t) values |}
  | None =>
      {| df_columns := df_columns t ++ [name];
         df_rows := zip_with (fun r v => r ++ [v]) (df_rows t) values |}
  end.

(** A column that holds text *)
Definition is_object_column (cells : list cell) : bool := existsb is_str cells.

(** [df.select_dtypes(include=['object']).columns] *)
Definition object_columns (L : Library) (t : DataFrame) : list string :=
  omap (fun '(i, name) =>
          if is_object_column (column_at i t) || object_dtype L t name
          then Some name else None)
       (imap (fun i name => (i, name)) (df_columns t)).

(** [series.apply(f)] *)
Definition apply (f : cell -> cell) (cells : list cell) : list cell :=
  map f cells.

(** [df.drop_duplicates()]: of equal rows the first is kept. *)
Fixpoint drop_duplicates_rows (rs : list (list cell)) : list (list cell) :=
  match rs with
  | [] => []
  | r :: rs' =>
      r :: filter (fun r' => r' <> r) (drop_duplicates_rows rs')
  end.

Definition drop_duplicates (t : DataFrame) : DataFrame :=
  {| df_columns := df_columns t;
     df_rows := drop_duplicates_rows (df_rows t) |}.

Definition row_has_null (r : list cell) : bool := existsb is_null r.

(** [df.dropna()]: axis 0, how='any'. *)
Definition dropna (t : DataFrame) : DataFrame :=
  {| df_columns := df_columns t;
     df_rows := filter (fun r => row_has_null r = false) (df_rows t) |}.

(** [df.isna().sum().sum()] *)
Definition isna_count (t : DataFrame) : nat :=
  list_sum (map (fun r => length (filter (fun c => is_null c = true) r))
                (df_rows t)).

(** [df.fillna(v)] for a scalar [v] *)
Definition fillna (v : cell) (t : DataFrame) : DataFrame :=
  {| df_columns := df_columns t;
     df_rows := map (map (fun c => if is_null c then v else c)) (df_rows t) |}.

(** The store of DataFrame objects. *)
Abbreviation heap := (gmap nat DataFrame).

Definition deref (h : heap) (l : nat) : DataFrame := h !!! l.

(** A new object gets a reference no live object has. *)
Definition alloc (h : heap) (t : DataFrame) : nat * heap :=
  let l := fresh (dom h) in (l, <[l := t]> h).

(** [df[name]] for a name taken from the frame's own columns. *)
Definition series (t : DataFrame) (name : string) : list cell :=
  match index_of name (df_columns t) with
  | Some i => column_at i t
  | None => []
  end.

(** [obj[name] = values] on the object behind a reference: the object is
    changed where it is, every holder of the reference sees it. *)
Definition setitem_at (h : heap) (l : nat) (name : string)
    (values : list cell) : heap :=
  <[l := setitem (deref h l) name values]> h.

(** Two cells that are equal, or both text (a text function was applied). *)
Definition same_but_text (c c' : cell) : Prop :=
  c = c' \/ (is_str c = true /\ is_str c' = true).

(** The rows of one table are those of another, in order, up to text. *)
Definition same_rows_but_text (rs rs' : list (list cell)) : Prop :=
  Forall2 (Forall2 same_but_text) rs rs'.

(** [h'] holds every object of [h] as it was, and [l] is an object made
    since. *)
Definition made_since (h h' : heap) (l : nat) : Prop :=
  h ⊆ h' /\ h !! l = None /\ is_Some (h' !! l).

(** *** Reductions along a row *)

Definition num_or_zero (c : cell) : Z :=
  match c with Num z => z | _ => 0 end.

(** The sum of the numbers of a row, as a number *)
Definition row_total (r : list cell) : Z :=
  foldr (fun c acc => num_or_zero c + acc) 0 r.

(** The absolute values of the numbers of a row, added up *)
Definition magnitude (r : list cell) : Z :=
  foldr (fun c acc => Z.abs (num_or_zero c) + acc) 0 r.

(** NumPy adds in the storage of the columns: int64, which wraps around
    from 2^63, or float64, which holds the integers up to 2^53 and rounds
    beyond. While the absolute values of the numbers add up to at most 2^53,
    the numbers and every partial sum, in whatever order, are integers that
    both hold, and the sum is exact. *)
Definition exact_sum (r : list cell) : bool := magnitude r <=? 2 ^ 53.

(** An integer as int64 holds it *)
Definition wrap64 (z : Z) : Z := (z + 2 ^ 63) mod 2 ^ 64 - 2 ^ 63.

(** [frame.sum(axis=1)]: missing cells are skipped, an empty sum is 0. *)
Definition sum_axis1 (L : Library) (sel : list (list cell))
  : exc (list cell) :=
  if existsb (existsb is_str) sel then sum_axis1_object L sel
  else Ok (map (fun r => if exact_sum r then Num (row_total r)
                         else sum_inexact L sel r) sel).

(** [frame.count(axis=1)]: the cells of the row that are not missing. *)
Definition count_axis1 (sel : list (list cell)) : list cell :=
  map (fun r => Num (Z.of_nat
                       (length (filter (fun c => is_null c = false) r)))) sel.

(** *** Comparisons of a column with a value *)

Inductive cmp_op : Type := OpEq | OpNe | OpGt | OpGe | OpLt | OpLe.

Definition is_order (op : cmp_op) : bool :=
  match op with OpEq | OpNe => false | _ => true end.

Definition cmp_Z (op : cmp_op) (a b : Z) : bool :=
  match op with
  | OpEq => a =? b | OpNe => negb (a =? b)
  | OpGt => b <? a | OpGe => b <=? a
  | OpLt => a <? b | OpLe => a <=? b
  end.

Definition cmp_text (op : cmp_op) (a b : string) : bool :=
  match op with
  | OpEq => String.eqb a b | OpNe => negb (String.eqb a b)
  | OpGt => String.ltb b a | OpGe => String.leb b a
  | OpLt => String.ltb a b | OpLe => String.leb a b
  end.

(** What a comparison gives when a side is missing or, for [==] and [!=],
    when the kinds differ. *)
Definition unequal (op : cmp_op) : bool :=
  match op with OpNe => true | _ => false end.

(** One cell against one value; [bad] is what an order comparison of two
    kinds raises. *)
Definition compare_cells (bad : exn) (op : cmp_op) (c v : cell) : exc bool :=
  match c, v with
  | Null, _ | _, Null => Ok (unequal op)
  | Num a, Num b => Ok (cmp_Z op a b)
  | Str a, Str b => Ok (cmp_text op a b)
  | _, _ => if is_order op then Raise bad
            else Ok (unequal op)
  end.

Fixpoint compare_elementwise (L : Library) (op : cmp_op)
    (cells vs : list cell) : exc (list bool) :=
  match cells, vs with
  | c :: cells', v :: vs' =>
      b <- compare_cells (comparison_error L [c] v) op c v ;;
      bs <- compare_elementwise L op cells' vs' ;;
      Ok (b :: bs)
  | _, _ => Ok []
  end.

(** [series <op> value] *)
Definition series_compare (L : Library) (op : cmp_op) (cells : list cell)
    (v : value) : exc (list bool) :=
  match v with
  | Scalar Null => Ok (map (fun _ => unequal op) cells)
  | Scalar x =>
      if negb (is_object_column cells) && is_str x && is_order op
      then Raise (comparison_error L cells x)
      else map_exc (fun c => compare_cells (comparison_error L cells x)
                                           op c x) cells
  | ListOf vs =>
      if (length vs =? length cells)%nat
      then compare_elementwise L op cells vs
      else Raise (Exception ValueError "Lengths must match to compare")
  end.

(** [series.isin(value)]: a missing cell of the column is in no list. *)
Definition isin (cells : list cell) (v : value) : exc (list bool) :=
  match v with
  | ListOf vs =>
      Ok (map (fun c => negb (is_null c) && bool_decide (c ∈ vs)) cells)
  | Scalar _ =>
      Raise (Exception TypeError
               "only list-like objects are allowed to be passed to isin()")
  end.

(** *** Text *)

(** [series.astype(str)]: every cell becomes its text; a missing cell, NaN,
    becomes the text ["nan"]. *)
Definition astype_str (L : Library) (c : cell) : string :=
  match c with
  | Null => "nan"
  | Num z => cell_num_text L z
  | Str s => s
  end.

(** [str(value)] *)
Definition py_str (L : Library) (v : value) : string :=
  match v with
  | Scalar Null => "None"
  | Scalar (Num z) => value_num_text L z
  | Scalar (Str s) => s
  | ListOf l => list_text L l
  end.

Definition regex_special (a : ascii) : bool :=
  bool_decide (a ∈ list_ascii_of_string ".^$*+?{}[]\|()").

Definition is_literal (pat : string) : bool :=
  forallb (fun a => negb (regex_special a)) (list_ascii_of_string pat).

(** [series.str.contains(pat, na=False)] on a column of texts: [pat] is a
    regular expression; one without special characters matches where it
    occurs. No cell of the column is missing, so [na] has nothing to act on. *)
Definition str_contains (L : Library) (pat : string) (texts : list string)
  : exc (list bool) :=
  if is_literal pat then Ok (map (occurs_in pat) texts)
  else regex_contains L pat texts.

(** *** NumPy *)

Inductive ndarray : Type :=
  | Array1 (a : list cell)
  | Array2 (a : list (list cell)).

Definition ndim (a : ndarray) : nat :=
  match a with Array1 _ => 1%nat | Array2 _ => 2%nat end.

(** [np.where(cond, x, y)] for a one-dimensional [cond] and scalars *)
Definition where_scalars (cond : list bool) (x y : cell) : ndarray :=
  Array1 (map (fun b : bool => if b then x else y) cond).

(** [np.where(cond, series, y)] *)
Definition where_series (cond : list bool) (xs : list cell) (y : cell)
  : list cell :=
  zip_with (fun (b : bool) x => if b then x else y) cond xs.

(** [a.sum(axis=1)] *)
Definition array_sum_axis1 (a : ndarray) : exc (list cell) :=
  match a with
  | Array1 _ =>
      Raise (Exception AxisError
               "axis 1 is out of bounds for array of dimension 1")
  | Array2 rs => Ok (map (fun r => Num (row_total r)) rs)
  end.

Definition promotes (x y : cell) : bool :=
  match x, y with
  | Num _, Str _ | Str _, Num _ => true
  | _, _ => false
  end.

(** [np.where(cond, x, y)] for the two values of a rule *)
Definition where_values (L : Library) (cond : list bool) (x y : value)
  : exc (list cell) :=
  match x, y with
  | Scalar a, Scalar b =>
      if promotes a b then where_promoted L cond a b
      else Ok (map (fun c : bool => if c then a else b) cond)
  | _, _ => where_listlike L cond x y
  end.

End Pandas.

Export Pandas.

(** ** data_cleaning_service.py *)

Module DataCleaningService.

Record CleaningOptions : Type := {
  remove_duplicates : bool;
  handle_missing : string;
  fill_value : cell;              (* [None] is [Null] *)
  trim_whitespace : bool;
  text_case : option string;
  date_columns : list string;
  date_format : option string
}.

(** The same options with [handle_missing = "keep"] *)
Definition keep_missing (options : CleaningOptions) : CleaningOptions :=
  {| remove_duplicates := remove_duplicates options;
     handle_missing := "keep";
     fill_value := fill_value options;
     trim_whitespace := trim_whitespace options;
     text_case := text_case options;
     date_columns := date_columns options;
     date_format := date_format options |}.

(** The same options with [text_case = None] *)
Definition keep_case (options : CleaningOptions) : CleaningOptions :=
  {| remove_duplicates := remove_duplicates options;
     handle_missing := handle_missing options;
     fill_value := fill_value options;
     trim_whitespace := trim_whitespace options;
     text_case := None;
     date_columns := date_columns options;
     date_format := date_format options |}.

(** An entry of [applied_operations]: [{"operation": ..., "details": {...}}] *)
Record log_entry : Type := {
  operation : string;
  details : list (string * value)
}.

Record DataCleaner : Type := {
  original_df : nat;
  cleaned_df : nat;
  applied_operations : list log_entry
}.

Definition set_cleaned_df (l : nat) (self : DataCleaner) : DataCleaner :=
  {| original_df := original_df self;
     cleaned_df := l;
     applied_operations := applied_operations self |}.

(** The frame [get_cleaned_data()] refers to *)
Definition cleaned (st : heap * DataCleaner) : DataFrame :=
  deref st.1 (cleaned_df st.2).

(** Against the store [h] of before the call, the cleaner works on a frame of
    its own and has left the objects of [h] as they were. *)
Definition cleaner_owns (h : heap) (st : heap * DataCleaner) : Prop :=
  made_since h st.1 (cleaned_df st.2).

(** From one state of the cleaner to a later one: the caller's reference is
    the same and the log has only grown at its end. *)
Definition log_grows (st st' : heap * DataCleaner) : Prop :=
  original_df st'.2 = original_df st.2
  /\ applied_operations st.2 `prefix_of` applied_operations st'.2.

(** The cleaned frame has the given columns and, up to text, the given
    rows. *)
Definition cleaned_like (cols : list string) (rows : list (list cell))
    (st : heap * DataCleaner) : Prop :=
  df_columns (cleaned st) = cols
  /\ same_rows_but_text rows (df_rows (cleaned st)).

Section Methods.
Context (L : Library).

(** [DataCleaner(df)]: keeps the caller's reference and works on a copy. *)
Definition __init__ (h : heap) (df : nat) : heap * DataCleaner :=
  let '(l, h') := alloc h (deref h df) in
  (h', {| original_df := df; cleaned_df := l; applied_operations := [] |}).

Definition get_cleaned_data (self : DataCleaner) : nat := cleaned_df self.

Definition get_applied_operations (self : DataCleaner) : list log_entry :=
  applied_operations self.

Definition _log_operation (op : string) (dt : list (string * value))
    (self : DataCleaner) : DataCleaner :=
  {| original_df := original_df self;
     cleaned_df := cleaned_df self;
     applied_operations :=
       applied_operations self ++ [{| operation := op; details := dt |}] |}.

Definition count_value (n : nat) : value := Scalar (Num (Z.of_nat n)).

Definition _remove_duplicates (st : heap * DataCleaner) : heap * DataCleaner :=
  let '(h, self) := st in
  let initial_count := nrows (deref h (cleaned_df self)) in
  let '(l, h') := alloc h (drop_duplicates (deref h (cleaned_df self))) in
  let self' := set_cleaned_df l self in
  let removed_count := (initial_count - nrows (deref h' l))%nat in
  if (0 <? removed_count)%nat
  then (h', _log_operation "remove_duplicates"
                           [("rows_removed", count_value removed_count)] self')
  else (h', self').

Definition _handle_missing_values (method : string) (fill : cell)
    (st : heap * DataCleaner) : heap * DataCleaner :=
  let '(h, self) := st in
  if String.eqb method "drop" then
    let initial_count := nrows (deref h (cleaned_df self)) in
    let '(l, h') := alloc h (dropna (deref h (cleaned_df self))) in
    let self' := set_cleaned_df l self in
    let removed_count := (initial_count - nrows (deref h' l))%nat in
    if (0 <? removed_count)%nat
    then (h', _log_operation "drop_missing_values"
                             [("rows_removed", count_value removed_count)] self')
    else (h', self')
  else if String.eqb method "fill" && negb (is_null fill) then
    let fill_count := isna_count (deref h (cleaned_df self)) in
    let '(l, h') := alloc h (fillna fill (deref h (cleaned_df self))) in
    let self' := set_cleaned_df l self in
    if (0 <? fill_count)%nat
    then (h', _log_operation "fill_missing_values"
                             [("values_filled", count_value fill_count);
                              ("fill_value", Scalar fill)] self')
    else (h', self')
  else (h, self).

(** [lambda x: f(x) if isinstance(x, str) else x] *)
Definition on_text (f : string -> string) (c : cell) : cell :=
  match c with
  | Str s => Str (f s)
  | _ => c
  end.

(** [for col in cols: self.cleaned_df[col] = self.cleaned_df[col].apply(f)] *)
Definition apply_to_columns (f : cell -> cell) (cols : list string)
    (l : nat) (h : heap) : heap :=
  foldl (fun h col => setitem_at h l col (apply f (series (deref h l) col)))
        h cols.

Definition _trim_whitespace (st : heap * DataCleaner) : heap * DataCleaner :=
  let '(h, self) := st in
  let str_cols := object_columns L (deref h (cleaned_df self)) in
  let h' := apply_to_columns (on_text (py_strip L)) str_cols
                             (cleaned_df self) h in
  if (0 <? length str_cols)%nat
  then (h', _log_operation "trim_whitespace" [] self)
  else (h', self).

Definition _standardize_text_case (case : string)
    (st : heap * DataCleaner) : heap * DataCleaner :=
  let '(h, self) := st in
  let str_cols := object_columns L (deref h (cleaned_df self)) in
  let h' :=
    if String.eqb case "upper" then
      apply_to_columns (on_text (py_upper L)) str_cols (cleaned_df self) h
    else if String.eqb case "lower" then
      apply_to_columns (on_text (py_lower L)) str_cols (cleaned_df self) h
    else if String.eqb case "title" then
      apply_to_columns (on_text (py_title L)) str_cols (cleaned_df self) h
    else h in
  if (0 <? length str_cols)%nat
  then (h', _log_operation "standardize_text_case"
                           [("case", Scalar (Str case))] self)
  else (h', self).

(** One turn of the loop of [_parse_dates]: the column is replaced by its
    parsed form; an exception of the parser is logged and the column left. *)
Definition parse_one (fmt : option string) (st : heap * DataCleaner)
    (col : string) : heap * DataCleaner :=
  let '(h, self) := st in
  match to_datetime L (if truthy fmt then fmt else None)
                    (series (deref h (cleaned_df self)) col) with
  | Ok parsed => (setitem_at h (cleaned_df self) col parsed, self)
  | Raise e =>
      (h, _log_operation "parse_dates_error"
                         [("column", Scalar (Str col));
                          ("error", Scalar (Str (str_exn e)))] self)
  end.

Definition _parse_dates (cols : list string) (fmt : option string)
    (st : heap * DataCleaner) : heap * DataCleaner :=
  match cols with
  | [] => st
  | _ =>
      let present :=
        filter (fun col => has_column (deref st.1 (cleaned_df st.2)) col = true)
               cols in
      let '(h, self) := foldl (parse_one fmt) st present in
      match present with
      | [] => (h, self)
      | _ => (h, _log_operation "parse_dates"
                                [("columns", ListOf (map Str present))] self)
      end
  end.

Definition clean (options : CleaningOptions) (st : heap * DataCleaner)
  : heap * DataCleaner :=
  let st := if remove_duplicates options then _remove_duplicates st else st in
  let st := if negb (String.eqb (handle_missing options) "keep")
            then _handle_missing_values (handle_missing options)
                                        (fill_value options) st
            else st in
  let st := if trim_whitespace options then _trim_whitespace st else st in
  let st := match text_case options with
            | Some case => if truthy (Some case)
                           then _standardize_text_case case st else st
            | None => st
            end in
  let st := match date_columns options with
            | [] => st
            | _ => _parse_dates (date_columns options) (date_format options) st
            end in
  st.

(** [DataCleaner(df).clean(options)] as the callers run it. *)
Definition run_clean (h : heap) (df : nat) (options : CleaningOptions)
  : heap * DataCleaner :=
  clean options (__init__ h df).

End Methods.

End DataCleaningService.

(** ** calculations_service.py *)

Module CalculationsService.

Inductive CalculationType : Type :=
  | SUM | COUNT | COUNTIF | SUMIF | IF | CUSTOM.

Record CalculationRule : Type := {
  name : string;
  operation : CalculationType;
  columns : list string;
  (** a dictionary with text keys, or [None] *)
  condition : option (list (string * value));
  true_value : value;
  false_value : value;
  custom_function : option string
}.

Record CalculationResult : Type := {
  success : bool;
  message : string;
  columns_added : list string;
  error : option string;
  result_df : option nat
}.

(** An entry of [applied_calculations] *)
Record calc_log : Type := {
  log_name : string;
  log_operation : CalculationType;
  log_details : string;
  log_columns : list string
}.

Record DataFrameCalculator : Type := {
  df : nat;
  original_columns : gset string;
  applied_calculations : list calc_log
}.

(** Against the store [h] of before the call, the calculator works on a
    frame of its own and has left the objects of [h] as they were. *)
Definition calculator_owns (h : heap) (st : heap * DataFrameCalculator)
  : Prop :=
  made_since h st.1 (df st.2).

(** [d[k]] and [d.get(k)] on a dictionary kept as a list of items *)
Fixpoint dict_get (k : string) (d : list (string * value)) : option value :=
  match d with
  | [] => None
  | (k', v) :: d' => if String.eqb k' k then Some v else dict_get k d'
  end.

(** [not rule.condition]: [None] and the empty dictionary are falsy. *)
Definition no_condition (c : option (list (string * value))) : bool :=
  match c with
  | None | Some [] => true
  | Some _ => false
  end.

Section Methods.
Context (L : Library).

(** [DataFrameCalculator(df)]: works on a copy of the caller's frame. *)
Definition __init__ (h : heap) (table : nat) : heap * DataFrameCalculator :=
  let '(l, h') := alloc h (deref h table) in
  (h', {| df := l;
          original_columns := list_to_set (df_columns (deref h table));
          applied_calculations := [] |}).

Definition _log_operation (rule : CalculationRule) (dt : string)
    (self : DataFrameCalculator) : DataFrameCalculator :=
  {| df := df self;
     original_columns := original_columns self;
     applied_calculations :=
       applied_calculations self ++
       [{| log_name := name rule; log_operation := operation rule;
           log_details := dt; log_columns := columns rule |}] |}.

Definition _validate_columns_exist (t : DataFrame) (cols : list string)
  : exc unit :=
  let missing := filter (fun col => has_column t col = false) cols in
  match missing with
  | [] => Ok tt
  | _ => Raise (Exception ValueError
                  ("Columns not found: " +:+ join ", " missing))
  end.

Definition _format_condition (c : option (list (string * value))) : string :=
  match c with
  | None | Some [] => ""
  | Some d =>
      default "?" (py_str L <$> dict_get "operator" d) +:+ " " +:+
      default "?" (py_str L <$> dict_get "value" d)
  end.

Definition is_op (op : value) (sym : string) : bool :=
  bool_decide (op = Scalar (Str sym)).

Definition _parse_condition (t : DataFrame) (column : string)
    (cond : list (string * value)) : exc (list bool) :=
  match dict_get "operator" cond, dict_get "value" cond with
  | Some op, Some v =>
      if is_op op "==" then
        cells <- getitem t column ;; series_compare L OpEq cells v
      else if is_op op "!=" then
        cells <- getitem t column ;; series_compare L OpNe cells v
      else if is_op op ">" then
        cells <- getitem t column ;; series_compare L OpGt cells v
      else if is_op op ">=" then
        cells <- getitem t column ;; series_compare L OpGe cells v
      else if is_op op "<" then
        cells <- getitem t column ;; series_compare L OpLt cells v
      else if is_op op "<=" then
        cells <- getitem t column ;; series_compare L OpLe cells v
      else if is_op op "in" then
        cells <- getitem t column ;; isin cells v
      else if is_op op "contains" then
        cells <- getitem t column ;;
        str_contains L (py_str L v) (map (astype_str L) cells)
      else Raise (Exception ValueError
                    ("Unsupported operator: " +:+ py_str L op))
  | _, _ =>
      Raise (Exception ValueError
               "Condition must include 'operator' and 'value'")
  end.

(** [rule.columns[0]] *)
Definition first_column (rule : CalculationRule) : exc string :=
  match columns rule with
  | col :: _ => Ok col
  | [] => Raise (Exception IndexError "list index out of range")
  end.

(** A method that reaches its assignment changes the calculator's frame in
    place and logs. *)
Definition assign (rule : CalculationRule) (values : list cell) (dt : string)
    (st : heap * DataFrameCalculator) : heap * DataFrameCalculator :=
  (setitem_at st.1 (df st.2) (name rule) values,
   _log_operation rule dt st.2).

Definition _apply_sum (rule : CalculationRule)
    (st : heap * DataFrameCalculator) : exc (heap * DataFrameCalculator) :=
  let t := deref st.1 (df st.2) in
  _validate_columns_exist t (columns rule) ;;;
  sel <- getitems t (columns rule) ;;
  total <- sum_axis1 L sel ;;
  Ok (assign rule total
        ("Sum of columns: " +:+ join ", " (columns rule)) st).

Definition _apply_count (rule : CalculationRule)
    (st : heap * DataFrameCalculator) : exc (heap * DataFrameCalculator) :=
  let t := deref st.1 (df st.2) in
  _validate_columns_exist t (columns rule) ;;;
  sel <- getitems t (columns rule) ;;
  Ok (assign rule (count_axis1 sel)
        ("Count of non-null values in columns: " +:+
         join ", " (columns rule)) st).

Definition _apply_countif (rule : CalculationRule)
    (st : heap * DataFrameCalculator) : exc (heap * DataFrameCalculator) :=
  let t := deref st.1 (df st.2) in
  if no_condition (condition rule) then
    Raise (Exception ValueError "Condition is required for COUNTIF operation")
  else
    column <- first_column rule ;;
    _validate_columns_exist t [column] ;;;
    cond <- _parse_condition t column (default [] (condition rule)) ;;
    counted <- array_sum_axis1 (where_scalars cond (Num 1) (Num 0)) ;;
    Ok (assign rule counted
          ("Count of values in '" +:+ column +:+ "' where " +:+
           _format_condition (condition rule)) st).

Definition _apply_sumif (rule : CalculationRule)
    (st : heap * DataFrameCalculator) : exc (heap * DataFrameCalculator) :=
  let t := deref st.1 (df st.2) in
  match columns rule with
  | [cond_col; sum_col] =>
      if no_condition (condition rule) then
        Raise (Exception ValueError
                 "Condition is required for SUMIF operation")
      else
        _validate_columns_exist t [cond_col; sum_col] ;;;
        cond <- _parse_condition t cond_col (default [] (condition rule)) ;;
        summed <- getitem t sum_col ;;
        Ok (assign rule (where_series cond summed (Num 0))
              ("Sum of '" +:+ sum_col +:+ "' where '" +:+ cond_col +:+ "' " +:+
               _format_condition (condition rule)) st)
  | _ =>
      Raise (Exception ValueError
        "SUMIF requires exactly two columns: [condition_column, sum_column]")
  end.

Definition _apply_if (rule : CalculationRule)
    (st : heap * DataFrameCalculator) : exc (heap * DataFrameCalculator) :=
  let t := deref st.1 (df st.2) in
  if no_condition (condition rule) then
    Raise (Exception ValueError "Condition is required for IF operation")
  else
    column <- first_column rule ;;
    _validate_columns_exist t [column] ;;;
    cond <- _parse_condition t column (default [] (condition rule)) ;;
    chosen <- where_values L cond (true_value rule) (false_value rule) ;;
    Ok (assign rule chosen
          ("IF '" +:+ column +:+ "' " +:+
           _format_condition (condition rule) +:+
           " THEN " +:+ py_str L (true_value rule) +:+
           " ELSE " +:+ py_str L (false_value rule)) st).

(** [self.df[name] = result] for what a caller's expression left: a scalar
    fills the column, a list must have the frame's length. *)
Definition broadcast (t : DataFrame) (v : value) : exc (list cell) :=
  match v with
  | Scalar c => Ok (replicate (nrows t) c)
  | ListOf l =>
      if (length l =? nrows t)%nat then Ok l
      else Raise (Exception ValueError
             ("Length of values (" +:+ pretty (length l) +:+
              ") does not match length of index (" +:+
              pretty (nrows t) +:+ ")"))
  end.

(** The calculator once the expression of a CUSTOM rule has run: the
    expression is handed [self.df] itself and has changed it where it is. *)
Definition custom_ran (rule : CalculationRule)
    (st : heap * DataFrameCalculator) : heap * DataFrameCalculator :=
  let expr := default "" (custom_function rule) in
  (<[df st.2 := (eval_custom L expr (deref st.1 (df st.2))).1]> st.1, st.2).

Definition _apply_custom (rule : CalculationRule)
    (st : heap * DataFrameCalculator) : exc (heap * DataFrameCalculator) :=
  if negb (truthy (custom_function rule)) then
    Raise (Exception ValueError
             "Custom function is required for CUSTOM operation")
  else
    let expr := default "" (custom_function rule) in
    let st' := custom_ran rule st in
    try_except
      (result <- (eval_custom L expr (deref st.1 (df st.2))).2 ;;
       values <- broadcast (deref st'.1 (df st'.2)) result ;;
       Ok (assign rule values ("Applied custom function: " +:+ expr) st'))
      (fun e => Raise (Exception ValueError
                         ("Error in custom function: " +:+ str_exn e))).

Definition _apply_rule (rule : CalculationRule)
    (st : heap * DataFrameCalculator) : exc (heap * DataFrameCalculator) :=
  match operation rule with
  | SUM => _apply_sum rule st
  | COUNT => _apply_count rule st
  | COUNTIF => _apply_countif rule st
  | SUMIF => _apply_sumif rule st
  | IF => _apply_if rule st
  | CUSTOM => _apply_custom rule st
  end.

(** What a rule that raised has left of the calculator. The methods of the
    built-in operations raise before their assignment, the one place where
    they change the frame; a CUSTOM rule that has an expression has run
    it. *)
Definition after_failure (rule : CalculationRule)
    (st : heap * DataFrameCalculator) : heap * DataFrameCalculator :=
  match operation rule with
  | CUSTOM => if truthy (custom_function rule) then custom_ran rule st else st
  | _ => st
  end.

(** The loop [for rule in rules: self._apply_rule(rule)]: it stops at the
    first exception, and the calculator keeps what the earlier rules did. *)
Fixpoint apply_rules (rules : list CalculationRule)
    (st : heap * DataFrameCalculator)
  : (heap * DataFrameCalculator) * exc unit :=
  match rules with
  | [] => (st, Ok tt)
  | rule :: rules' =>
      match _apply_rule rule st with
      | Ok st' => apply_rules rules' st'
      | Raise e => (after_failure rule st, Raise e)
      end
  end.

(** [list(set(self.df.columns) - self.original_columns)] *)
Definition new_columns (st : heap * DataFrameCalculator) : list string :=
  elements (list_to_set (df_columns (deref st.1 (df st.2)))
              ∖ original_columns st.2 : gset string).

Definition apply_calculations (rules : list CalculationRule)
    (st : heap * DataFrameCalculator)
  : (heap * DataFrameCalculator) * CalculationResult :=
  match apply_rules rules st with
  | (st', Ok _) =>
      (st', {| success := true;
               message := "Successfully applied " +:+ pretty (length rules)
                          +:+ " calculation(s)";
               columns_added := new_columns st';
               error := None;
               result_df := Some (df st'.2) |})
  | (st', Raise e) =>
      (st', {| success := false;
               message := "Error applying calculations: " +:+ str_exn e;
               columns_added := [];
               error := Some (str_exn e);
               result_df := None |})
  end.

(** [DataFrameCalculator(df).apply_calculations(rules)] as the callers run
    it. *)
Definition run_calculations (h : heap) (table : nat)
    (rules : list CalculationRule)
  : (heap * DataFrameCalculator) * CalculationResult :=
  apply_calculations rules (__init__ h table).

End Methods.

End CalculationsService.

(** *** Conditions on numbers, for stating what the conditional rules do *)

Module Conditions.
Import CalculationsService.

(** The operator of a comparison as a condition writes it *)
Definition symbol (op : cmp_op) : string :=
  match op with
  | OpEq => "==" | OpNe => "!=" | OpGt => ">"
  | OpGe => ">=" | OpLt => "<" | OpLe => "<="
  end.

(** The condition [{"operator": op, "value": b}] for a number [b] *)
Definition compares (op : cmp_op) (b : Z) : list (string * value) :=
  [("operator", Scalar (Str (symbol op))); ("value", Scalar (Num b))].

(** Whether a cell of a numeric column meets [cell op b]: a number is
    compared, a missing cell meets only [!=]. *)
Definition meets (op : cmp_op) (b : Z) (c : cell) : bool :=
  match c with
  | Num a => cmp_Z op a b
  | _ => unequal op
  end.

(** The rule with other source columns *)
Definition with_columns (cols : list string) (rule : CalculationRule)
  : CalculationRule :=
  {| name := name rule; operation := operation rule; columns := cols;
     condition := condition rule; true_value := true_value rule;
     false_value := false_value rule;
     custom_function := custom_function rule |}.

End Conditions.

(** ** pivot_service.py *)

Module PivotService.

Inductive AggregationType : Type :=
  | agg_sum | agg_count | agg_mean | agg_min | agg_max
  | agg_first | agg_last | agg_std | agg_var.

#[global] Instance AggregationType_eq_dec : EqDecision AggregationType.
Proof. solve_decision. Defined.

(** [aggfunc]: one function for all value columns, or a dictionary from a
    column to one function or to a list of functions. *)
Inductive aggfunc_spec : Type :=
  | AggAll (f : AggregationType)
  | AggPerColumn (d : list (string * (AggregationType + list AggregationType))).

Record PivotConfig : Type := {
  index : list string;
  columns : option (list string);
  values : option (list string);
  aggfunc : aggfunc_spec;
  fill_value : cell;              (* [None] is [Null] *)
  margins : bool;
  margins_name : string
}.

(** The column axis of a frame: a plain index of names, or a MultiIndex with
    its level names and one tuple per column. *)
Inductive column_axis : Type :=
  | Index (labels : list string)
  | MultiIndex (level_names : list (option string))
               (labels : list (list cell)).

(** The frame [pd.pivot_table] returns: row keys (one tuple per row) under
    the names of the index levels, and the cells under the column axis. *)
Record PivotFrame : Type := {
  pf_index_names : list (option string);
  pf_index : list (list cell);
  pf_columns : column_axis;
  pf_values : list (list cell)
}.

(** The dictionary [_pivot_to_dict] returns *)
Record PivotData : Type := {
  out_columns : list string;
  out_data : list (list (string * cell));
  index_columns : list (option string);
  column_levels : list (option string)
}.

(** [PivotResult]; [data = None] is the empty dictionary, [error = None] an
    absent key. *)
Record PivotResult : Type := {
  success : bool;
  data : option PivotData;
  config : PivotConfig;
  error : option string;
  message : option string
}.

(** What the model takes from pandas without looking inside. *)
Record PivotLibrary : Type := {
  (** mean, std and var of the numbers of a group, and their sum where the
      numbers are too large for it to be exact in every storage *)
  agg_float : AggregationType -> list cell -> cell;
  (** an aggregation of a column that holds text, one result per group *)
  agg_object : AggregationType -> list (list cell) -> exc (list cell);
  (** [pd.pivot_table] for a configuration without index columns *)
  pivot_table_other : DataFrame -> PivotConfig -> exc PivotFrame;
  (** For the other configurations the model does not compute itself, what
      [pd.pivot_table] gives beside the order of the rows. The column
      labels of a pivot whose columns have one level, or the exception
      raised: *)
  pivot_labels : DataFrame -> PivotConfig -> exc (list string);
  (** for a cross-tab, the names of the column levels after the first, one
      at least, and the label tuples, or the exception raised; *)
  pivot_levels : DataFrame -> PivotConfig
                 -> exc (option string * list (option string)
                         * list (list cell));
  (** whether the row of a key tuple stays (a row whose aggregates are all
      missing is dropped); *)
  pivot_keeps : DataFrame -> PivotConfig -> list cell -> bool;
  (** the cell of a row, given by its key tuple, under the column at a
      position; *)
  pivot_cell : DataFrame -> PivotConfig -> list cell -> nat -> cell;
  (** and whether a cross-tab gets the row of its margins (pandas leaves
      the margins out of a cross-tab without rows). *)
  pivot_margins_row : DataFrame -> PivotConfig -> bool;
  (** [str(x)] of a level value of a MultiIndex that is no text *)
  level_text : cell -> string;
  (** [row[tuple(col.split('.'))]], with [row[col]] behind it, under a
      MultiIndex, for a name with a dot *)
  multi_row_lookup : list (list cell) -> list cell -> string -> exc cell;
  (** the exception of a lookup under a MultiIndex that selects no single
      cell *)
  multi_row_error : list (list cell) -> string -> exn
}.

(** *** Order of group keys

    Grouping sorts the keys of every level: numbers by value before texts by
    code point; tuples compare level by level. *)

Definition cell_compare (a b : cell) : comparison :=
  match a, b with
  | Num x, Num y => Z.compare x y
  | Num _, _ => Lt
  | Str _, Num _ => Gt
  | Str x, Str y => String.compare x y
  | Str _, Null => Lt
  | Null, Null => Eq
  | Null, _ => Gt
  end.

Fixpoint key_compare (k1 k2 : list cell) : comparison :=
  match k1, k2 with
  | [], [] => Eq
  | [], _ :: _ => Lt
  | _ :: _, [] => Gt
  | a :: k1', b :: k2' =>
      match cell_compare a b with
      | Eq => key_compare k1' k2'
      | c => c
      end
  end.

Definition key_lt (k1 k2 : list cell) : Prop := key_compare k1 k2 = Lt.

Fixpoint insert_key (k : list cell) (l : list (list cell))
  : list (list cell) :=
  match l with
  | [] => [k]
  | x :: l' =>
      match key_compare k x with
      | Lt => k :: x :: l'
      | Eq => x :: l'
      | Gt => x :: insert_key k l'
      end
  end.

(** The distinct keys in ascending order *)
Definition sorted_keys (ks : list (list cell)) : list (list cell) :=
  foldr insert_key [] ks.

Fixpoint insert_name (n : string) (l : list string) : list string :=
  match l with
  | [] => [n]
  | x :: l' => if String.leb n x then n :: x :: l' else x :: insert_name n l'
  end.

(** [table.sort_index(axis=1)] on a plain index of names *)
Definition sorted_names (l : list string) : list string :=
  foldr insert_name [] l.

(** *** Aggregation of the cells of one group *)

Definition present (cells : list cell) : list cell :=
  filter (fun c => is_null c = false) cells.

Definition least (a b : cell) : cell :=
  match cell_compare a b with Gt => b | _ => a end.

Definition greatest (a b : cell) : cell :=
  match cell_compare a b with Lt => b | _ => a end.

Definition agg_numeric (P : PivotLibrary) (f : AggregationType)
    (cells : list cell) : cell :=
  match f with
  | agg_sum => if exact_sum cells then Num (row_total cells)
               else agg_float P agg_sum cells
  | agg_count => Num (Z.of_nat (length (present cells)))
  | agg_min => match present cells with
               | [] => Null
               | c :: cs => foldl least c cs
               end
  | agg_max => match present cells with
               | [] => Null
               | c :: cs => foldl greatest c cs
               end
  | agg_first => hd Null (present cells)
  | agg_last => List.last (present cells) Null
  | agg_mean | agg_std | agg_var => agg_float P f cells
  end.

(** One value column: [column] is the whole column, [groups] its cells group
    by group. *)
Definition agg_column (P : PivotLibrary) (f : AggregationType)
    (column : list cell) (groups : list (list cell)) : exc (list cell) :=
  if is_object_column column then agg_object P f groups
  else Ok (map (agg_numeric P f) groups).

(** *** pd.pivot_table *)

Definition position (n : string) (l : list string) : nat :=
  default O (index_of n l).

(** The configurations whose pivot the model computes itself: grouping by
    the index columns alone, listed value columns, one aggregation function;
    with margins, a function pandas also has on a whole column. *)
Definition covered (t : DataFrame) (config : PivotConfig)
  : option (AggregationType * list string) :=
  match columns config, values config, aggfunc config with
  | (None | Some []), Some (v :: vs), AggAll f =>
      if bool_decide (NoDup (df_columns t))
         && bool_decide (NoDup (index config ++ v :: vs))
         && forallb (has_column t) (index config ++ v :: vs)
         && negb (bool_decide (index config = []))
         && (negb (margins config)
             || bool_decide (f ∈ [agg_sum; agg_count; agg_min; agg_max]))
      then Some (f, v :: vs)
      else None
  | _, _, _ => None
  end.

Definition double_quote : string := String (ascii_of_nat 34) EmptyString.

Definition margin_key (config : PivotConfig) : list cell :=
  Str (margins_name config)
  :: replicate (length (index config) - 1) (Str "").

(** [_add_margins]: the total of every value column over the rows without a
    missing cell, appended under the margins name. *)
Definition add_margins (P : PivotLibrary) (f : AggregationType)
    (config : PivotConfig) (data : list (list cell * list cell))
    (names vs : list string) (table : list (list cell * list cell))
  : exc (list (list cell * list cell)) :=
  if existsb (fun kv => bool_decide (Str (margins_name config) ∈ kv.1)) table
  then Raise (Exception ValueError
                ("Conflicting name " +:+ double_quote +:+ margins_name config
                 +:+ double_quote +:+ " in margins"))
  else
    let complete :=
      filter (fun kv => row_has_null kv.1 || row_has_null kv.2 = false) data in
    grand <- map_exc
      (fun n =>
         let j := position n vs in
         total <- agg_column P f (map (fun kv => nth j kv.2 Null) data)
                             [map (fun kv => nth j kv.2 Null) complete] ;;
         Ok (hd Null total))
      names ;;
    Ok (table ++ [(margin_key config, grand)]).

(** The rows of the pivot, each the key of a group with its aggregates:
    grouping, aggregation, the two fills and the margins. [data] pairs the
    key cells of every row of the table with its value cells. *)
Definition pivot_rows (P : PivotLibrary) (f : AggregationType)
    (config : PivotConfig) (data : list (list cell * list cell))
    (names vs : list string) : exc (list (list cell * list cell)) :=
  (* groupby(keys, sort=True, dropna=True) *)
  let live := filter (fun kv => row_has_null kv.1 = false) data in
  let gkeys := sorted_keys (map fst live) in
  cols <- map_exc
    (fun n =>
       let j := position n vs in
       agg_column P f (map (fun kv => nth j kv.2 Null) data)
         (map (fun k => map (fun kv => nth j kv.2 Null)
                          (filter (fun kv => kv.1 = k) live)) gkeys))
    names ;;
  let table := imap (fun i k => (k, map (fun c => nth i c Null) cols))
                    gkeys in
  (* agged.dropna(how="all") *)
  let table := filter (fun kv => forallb is_null kv.2 = false) table in
  let table :=
    if is_null (fill_value config) then table
    else map (fun kv => (kv.1, map (fun c => if is_null c
                                             then fill_value config
                                             else c) kv.2)) table in
  if margins config
  then add_margins P f config data names vs table
  else Ok table.

(** The frame of the pivot: [table.dropna(how="all", axis=1)] removes the
    value columns without any value. *)
Definition pivot_frame (config : PivotConfig) (names : list string)
    (table : list (list cell * list cell)) : PivotFrame :=
  let kept :=
    filter (fun i => forallb (fun kv => is_null (nth i kv.2 Null)) table
                     = false)
           (seq 0 (length names)) in
  {| pf_index_names := map Some (index config);
     pf_index := map fst table;
     pf_columns := Index (map (fun i => nth i names "") kept);
     pf_values := map (fun kv => map (fun i => nth i kv.2 Null) kept) table |}.

(** One function for every value column *)
Definition one_function (a : aggfunc_spec) : bool :=
  match a with
  | AggAll _ => true
  | AggPerColumn d =>
      forallb (fun kv => match kv.2 with inl _ => true | inr _ => false end) d
  end.

(** A cross-tab: there are pivot columns, or several functions for a value
    column. [pd.pivot_table] then labels the columns of its result by
    tuples (a MultiIndex of two levels or more). *)
Definition cross_tab (config : PivotConfig) : bool :=
  negb (match columns config with
        | None | Some [] => true
        | Some (_ :: _) => false
        end && one_function (aggfunc config)).

(** [pd.pivot_table] for the other configurations with index columns, as
    far as the model follows it: the rows. Grouping leaves out the rows of
    the table with a missing key and sorts the keys ([sort=True]); the
    pivot has one row for every key tuple under the index columns, but for
    those whose aggregates are all missing ([agged.dropna(how="all")]), and
    the row of the margins comes last. *)
Definition grouped_pivot (P : PivotLibrary) (t : DataFrame)
    (config : PivotConfig) : exc PivotFrame :=
  keys <- getitems t (index config) ;;
  let gkeys := sorted_keys (filter (fun k => row_has_null k = false) keys) in
  let kept := filter (fun k => pivot_keeps P t config k = true) gkeys in
  let frame := fun (ks : list (list cell)) (axis : column_axis) (n : nat) =>
    {| pf_index_names := map Some (index config);
       pf_index := ks;
       pf_columns := axis;
       pf_values := map (fun k => map (pivot_cell P t config k) (seq 0 n))
                        ks |} in
  if cross_tab config then
    shape <- pivot_levels P t config ;;
    let '(second, further, labels) := shape in
    Ok (frame (if margins config && pivot_margins_row P t config
               then kept ++ [margin_key config] else kept)
              (MultiIndex (None :: second :: further) labels)
              (length labels))
  else
    labels <- pivot_labels P t config ;;
    Ok (frame (if margins config then kept ++ [margin_key config] else kept)
              (Index labels) (length labels)).

Definition pivot_table (P : PivotLibrary) (t : DataFrame)
    (config : PivotConfig) : exc PivotFrame :=
  match covered t config with
  | None =>
      if bool_decide (index config = []) then pivot_table_other P t config
      else grouped_pivot P t config
  | Some (f, vs) =>
      keys <- getitems t (index config) ;;
      vals <- getitems t vs ;;
      (* sort_index(axis=1) *)
      let names := sorted_names vs in
      table <- pivot_rows P f config (zip keys vals) names vs ;;
      Ok (pivot_frame config names table)
  end.

(** *** Keys of the emitted records *)

(** [record[name]] *)
Fixpoint record_get (n : string) (rec : list (string * cell)) : cell :=
  match rec with
  | [] => Null
  | (k, v) :: rec' => if String.eqb k n then v else record_get n rec'
  end.

(** The key tuple of a record: its cells under the index columns *)
Definition record_key (config : PivotConfig) (rec : list (string * cell))
  : list cell :=
  map (fun n => record_get n rec) (index config).

(** The key tuples of the records of a result, in the order of emission *)
Definition emitted_keys (config : PivotConfig) (r : PivotResult)
  : list (list cell) :=
  match data r with
  | Some d => map (record_key config) (out_data d)
  | None => []
  end.

(** The distinct complete key tuples of the table, each at the place of its
    first occurrence *)
Definition first_occurrence_keys (t : DataFrame) (config : PivotConfig)
  : list (list cell) :=
  match getitems t (index config) with
  | Ok keys =>
      drop_duplicates_rows (filter (fun k => row_has_null k = false) keys)
  | Raise _ => []
  end.

(** *** _pivot_to_dict *)

(** [reset_index] inserts the index levels as columns, the last level first,
    each at the front; a name that is already a column is refused. *)
Fixpoint insert_levels {A} `{EqDecision A} (names : list (string * A))
    (cols : list A) : exc (list A) :=
  match names with
  | [] => Ok cols
  | (n, a) :: rest =>
      cols' <- insert_levels rest cols ;;
      if bool_decide (a ∈ cols')
      then Raise (Exception ValueError
                    ("cannot insert " +:+ n +:+ ", already exists"))
      else Ok (a :: cols')
  end.

Definition first_level_names (ax : column_axis) : list string :=
  match ax with
  | Index labels => labels
  | MultiIndex _ labels =>
      omap (fun l => match l with Str s :: _ => Some s | _ => None end) labels
  end.

(** The column name of an index level; an unnamed level gets a default. *)
Definition level_name (pf : PivotFrame) (i : nat) (n : option string)
  : string :=
  match n with
  | Some s => s
  | None =>
      if (1 <? length (pf_index_names pf))%nat then "level_" +:+ pretty i
      else if bool_decide ("index" ∈ first_level_names (pf_columns pf))
           then "level_0" else "index"
  end.

(** [pivot_df.reset_index()]: the new column axis and the rows. *)
Definition reset_index (pf : PivotFrame)
  : exc (column_axis * list (list cell)) :=
  let names := imap (level_name pf) (pf_index_names pf) in
  let rows := zip_with app (pf_index pf) (pf_values pf) in
  match pf_columns pf with
  | Index labels =>
      cols <- insert_levels (map (fun n => (n, n)) names) labels ;;
      Ok (Index cols, rows)
  | MultiIndex lv labels =>
      cols <- insert_levels
                (map (fun n => (n, Str n :: replicate (length lv - 1) (Str "")))
                     names)
                labels ;;
      Ok (MultiIndex lv cols, rows)
  end.

Fixpoint lstrip_dots (s : string) : string :=
  match s with
  | String "." s' => lstrip_dots s'
  | _ => s
  end.

(** [s.strip('.')] *)
Definition strip_dots (s : string) : string :=
  String.rev (lstrip_dots (String.rev (lstrip_dots s))).

(** ['.' in s] *)
Fixpoint has_dot (s : string) : bool :=
  match s with
  | EmptyString => false
  | String c s' => Ascii.eqb c "." || has_dot s'
  end.

(** [k] dots, what the empty levels of a label leave behind a name when the
    label is joined *)
Fixpoint dots (k : nat) : string :=
  match k with
  | O => ""
  | S k' => String "." (dots k')
  end.

(** [str(x)] of a level value *)
Definition level_str (P : PivotLibrary) (c : cell) : string :=
  match c with
  | Str s => s
  | _ => level_text P c
  end.

(** [row[col]] on a row labelled by a MultiIndex, as [_pivot_to_dict] looks
    a column up. Under two levels or more, a name without a dot is looked
    up as it is, that is as a label of the first level; the labels being
    tuples, this selects no single cell: pandas raises [KeyError] when no
    tuple starts with the name, and hands back the Series of the cells
    under it otherwise, on which the test [if pd.isna(value)] raises
    [ValueError]. A name with a dot is first looked up as the tuple of its
    parts. *)
Definition multi_row_get (P : PivotLibrary) (levels : list (option string))
    (labels : list (list cell)) (row : list cell) (col : string) : exc cell :=
  if has_dot col || (length levels <? 2)%nat
  then multi_row_lookup P labels row col
  else Raise (multi_row_error P labels col).

(** [row[col]] on a row labelled by a plain index: a label that occurs once
    gives its cell, one that occurs several times gives them all. (For a
    name with a dot the source first tries the tuple of its parts, which a
    plain index does not have, and falls back to this.) *)
Definition row_get (labels : list string) (row : list cell) (col : string)
  : exc value :=
  match filter (fun lc => String.eqb lc.1 col = true) (zip labels row) with
  | [] => Raise (Exception KeyError col)
  | [lc] => Ok (Scalar lc.2)
  | several => Ok (ListOf (map snd several))
  end.

(** [if pd.isna(value): ...]: a missing value becomes [None], a number a
    native number; the test has no answer for several values at once. *)
Definition json_safe (v : value) : exc cell :=
  match v with
  | Scalar c => Ok c
  | ListOf _ =>
      Raise (Exception ValueError "The truth value of a Series is ambiguous")
  end.

(** [row_dict[col] = value] *)
Fixpoint dict_set (k : string) (v : cell) (d : list (string * cell))
  : list (string * cell) :=
  match d with
  | [] => [(k, v)]
  | (k', v') :: d' =>
      if String.eqb k' k then (k, v) :: d' else (k', v') :: dict_set k v d'
  end.

Definition to_record (get : string -> exc cell) (cols : list string)
  : exc (list (string * cell)) :=
  foldl (fun acc col => d <- acc ;; v <- get col ;; Ok (dict_set col v d))
        (Ok []) cols.

Definition _pivot_to_dict (P : PivotLibrary) (pivot_df : PivotFrame)
  : exc PivotData :=
  reset <- reset_index pivot_df ;;
  let '(axis, rows) := reset in
  let cols :=
    match axis with
    | Index labels => labels
    | MultiIndex _ labels =>
        map (fun col => strip_dots (join "." (map (level_str P) col))) labels
    end in
  records <- map_exc
    (fun row =>
       to_record
         (fun col =>
            match axis with
            | Index labels => v <- row_get labels row col ;; json_safe v
            | MultiIndex lv labels => multi_row_get P lv labels row col
            end)
         cols)
    rows ;;
  Ok {| out_columns := cols;
        out_data := records;
        index_columns := pf_index_names pivot_df;
        column_levels := match pf_columns pivot_df with
                         | Index _ => [None]
                         | MultiIndex lv _ => lv
                         end |}.

(** *** create_pivot *)

Section Service.
Context (P : PivotLibrary).
(** [pd.pivot_table], whatever it computes *)
Variable pd_pivot_table : DataFrame -> PivotConfig -> exc PivotFrame.

Definition absent (t : DataFrame) (cols : list string) : list string :=
  filter (fun col => has_column t col = false) cols.

Definition missing_columns (t : DataFrame) (config : PivotConfig)
  : list string :=
  map (fun col => "Index column not found: " +:+ col)
      (absent t (index config))
  ++ map (fun col => "Column not found: " +:+ col)
         (absent t (default [] (columns config)))
  ++ map (fun col => "Value column not found: " +:+ col)
         (absent t (default [] (values config))).

(** The body of the [try] *)
Definition create_pivot_try (t : DataFrame) (config : PivotConfig)
  : exc PivotResult :=
  match missing_columns t config with
  | [] =>
      pivot_df <- pd_pivot_table t config ;;
      result <- _pivot_to_dict P pivot_df ;;
      Ok {| success := true; data := Some result; config := config;
            error := None;
            message := Some "Pivot table generated successfully" |}
  | missing =>
      Ok {| success := false; data := None; config := config;
            error := Some "Column validation failed";
            message := Some (join ", " missing) |}
  end.

Definition create_pivot (t : DataFrame) (config : PivotConfig)
  : exc PivotResult :=
  try_except (create_pivot_try t config)
    (fun e => Ok {| success := false; data := None; config := config;
                    error := Some "Error generating pivot table";
                    message := Some (str_exn e) |}).

End Service.

End PivotService.

(** ** api/routes/pivot_routes.py: the cache of processed sheets *)

Module PivotRoutes.

Section Cache.
(** What is cached under a file id: the sheets of the file *)
Context {V : Type}.

(** [_data_cache]: a dictionary, kept as its items in insertion order. *)
Definition keys (d : list (string * V)) : list string := map fst d.

(** [d.get(k)] *)
Fixpoint lookup (k : string) (d : list (string * V)) : option V :=
  match d with
  | [] => None
  | (k', v) :: d' => if String.eqb k' k then Some v else lookup k d'
  end.

(** [d[k] = v]: a key the dictionary has keeps its place, a new key goes to
    the end. *)
Fixpoint store (k : string) (v : V) (d : list (string * V))
  : list (string * V) :=
  match d with
  | [] => [(k, v)]
  | (k', v') :: d' =>
      if String.eqb k' k then (k, v) :: d' else (k', v') :: store k v d'
  end.

(** [d.pop(k, None)] *)
Fixpoint pop (k : string) (d : list (string * V)) : list (string * V) :=
  match d with
  | [] => []
  | (k', v') :: d' => if String.eqb k' k then d' else (k', v') :: pop k d'
  end.

(** [cache_data(file_id, sheets)] *)
Definition cache_data (file_id : string) (sheets : V)
    (cache : list (string * V)) : list (string * V) :=
  let cache := store file_id sheets cache in
  if (10 <? length cache)%nat then
    match cache with
    | (oldest_key, _) :: _ => pop oldest_key cache
    | [] => cache
    end
  else cache.

End Cache.

End PivotRoutes.

(** ** utils/validators.py *)

Module DataValidator.

(** [df.duplicated()]: a row is marked when an equal row comes before it.
    [seen] holds the rows met so far. *)
Fixpoint duplicated_from (seen rs : list (list cell)) : list bool :=
  match rs with
  | [] => []
  | r :: rs' => bool_decide (r ∈ seen) :: duplicated_from (r :: seen) rs'
  end.

Definition duplicated (rs : list (list cell)) : list bool :=
  duplicated_from [] rs.

(** [df[~marks]]: the rows that are not marked *)
Definition unmarked (rs : list (list cell)) (marks : list bool)
  : list (list cell) :=
  map fst (filter (fun rm : list cell * bool => rm.2 = false) (zip rs marks)).

(** [series.sum()] of a column of booleans *)
Definition count_true (bs : list bool) : nat :=
  length (filter (fun b : bool => b = true) bs).

Section Methods.
(** [df.duplicated(subset=cols)] for a given list of columns *)
Variable duplicated_subset : DataFrame -> list string -> exc (list bool).

(** [check_duplicates(df, subset)] *)
Definition check_duplicates (t : DataFrame) (subset : option (list string))
  : exc nat :=
  match subset with
  | None => Ok (count_true (duplicated (df_rows t)))
  | Some cols => marks <- duplicated_subset t cols ;; Ok (count_true marks)
  end.

End Methods.

(** [check_missing_values(df)]: [df.isna().sum().to_dict()], the number of
    missing cells of every column, in column order. *)
Definition check_missing_values (t : DataFrame) : list (string * nat) :=
  imap (fun i name =>
          (name, length (filter (fun c => is_null c = true) (column_at i t))))
       (df_columns t).

Section Phone.
(** The characters of a text, and the digits among them ([\d]) *)
Context {char : Type} (is_digit : char -> bool).

(** [is_valid_phone(phone)]: at least ten digits once everything that is no
    digit is removed; the empty text is refused at once. *)
Definition is_valid_phone (phone : list char) : bool :=
  match phone with
  | [] => false
  | _ =>
      let digits := filter (fun c => is_digit c = true) phone in
      (10 <=? length digits)%nat
  end.

End Phone.

Section Schema.
(** The types a schema may expect *)
Context {type : Type}.
(** [isinstance(value, expected_type) or (expected_type == float and
    isinstance(value, (int, np.integer)))] for the value the column yields
    at a row; what Python type that value has depends on the column. *)
Variable isinstance : list cell -> nat -> type -> bool.
(** [expected_type.__name__] and [type(value).__name__] *)
Variable type_name : type -> string.
Variable value_type_name : list cell -> nat -> string.

(** A validator of a schema: its [__name__] and what a call gives, taken
    for its truth value. *)
Record validator : Type := {
  validator_name : string;
  validator_call : cell -> exc bool
}.

(** The loop of the type check over [enumerate(df[col])] *)
Definition type_errors (expected_type : option type) (column : list cell)
  : list string :=
  match expected_type with
  | None => []
  | Some ty =>
      concat
        (imap (fun i value =>
                 if is_null value then []
                 else if isinstance column i ty then []
                 else ["Row " +:+ pretty i +:+ ": Expected " +:+ type_name ty
                       +:+ ", got " +:+ value_type_name column i])
              column)
  end.

(** The loop of one validator over [enumerate(df[col])] *)
Definition validator_errors (v : validator) (column : list cell)
  : list string :=
  concat
    (imap (fun i value =>
             if is_null value then []
             else match validator_call v value with
                  | Ok true => []
                  | Ok false =>
                      ["Row " +:+ pretty i +:+ ": Validation failed for "
                       +:+ validator_name v]
                  | Raise e =>
                      ["Row " +:+ pretty i +:+ ": Error in validator "
                       +:+ validator_name v +:+ ": " +:+ str_exn e]
                  end)
          column).

(** [errors[col]] once the loop has gone through [col] *)
Definition column_errors (t : DataFrame) (col : string)
    (spec : option type * list validator) : list string :=
  if has_column t col then
    type_errors spec.1 (series t col)
    ++ concat (map (fun v => validator_errors v (series t col)) spec.2)
  else ["Column not found in DataFrame"].

(** [validate_dataframe(df, schema)]; the schema is a dictionary, given by
    its items. *)
Definition validate_dataframe (t : DataFrame)
    (schema : list (string * (option type * list validator)))
  : list (string * list string) :=
  filter (fun kv => kv.2 <> [])
         (map (fun item => (item.1, column_errors t item.1 item.2)) schema).

End Schema.

End DataValidator.

(** ** utils/file_handlers.py *)

Module FileHandler.

(** The keys of [READ_FUNCTIONS] *)
Definition READ_FUNCTIONS : list string :=
  [".csv"; ".xlsx"; ".xls"; ".json"; ".parquet"; ".feather"; ".h5"; ".hdf5"].

(** [WRITE_FUNCTIONS]: the method that writes every extension *)
Definition WRITE_FUNCTIONS : list (string * string) :=
  [(".csv", "to_csv"); (".xlsx", "to_excel"); (".xls", "to_excel");
   (".json", "to_json"); (".parquet", "to_parquet");
   (".feather", "to_feather"); (".h5", "to_hdf"); (".hdf5", "to_hdf")].

Section Methods.
(** [os.path.splitext(file_path)[1].lower()] *)
Variable get_file_extension : string -> string.

(** [is_supported_file(file_path, mode)] *)
Definition is_supported_file (file_path mode : string) : bool :=
  let ext := get_file_extension file_path in
  if String.eqb mode "read" then bool_decide (ext ∈ READ_FUNCTIONS)
  else bool_decide (ext ∈ map fst WRITE_FUNCTIONS).

End Methods.

End FileHandler.

(** ** A plain instance of the library, for running the model

    Numbers are held as int64 and print in decimal; what the instance does
    not implement raises. *)

Definition unsupported {A} (what : string) : exc A :=
  Raise (Exception OtherError what).

Definition plain_text (c : cell) : string :=
  match c with
  | Null => "None"
  | Num z => pretty z
  | Str s => "'" +:+ s +:+ "'"
  end.

Definition plain_library : Library := {|
  cell_num_text := pretty;
  value_num_text := pretty;
  list_text := fun l => "[" +:+ join ", " (map plain_text l) +:+ "]";
  regex_contains := fun _ _ => unsupported "regular expression";
  py_strip := id;
  py_upper := id;
  py_lower := id;
  py_title := id;
  to_datetime := fun _ _ => unsupported "date parsing";
  eval_custom := fun _ t => (t, unsupported "expression");
  where_promoted := fun _ _ _ => unsupported "promotion";
  where_listlike := fun _ _ _ => unsupported "list-like choice";
  object_dtype := fun _ _ => false;
  comparison_error :=
    fun _ _ => Exception TypeError "Invalid comparison";
  sum_axis1_object := fun _ => unsupported "sum over text";
  sum_inexact := fun _ r => Num (wrap64 (row_total r))
|}.

(** The plain instance for tables whose texts are no dates:
    [pd.to_datetime(..., errors='coerce')] turns every text into the missing
    value. *)
Definition coercing_library : Library := {|
  cell_num_text := cell_num_text plain_library;
  value_num_text := value_num_text plain_library;
  list_text := list_text plain_library;
  regex_contains := regex_contains plain_library;
  py_strip := py_strip plain_library;
  py_upper := py_upper plain_library;
  py_lower := py_lower plain_library;
  py_title := py_title plain_library;
  to_datetime :=
    fun _ cells => Ok (map (fun c => if is_str c then Null else c) cells);
  eval_custom := eval_custom plain_library;
  where_promoted := where_promoted plain_library;
  where_listlike := where_listlike plain_library;
  object_dtype := object_dtype plain_library;
  comparison_error := comparison_error plain_library;
  sum_axis1_object := sum_axis1_object plain_library;
  sum_inexact := sum_inexact plain_library
|}.

Definition plain_pivot_library : PivotService.PivotLibrary := {|
  PivotService.agg_float :=
    fun f cells => match f with
                   | PivotService.agg_sum => Num (wrap64 (row_total cells))
                   | _ => Null
                   end;
  PivotService.agg_object := fun _ _ => unsupported "aggregation of text";
  PivotService.pivot_table_other := fun _ _ => unsupported "pivot";
  PivotService.pivot_labels := fun _ _ => unsupported "pivot";
  PivotService.pivot_levels := fun _ _ => unsupported "pivot";
  PivotService.pivot_keeps := fun _ _ _ => true;
  PivotService.pivot_cell := fun _ _ _ _ => Null;
  PivotService.pivot_margins_row := fun _ _ => true;
  PivotService.level_text := plain_text;
  PivotService.multi_row_lookup :=
    fun _ _ _ => unsupported "MultiIndex lookup";
  PivotService.multi_row_error :=
    fun _ col => Exception KeyError col
|}.

(** ** Tables and rules of the examples *)

Module Examples.
Import CalculationsService.

Definition rule (n : string) (op : CalculationType) (cols : list string)
    (cond : option (list (string * value))) : CalculationRule :=
  {| name := n; operation := op; columns := cols; condition := cond;
     true_value := Scalar Null; false_value := Scalar Null;
     custom_function := None |}.

Definition when (op : string) (v : value) : option (list (string * value)) :=
  Some [("operator", Scalar (Str op)); ("value", v)].

(** column [x] = [5, 15, 25] *)
Definition x_table : DataFrame :=
  {| df_columns := ["x"]; df_rows := [[Num 5]; [Num 15]; [Num 25]] |}.

Definition countif_rule : CalculationRule :=
  rule "over_10" COUNTIF ["x"] (when ">" (Scalar (Num 10))).

(** columns [a] = [1, null] and [b] = [2, 3] *)
Definition ab_table : DataFrame :=
  {| df_columns := ["a"; "b"];
     df_rows := [[Num 1; Num 2]; [Null; Num 3]] |}.

Definition sum_rule : CalculationRule := rule "total" SUM ["a"; "b"] None.

(** one row, 2^62 under [a] and under [b] *)
Definition large_table : DataFrame :=
  {| df_columns := ["a"; "b"];
     df_rows := [[Num (2 ^ 62); Num (2 ^ 62)]] |}.

(** a rule over a column the table does not have *)
Definition broken_rule : CalculationRule := rule "broken" SUM ["zz"] None.

(** IF [x > 10] THEN "big" ELSE "small" *)
Definition size_rule : CalculationRule :=
  {| name := "size"; operation := IF; columns := ["x"];
     condition := Some (Conditions.compares OpGt 10);
     true_value := Scalar (Str "big"); false_value := Scalar (Str "small");
     custom_function := None |}.

(** SUMIF of [b] where [a >= 1] *)
Definition sumif_rule : CalculationRule :=
  rule "b_if_a" SUMIF ["a"; "b"] (Some (Conditions.compares OpGe 1)).

Definition count_rule : CalculationRule := rule "filled" COUNT ["a"; "b"] None.

(** a column with one missing cell and one text *)
Definition note_table : DataFrame :=
  {| df_columns := ["note"]; df_rows := [[Null]; [Str "pear"]] |}.

Definition contains_nan : list (string * value) :=
  [("operator", Scalar (Str "contains")); ("value", Scalar (Str "nan"))].

End Examples.

Module CleaningExamples.
Import DataCleaningService.

Definition options (missing : string) (fill : cell) : CleaningOptions :=
  {| remove_duplicates := false; handle_missing := missing;
     fill_value := fill; trim_whitespace := true; text_case := None;
     date_columns := []; date_format := None |}.

(** Duplicates removed, rows with a missing cell dropped, and [city] parsed
    as a date of the form year-month-day *)
Definition drop_and_parse : CleaningOptions :=
  {| remove_duplicates := true; handle_missing := "drop";
     fill_value := Null; trim_whitespace := false; text_case := None;
     date_columns := ["city"]; date_format := Some "%Y-%m-%d" |}.

(** the first row comes back as the third *)
Definition repeats_table : DataFrame :=
  {| df_columns := ["id"; "city"];
     df_rows := [[Num 1; Str "Oslo"]; [Num 2; Str "Rome"];
                 [Num 1; Str "Oslo"]] |}.

(** two columns; the second row has a missing cell *)
Definition gaps_table : DataFrame :=
  {| df_columns := ["id"; "city"];
     df_rows := [[Num 1; Str "Oslo"]; [Null; Str "Rome"];
                 [Num 3; Str "Bern"]] |}.

End CleaningExamples.

Module PivotExamples.
Import PivotService.

(** rows [{cat: X, val: 10}, {cat: X, val: 20}, {cat: Y, val: 5}] *)
Definition sales : DataFrame :=
  {| df_columns := ["cat"; "val"];
     df_rows := [[Str "X"; Num 10]; [Str "X"; Num 20]; [Str "Y"; Num 5]] |}.

(** rows [{cat: Y, val: 5}, {cat: X, val: 10}]: Y is met first *)
Definition sales_y_first : DataFrame :=
  {| df_columns := ["cat"; "val"];
     df_rows := [[Str "Y"; Num 5]; [Str "X"; Num 10]] |}.

Definition grouped_by (idx vals : list string) (total : bool) : PivotConfig :=
  {| index := idx; columns := None; values := Some vals;
     aggfunc := AggAll agg_sum; fill_value := Null;
     margins := total; margins_name := "Total" |}.

Definition by_cat (total : bool) : PivotConfig :=
  grouped_by ["cat"] ["val"] total.

Definition run (t : DataFrame) (config : PivotConfig) : exc PivotResult :=
  create_pivot plain_pivot_library (pivot_table plain_pivot_library) t config.

(** What [create_pivot] returns for [sales] with margins *)
Definition sales_with_total : PivotResult :=
  {| success := true;
     data := Some {| out_columns := ["cat"; "val"];
                     out_data := [[("cat", Str "X"); ("val", Num 30)];
                                  [("cat", Str "Y"); ("val", Num 5)];
                                  [("cat", Str "Total"); ("val", Num 35)]];
                     index_columns := [Some "cat"];
                     column_levels := [None] |};
     config := by_cat true;
     error := None;
     message := Some "Pivot table generated successfully" |}.

End PivotExamples.

Module ValidatorExamples.

(** [\d] on the characters of ASCII *)
Definition ascii_digit (c : ascii) : bool :=
  let n := nat_of_ascii c in ((48 <=? n) && (n <=? 57))%nat.

(** A schema that expects no type and has one validator, which fails on
    whatever it is given. *)
Definition refuses : DataValidator.validator :=
  {| DataValidator.validator_name := "never";
     DataValidator.validator_call := fun _ => Ok false |}.

Definition schema : list (string * (option unit * list DataValidator.validator)) :=
  [("city", (None, [refuses])); ("zip", (None, []))].

(** A table whose city is never given *)
Definition blank_table : DataFrame :=
  {| df_columns := ["id"; "city"];
     df_rows := [[Num 1; Null]; [Num 2; Null]] |}.

End ValidatorExamples.

(** * Properties *)

Section CalculationFacts.
Import CalculationsService.
Context (L : Library).

Lemma bind_raise {A B} (m : exc A) (k : A -> exc B) e :
  m = Raise e -> Py.bind m k = Raise e.
Proof. intros ->. reflexivity. Qed.

(** The reduction along axis 1 has no axis to work on: whatever the
    condition gave, COUNTIF raises. *)
Lemma apply_countif_raises rule st :
  exists e, _apply_countif L rule st = Raise e.
Proof.
  unfold _apply_countif.
  destruct (no_condition (condition rule)); [eauto|].
  destruct (first_column rule) as [column|e]; simpl; [|eauto].
  destruct (_validate_columns_exist _ _) as [[]|e]; simpl; [|eauto].
  destruct (_parse_condition _ _ _ _) as [cond|e]; simpl; eauto.
Qed.

(** So a call with a COUNTIF rule never hands a table back. *)
Lemma countif_never_succeeds h table rule :
  operation rule = COUNTIF ->
  success (run_calculations L h table [rule]).2 = false
  /\ result_df (run_calculations L h table [rule]).2 = None.
Proof.
  intros Hop. unfold run_calculations, apply_calculations.
  cbn [apply_rules]. unfold _apply_rule. rewrite Hop.
  destruct (apply_countif_raises rule (__init__ h table)) as [e ->].
  by split.
Qed.

(** On a column that is there, "contains" with a pattern free of special
    characters tests, cell by cell, whether the pattern occurs in the text
    of the cell; the text of a missing cell is "nan". *)
Lemma contains_tests_cell_text t column cells pat :
  getitem t column = Ok cells -> is_literal pat = true ->
  _parse_condition L t column
    [("operator", Scalar (Str "contains")); ("value", Scalar (Str pat))]
  = Ok (map (fun c => occurs_in pat (astype_str L c)) cells).
Proof.
  intros Hcol Hlit. unfold _parse_condition.
  cbn [dict_get String.eqb Ascii.eqb Bool.eqb].
  unfold is_op.
  repeat (rewrite bool_decide_eq_false_2 by discriminate).
  rewrite bool_decide_eq_true_2 by done.
  rewrite Hcol. cbn [Py.bind py_str]. unfold str_contains.
  by rewrite Hlit, map_map.
Qed.

End CalculationFacts.

(** C1. The code does not give the indicator column the claim describes: for
    column [x] = [5, 15, 25] and the rule COUNTIF [x > 10], the call returns
    a failure and no table, because the sum along axis 1 of the
    one-dimensional indicator raises. *)
Theorem countif_example_fails (L : Library) :
  (CalculationsService.run_calculations L {[ 0%nat := Examples.x_table ]}
     0%nat [Examples.countif_rule]).2
  = {| CalculationsService.success := false;
       CalculationsService.message :=
         "Error applying calculations: axis 1 is out of bounds for array of dimension 1";
       CalculationsService.columns_added := [];
       CalculationsService.error :=
         Some "axis 1 is out of bounds for array of dimension 1";
       CalculationsService.result_df := None |}.
Proof. vm_compute. reflexivity. Qed.

(** C7. A missing cell does match: the column is turned into text first, a
    missing cell becomes the text "nan", and "nan" contains the condition
    value "nan". *)
Theorem contains_matches_missing_cell (L : Library) :
  CalculationsService._parse_condition L Examples.note_table "note"
    Examples.contains_nan
  = Ok [true; false].
Proof. vm_compute. reflexivity. Qed.

Section RuleFailure.
Import CalculationsService.
Context (L : Library).

Lemma apply_rules_app pre post st st' :
  apply_rules L pre st = (st', Ok tt) ->
  apply_rules L (pre ++ post) st = apply_rules L post st'.
Proof.
  revert st. induction pre as [|r pre IH]; intros st H; simpl in *.
  - by inversion H.
  - destruct (_apply_rule L r st) as [st1|e]; [by apply IH | discriminate].
Qed.

(** A source column the frame does not have stops the rule. *)
Lemma missing_column_raises t cols col :
  col ∈ cols -> has_column t col = false ->
  _validate_columns_exist t cols
  = Raise (Exception ValueError
             ("Columns not found: " +:+
              join ", " (filter (fun c => has_column t c = false) cols))).
Proof.
  intros Hin Hmiss. unfold _validate_columns_exist.
  assert (Hm : col ∈ filter (fun c => has_column t c = false) cols)
    by (apply list_elem_of_filter; done).
  destruct (filter _ cols); [by apply not_elem_of_nil in Hm | done].
Qed.

(** A conditional rule without a condition stops. *)
Lemma missing_condition_raises rule st :
  operation rule = IF -> no_condition (condition rule) = true ->
  _apply_rule L rule st
  = Raise (Exception ValueError "Condition is required for IF operation").
Proof. intros Hop Hc. unfold _apply_rule, _apply_if. by rewrite Hop, Hc. Qed.

(** A condition without its two keys is malformed. *)
Lemma malformed_condition_raises t column cond :
  dict_get "operator" cond = None \/ dict_get "value" cond = None ->
  _parse_condition L t column cond
  = Raise (Exception ValueError
             "Condition must include 'operator' and 'value'").
Proof.
  intros H. unfold _parse_condition.
  destruct (dict_get "operator" cond), (dict_get "value" cond);
    destruct H; done.
Qed.

(** An operator outside the eight known ones is refused by name. *)
Lemma unsupported_operator_raises t column cond sym v :
  dict_get "operator" cond = Some (Scalar (Str sym)) ->
  dict_get "value" cond = Some v ->
  sym ∉ ["=="; "!="; ">"; ">="; "<"; "<="; "in"; "contains"] ->
  _parse_condition L t column cond
  = Raise (Exception ValueError ("Unsupported operator: " +:+ sym)).
Proof.
  intros Ho Hv Hsym. unfold _parse_condition. rewrite Ho, Hv.
  unfold is_op.
  repeat (case_bool_decide; [exfalso; apply Hsym; simplify_eq; set_solver|]).
  reflexivity.
Qed.

(** An exception of the caller's expression stops the rule. *)
Lemma failing_custom_raises rule st expr e :
  operation rule = CUSTOM -> custom_function rule = Some expr ->
  expr <> "" ->
  (eval_custom L expr (deref st.1 (df st.2))).2 = Raise e ->
  _apply_rule L rule st
  = Raise (Exception ValueError ("Error in custom function: " +:+ str_exn e)).
Proof.
  intros Hop Hf Hne He. unfold _apply_rule, _apply_custom.
  rewrite Hop, Hf. simpl.
  destruct (String.eqb_spec expr ""); [done|]. simpl.
  by rewrite He.
Qed.

End RuleFailure.

(** C2. When a rule of the list fails, after the rules before it went
    through, the call returns a failure: [success] is false, the message
    carries the text of the exception, and the result holds no table. *)
Theorem failing_rule_fails_whole_call (L : Library) (h : heap) (table : nat)
    (pre post : list CalculationsService.CalculationRule)
    (rule : CalculationsService.CalculationRule)
    (st : heap * CalculationsService.DataFrameCalculator) (e : exn) :
  CalculationsService.apply_rules L pre
    (CalculationsService.__init__ h table) = (st, Ok tt) ->
  CalculationsService._apply_rule L rule st = Raise e ->
  (CalculationsService.run_calculations L h table (pre ++ rule :: post)).2
  = {| CalculationsService.success := false;
       CalculationsService.message :=
         "Error applying calculations: " +:+ str_exn e;
       CalculationsService.columns_added := [];
       CalculationsService.error := Some (str_exn e);
       CalculationsService.result_df := None |}.
Proof.
  intros Hpre Hrule.
  unfold CalculationsService.run_calculations,
    CalculationsService.apply_calculations.
  rewrite (apply_rules_app L _ _ _ _ Hpre). simpl. by rewrite Hrule.
Qed.

Lemma failing_rule_witness :
  (CalculationsService.run_calculations plain_library
     {[ 0%nat := Examples.ab_table ]} 0%nat
     ([Examples.sum_rule] ++ Examples.broken_rule :: [])).2
  = {| CalculationsService.success := false;
       CalculationsService.message :=
         "Error applying calculations: Columns not found: zz";
       CalculationsService.columns_added := [];
       CalculationsService.error := Some "Columns not found: zz";
       CalculationsService.result_df := None |}.
Proof.
  eapply (failing_rule_fails_whole_call plain_library _ _
            [Examples.sum_rule] [] Examples.broken_rule _
            (Exception ValueError "Columns not found: zz")).
  - vm_compute. reflexivity.
  - vm_compute. reflexivity.
Defined.

(** C9. With [handle_missing = "fill"] and no fill value the missing-value
    step leaves the state as it is (frames, reference and log), so the whole
    [clean] runs as with ["keep"]; and a fill that finds no missing cell
    appends nothing to the log. *)
Theorem fill_without_value_is_silent (L : Library)
    (options : DataCleaningService.CleaningOptions)
    (st : heap * DataCleaningService.DataCleaner) :
  DataCleaningService.handle_missing options = "fill" ->
  (DataCleaningService.fill_value options = Null ->
     DataCleaningService._handle_missing_values
       (DataCleaningService.handle_missing options)
       (DataCleaningService.fill_value options) st = st
     /\ DataCleaningService.clean L options st
        = DataCleaningService.clean L (DataCleaningService.keep_missing options) st)
  /\ (isna_count (deref st.1 (DataCleaningService.cleaned_df st.2)) = 0%nat ->
      DataCleaningService.applied_operations
        (DataCleaningService._handle_missing_values
           (DataCleaningService.handle_missing options)
           (DataCleaningService.fill_value options) st).2
      = DataCleaningService.applied_operations st.2).
Proof.
  intros Hfill. split.
  - intros Hnone.
    assert (Hstep : forall st0,
              DataCleaningService._handle_missing_values "fill" Null st0
              = st0) by (by intros [h0 s0]).
    rewrite Hfill, Hnone. split; [apply Hstep|].
    unfold DataCleaningService.clean. rewrite Hfill, Hnone.
    change (negb ("fill" =? "keep")%string) with true. cbv iota.
    rewrite Hstep. reflexivity.
  - destruct st as [h self]. intros Hzero. rewrite Hfill.
    unfold DataCleaningService._handle_missing_values.
    change ("fill" =? "drop")%string with false.
    change ("fill" =? "fill")%string with true. cbv iota.
    destruct (negb (is_null (DataCleaningService.fill_value options)));
      [|reflexivity].
    cbn [andb]. unfold alloc. cbv zeta.
    cbn [fst snd] in Hzero. rewrite Hzero. reflexivity.
Qed.

Lemma fill_without_value_witness :
  let st := DataCleaningService.__init__ {[ 0%nat := Examples.note_table ]}
              0%nat in
  DataCleaningService._handle_missing_values "fill" Null st = st.
Proof.
  exact (proj1 (proj1 (fill_without_value_is_silent plain_library
                         (CleaningExamples.options "fill" Null) _ eq_refl)
                      eq_refl)).
Defined.

(** C10. [create_pivot] always returns a result: an exception raised in the
    body, by the validation, by [pd.pivot_table] or by the conversion, is
    turned into a result with [success] false, empty data and the text of
    the exception as message; what the body returns is returned as it is. *)
Theorem create_pivot_total (P : PivotService.PivotLibrary)
    (pd_pivot_table :
       DataFrame -> PivotService.PivotConfig -> exc PivotService.PivotFrame)
    (t : DataFrame) (config : PivotService.PivotConfig) :
  exists r : PivotService.PivotResult,
    PivotService.create_pivot P pd_pivot_table t config = Ok r
    /\ (forall e,
          PivotService.create_pivot_try P pd_pivot_table t config = Raise e ->
          r = {| PivotService.success := false;
                 PivotService.data := None;
                 PivotService.config := config;
                 PivotService.error := Some "Error generating pivot table";
                 PivotService.message := Some (str_exn e) |})
    /\ (forall r0,
          PivotService.create_pivot_try P pd_pivot_table t config = Ok r0 ->
          r = r0)
    /\ (PivotService.success r = false -> PivotService.data r = None).
Proof.
  unfold PivotService.create_pivot.
  destruct (PivotService.create_pivot_try P pd_pivot_table t config)
    as [r0|e0] eqn:Hbody; simpl.
  - exists r0. repeat split; try congruence.
    revert Hbody. unfold PivotService.create_pivot_try.
    destruct (PivotService.missing_columns t config).
    + destruct (pd_pivot_table t config); simpl; [|discriminate].
      destruct (PivotService._pivot_to_dict P a); simpl; [|discriminate].
      intros [= <-]. discriminate.
    + intros [= <-]. reflexivity.
  - eexists. repeat split; try congruence.
Qed.

Section Occurrence.

Lemma prefix_app_r p s b :
  String.prefix p s = true -> String.prefix p (s +:+ b) = true.
Proof.
  revert s. induction p as [|a p IH]; intros s H;
    [by destruct (s +:+ b)|].
  destruct s as [|c s]; simpl in *; [discriminate|].
  destruct (Ascii.ascii_dec a c); [by apply IH | discriminate].
Qed.

Lemma prefix_refl p : String.prefix p p = true.
Proof.
  induction p as [|a p IH]; simpl; [done|].
  by destruct (Ascii.ascii_dec a a).
Qed.

Lemma occurs_in_unfold p s :
  occurs_in p s
  = if String.prefix p s then true
    else match s with
         | EmptyString => false
         | String _ s' => occurs_in p s'
         end.
Proof. by destruct s. Qed.

Lemma occurs_in_refl p : occurs_in p p = true.
Proof. rewrite occurs_in_unfold. by rewrite prefix_refl. Qed.

Lemma occurs_in_app_l p s b :
  occurs_in p s = true -> occurs_in p (s +:+ b) = true.
Proof.
  induction s as [|c s IH]; intros H.
  - rewrite occurs_in_unfold in H.
    destruct (String.prefix p "") eqn:Hp; [|discriminate].
    rewrite occurs_in_unfold. by rewrite (prefix_app_r _ _ b Hp).
  - rewrite occurs_in_unfold in H.
    rewrite occurs_in_unfold.
    destruct (String.prefix p (String c s)) eqn:Hp.
    + by rewrite (prefix_app_r _ _ b Hp).
    + destruct (String.prefix p (String c s +:+ b)); [done|].
      simpl. by apply IH.
Qed.

Lemma occurs_in_app_r p a s :
  occurs_in p s = true -> occurs_in p (a +:+ s) = true.
Proof.
  intros H. induction a as [|c a IH]; [done|].
  rewrite occurs_in_unfold.
  destruct (String.prefix p (String c a +:+ s)); [done|]. exact IH.
Qed.

(** Every element of a joined list occurs in the joined text. *)
Lemma occurs_in_join p x sep l :
  x ∈ l -> occurs_in p x = true -> occurs_in p (join sep l) = true.
Proof.
  intros Hin Hp. induction l as [|y l IH]; [by apply not_elem_of_nil in Hin|].
  apply elem_of_cons in Hin as [->|Hin].
  - destruct l; simpl; [done|]. by apply occurs_in_app_l.
  - destruct l as [|z l]; [by apply not_elem_of_nil in Hin|].
    change (join sep (y :: z :: l)) with (y +:+ sep +:+ join sep (z :: l)).
    apply occurs_in_app_r, occurs_in_app_r. by apply IH.
Qed.

End Occurrence.

Section Validation.
Import PivotService.

Lemma absent_elem t cols n :
  n ∈ cols -> has_column t n = false -> n ∈ absent t cols.
Proof. intros. by apply list_elem_of_filter. Qed.

(** A name of the configuration that the table lacks has its own entry in
    the list of complaints. *)
Lemma missing_columns_complete t config n :
  n ∈ index config ++ default [] (columns config)
      ++ default [] (values config) ->
  has_column t n = false ->
  exists entry, entry ∈ missing_columns t config
                /\ occurs_in n entry = true.
Proof.
  intros Hin Hmiss. unfold missing_columns.
  apply elem_of_app in Hin as [Hin|Hin];
    [|apply elem_of_app in Hin as [Hin|Hin]].
  - exists ("Index column not found: " +:+ n). split.
    + apply elem_of_app. left. apply list_elem_of_fmap.
      exists n. split; [done | by apply absent_elem].
    + apply occurs_in_app_r, occurs_in_refl.
  - exists ("Column not found: " +:+ n). split.
    + apply elem_of_app. right. apply elem_of_app. left.
      apply list_elem_of_fmap.
      exists n. split; [done | by apply absent_elem].
    + apply occurs_in_app_r, occurs_in_refl.
  - exists ("Value column not found: " +:+ n). split.
    + apply elem_of_app. right. apply elem_of_app. right.
      apply list_elem_of_fmap.
      exists n. split; [done | by apply absent_elem].
    + apply occurs_in_app_r, occurs_in_refl.
Qed.

End Validation.

(** C3. When a name listed in index, columns or values is absent from the
    table, [create_pivot] returns the validation error, whatever
    [pd.pivot_table] would do (it is not reached): [success] is false, the
    data is empty, and the message, the complaints joined by ", ", contains
    every absent name. *)
Theorem validation_lists_every_missing_column
    (P : PivotService.PivotLibrary)
    (pd_pivot_table :
       DataFrame -> PivotService.PivotConfig -> exc PivotService.PivotFrame)
    (t : DataFrame) (config : PivotService.PivotConfig) (name : string) :
  name ∈ PivotService.index config
         ++ default [] (PivotService.columns config)
         ++ default [] (PivotService.values config) ->
  has_column t name = false ->
  PivotService.create_pivot P pd_pivot_table t config
  = Ok {| PivotService.success := false;
          PivotService.data := None;
          PivotService.config := config;
          PivotService.error := Some "Column validation failed";
          PivotService.message :=
            Some (join ", " (PivotService.missing_columns t config)) |}
  /\ forall n,
       n ∈ PivotService.index config
           ++ default [] (PivotService.columns config)
           ++ default [] (PivotService.values config) ->
       has_column t n = false ->
       occurs_in n (join ", " (PivotService.missing_columns t config)) = true.
Proof.
  intros Hin Hmiss. split.
  - destruct (missing_columns_complete t config name Hin Hmiss)
      as (entry & Hentry & _).
    unfold PivotService.create_pivot, PivotService.create_pivot_try.
    destruct (PivotService.missing_columns t config);
      [by apply not_elem_of_nil in Hentry | reflexivity].
  - intros n Hn Hn'.
    destruct (missing_columns_complete t config n Hn Hn')
      as (entry & Hentry & Hocc).
    by apply (occurs_in_join n entry).
Qed.

Lemma validation_witness :
  PivotService.create_pivot plain_pivot_library
    (PivotService.pivot_table plain_pivot_library)
    PivotExamples.sales
    (PivotExamples.grouped_by ["missing1"] ["missing2"] false)
  = Ok {| PivotService.success := false;
          PivotService.data := None;
          PivotService.config :=
            PivotExamples.grouped_by ["missing1"] ["missing2"] false;
          PivotService.error := Some "Column validation failed";
          PivotService.message :=
            Some "Index column not found: missing1, Value column not found: missing2" |}
  /\ occurs_in "missing1"
       "Index column not found: missing1, Value column not found: missing2"
     = true
  /\ occurs_in "missing2"
       "Index column not found: missing1, Value column not found: missing2"
     = true.
Proof.
  pose proof (validation_lists_every_missing_column plain_pivot_library
                (PivotService.pivot_table plain_pivot_library)
                PivotExamples.sales
                (PivotExamples.grouped_by ["missing1"] ["missing2"] false)
                "missing1") as H.
  destruct H as [Hres Hall].
  - simpl. apply elem_of_cons. by left.
  - reflexivity.
  - split; [exact Hres|]. split.
    + apply (Hall "missing1"); [|reflexivity].
      simpl. apply elem_of_cons. by left.
    + apply (Hall "missing2"); [|reflexivity].
      simpl. apply elem_of_cons. right. apply elem_of_cons. by left.
Defined.

Section Frames.

Lemma index_of_lt n l i : index_of n l = Some i -> (i < length l)%nat.
Proof.
  revert i. induction l as [|x l IH]; intros i H; simpl in *; [discriminate|].
  destruct (String.eqb x n).
  - inversion H. lia.
  - destruct (index_of n l) as [j|]; [|discriminate].
    inversion H. specialize (IH j eq_refl). lia.
Qed.

Lemma index_of_new n l :
  index_of n l = None -> index_of n (l ++ [n]) = Some (length l).
Proof.
  induction l as [|x l IH]; intros H; simpl in *.
  - by rewrite String.eqb_refl.
  - destruct (String.eqb x n); [discriminate|].
    destruct (index_of n l); [discriminate|]. by rewrite IH.
Qed.

Lemma has_column_index t c :
  has_column t c = true -> exists i, index_of c (df_columns t) = Some i.
Proof.
  unfold has_column. destruct (index_of c (df_columns t)); [eauto|discriminate].
Qed.

Lemma column_indexes_ok t cols :
  Forall (fun c => has_column t c = true) cols ->
  exists idxs, map_exc (column_index t) cols = Ok idxs
               /\ forall r, map (fun i => nth i r Null) idxs
                            = map (row_cell t r) cols.
Proof.
  induction 1 as [|c cols Hc _ IH]; simpl.
  - by exists [].
  - destruct IH as (idxs & -> & Hrows).
    apply has_column_index in Hc as [i Hi].
    unfold column_index at 1. rewrite Hi. simpl.
    exists (i :: idxs). split; [done|]. intros r. simpl.
    rewrite Hrows. unfold row_cell at 2. by rewrite Hi.
Qed.

(** [df[names]] of present names gives, row by row, the cells under them. *)
Lemma getitems_ok t cols :
  Forall (fun c => has_column t c = true) cols ->
  getitems t cols = Ok (map (fun r => map (row_cell t r) cols) (df_rows t)).
Proof.
  intros H. destruct (column_indexes_ok t cols H) as (idxs & Hidx & Hrows).
  unfold getitems. rewrite Hidx. simpl. f_equal.
  apply map_ext. exact Hrows.
Qed.

Lemma series_column t c i :
  index_of c (df_columns t) = Some i ->
  series t c = map (fun r => row_cell t r c) (df_rows t).
Proof.
  intros Hi. unfold series, column_at, row_cell. by rewrite Hi.
Qed.

Lemma nth_insert_same (r : list cell) i v :
  (i < length r)%nat -> nth i (<[i := v]> r) Null = v.
Proof.
  revert i. induction r as [|x r IH]; intros i H; simpl in *; [lia|].
  destruct i; simpl; [done|]. apply IH. lia.
Qed.

Lemma nth_snoc (r : list cell) v : nth (length r) (r ++ [v]) Null = v.
Proof. induction r; simpl; auto. Qed.

(** Reading back the column just assigned gives the assigned values. *)
Lemma series_setitem t n vs :
  well_formed t -> length vs = nrows t ->
  series (setitem t n vs) n = vs.
Proof.
  intros [_ Hrows] Hlen. unfold series, setitem, nrows in *.
  destruct (index_of n (df_columns t)) as [i|] eqn:Hi; simpl.
  - rewrite Hi. unfold column_at. simpl.
    apply index_of_lt in Hi.
    revert vs Hlen. induction Hrows as [|r rs Hr _ IH]; intros vs Hlen;
      destruct vs as [|v vs]; simpl in *; try done.
    f_equal; [apply nth_insert_same; lia | apply IH; lia].
  - rewrite (index_of_new _ _ Hi). unfold column_at. simpl.
    revert vs Hlen. induction Hrows as [|r rs Hr _ IH]; intros vs Hlen;
      destruct vs as [|v vs]; simpl in *; try done.
    f_equal; [rewrite <- Hr; apply nth_snoc | apply IH; lia].
Qed.

Lemma validate_present t cols :
  Forall (fun c => has_column t c = true) cols ->
  CalculationsService._validate_columns_exist t cols = Ok tt.
Proof.
  intros H. unfold CalculationsService._validate_columns_exist.
  replace (filter (fun col => has_column t col = false) cols) with (@nil string);
    [done|].
  symmetry. induction H as [|c cols Hc _ IH]; [done|].
  rewrite filter_cons. rewrite decide_False; [done | by rewrite Hc].
Qed.

Lemma numeric_selection t cols :
  Forall (fun c => has_column t c = true) cols ->
  Forall (fun c => is_object_column (series t c) = false) cols ->
  existsb (existsb is_str)
          (map (fun r => map (row_cell t r) cols) (df_rows t)) = false.
Proof.
  intros Hpres Hnum. apply not_true_iff_false. intros Hex.
  apply existsb_exists in Hex as (sel & Hsel & Hex).
  apply in_map_iff in Hsel as (r & <- & Hr).
  apply existsb_exists in Hex as (c & Hc & Hstr).
  apply in_map_iff in Hc as (col & <- & Hcol).
  rewrite Forall_forall in Hpres, Hnum.
  apply list_elem_of_In in Hcol.
  destruct (has_column_index t col (Hpres col Hcol)) as [i Hi].
  specialize (Hnum col Hcol). rewrite (series_column t col i Hi) in Hnum.
  apply not_true_iff_false in Hnum. apply Hnum.
  apply existsb_exists. exists (row_cell t r col). split; [|done].
  apply in_map_iff. eauto.
Qed.

End Frames.

Section SumRule.
Import CalculationsService.

Lemma deref_lookup (h : heap) l t : h !! l = Some t -> deref h l = t.
Proof. intros H. unfold deref. by rewrite lookup_total_alt, H. Qed.

Lemma deref_insert (h : heap) l t : deref (<[l := t]> h) l = t.
Proof. apply deref_lookup, lookup_insert_eq. Qed.

(** What SUM does to the calculator's frame when its columns are there and
    numeric, and the numbers of every row add up exactly. *)
Lemma apply_sum_ok (L : Library) rule (h : heap) self t :
  deref h (df self) = t ->
  Forall (fun c => has_column t c = true) (columns rule) ->
  Forall (fun c => is_object_column (series t c) = false) (columns rule) ->
  Forall (fun r => exact_sum (map (row_cell t r) (columns rule)) = true)
         (df_rows t) ->
  _apply_sum L rule (h, self)
  = Ok (assign rule
          (map (fun r => Num (row_total (map (row_cell t r) (columns rule))))
               (df_rows t))
          ("Sum of columns: " +:+ join ", " (columns rule)) (h, self)).
Proof.
  intros Ht Hpres Hnum Hexact. unfold _apply_sum. cbn [fst snd]. rewrite Ht.
  rewrite (validate_present _ _ Hpres). cbn [Py.bind].
  rewrite (getitems_ok _ _ Hpres). cbn [Py.bind].
  unfold sum_axis1. rewrite (numeric_selection _ _ Hpres Hnum).
  cbn [Py.bind]. rewrite map_map. do 2 f_equal.
  apply map_ext_Forall. eapply Forall_impl; [exact Hexact|].
  intros r Hr. cbv beta in Hr |- *. by rewrite Hr.
Qed.

End SumRule.




Section Store.

Lemma made_since_alloc (h h' : heap) t :
  h ⊆ h' -> made_since h (alloc h' t).2 (alloc h' t).1.
Proof.
  intros Hsub. unfold alloc. cbn [fst snd].
  pose proof (is_fresh (dom h')) as Hfresh.
  apply not_elem_of_dom in Hfresh.
  repeat split.
  - etrans; [exact Hsub|]. by apply insert_subseteq.
  - destruct (h !! fresh (dom h')) as [x|] eqn:Hx; [|done].
    eapply lookup_weaken in Hx; [|exact Hsub]. congruence.
  - rewrite lookup_insert_eq. eauto.
Qed.

Lemma made_since_setitem (h h' : heap) l n vs :
  made_since h h' l -> made_since h (setitem_at h' l n vs) l.
Proof.
  intros (Hsub & Hnew & Hlive). unfold setitem_at. repeat split.
  - by apply insert_subseteq_r.
  - done.
  - rewrite lookup_insert_eq. eauto.
Qed.

Lemma made_since_sub (h h' : heap) l : made_since h h' l -> h ⊆ h'.
Proof. by intros (? & _). Qed.

Lemma made_since_insert (h h' : heap) l t :
  made_since h h' l -> made_since h (<[l := t]> h') l.
Proof.
  intros (Hsub & Hnew & Hlive). repeat split.
  - by apply insert_subseteq_r.
  - done.
  - rewrite lookup_insert_eq. eauto.
Qed.

End Store.

Section CleanerFrame.
Import DataCleaningService.
Context (L : Library) (h : heap).

Local Abbreviation cleaner_owns := (DataCleaningService.cleaner_owns h).

Lemma owns_init table : cleaner_owns (__init__ h table).
Proof.
  unfold cleaner_owns, __init__.
  pose proof (made_since_alloc h h (deref h table) (reflexivity _)) as H.
  by destruct (alloc h (deref h table)).
Qed.

Lemma owns_log op dt h' self :
  cleaner_owns (h', self) -> cleaner_owns (h', _log_operation op dt self).
Proof. done. Qed.

Lemma owns_remove_duplicates st :
  cleaner_owns st -> cleaner_owns (_remove_duplicates st).
Proof.
  destruct st as [h' self]. intros Hown.
  pose proof (made_since_alloc h h'
                (drop_duplicates (deref h' (cleaned_df self)))
                (made_since_sub _ _ _ Hown)) as H.
  unfold _remove_duplicates.
  destruct (alloc h' _) as [l h1]. by case_match.
Qed.

Lemma owns_handle_missing method fill st :
  cleaner_owns st -> cleaner_owns (_handle_missing_values method fill st).
Proof.
  destruct st as [h' self]. intros Hown.
  unfold _handle_missing_values.
  destruct (String.eqb method "drop").
  - pose proof (made_since_alloc h h' (dropna (deref h' (cleaned_df self)))
                  (made_since_sub _ _ _ Hown)) as H.
    destruct (alloc h' _) as [l h1]. by case_match.
  - destruct (String.eqb method "fill" && negb (is_null fill)); [|done].
    pose proof (made_since_alloc h h'
                  (fillna fill (deref h' (cleaned_df self)))
                  (made_since_sub _ _ _ Hown)) as H.
    destruct (alloc h' _) as [l h1]. by case_match.
Qed.

Lemma owns_apply_to_columns f cols h' self :
  cleaner_owns (h', self) ->
  cleaner_owns (apply_to_columns f cols (cleaned_df self) h', self).
Proof.
  unfold cleaner_owns, apply_to_columns. cbn [fst snd].
  revert h'. induction cols as [|c cols IH]; intros h' Hown; [done|].
  cbn [foldl]. apply IH. by apply made_since_setitem.
Qed.

Lemma owns_trim_whitespace st :
  cleaner_owns st -> cleaner_owns (_trim_whitespace L st).
Proof.
  destruct st as [h' self]. intros Hown. unfold _trim_whitespace.
  cbv zeta. case_match;
    exact (owns_apply_to_columns _ _ _ _ Hown).
Qed.

Lemma owns_standardize_text_case case st :
  cleaner_owns st -> cleaner_owns (_standardize_text_case L case st).
Proof.
  destruct st as [h' self]. intros Hown. unfold _standardize_text_case.
  cbv zeta.
  set (h2 := if String.eqb case "upper" then _ else _).
  assert (cleaner_owns (h2, self)) as H.
  { subst h2. repeat case_match; try done; by apply owns_apply_to_columns. }
  clearbody h2. case_match; exact H.
Qed.

Lemma owns_parse_one fmt st col :
  cleaner_owns st -> cleaner_owns (parse_one L fmt st col).
Proof.
  destruct st as [h' self]. intros Hown. unfold parse_one.
  case_match; [|done]. by apply made_since_setitem.
Qed.

Lemma owns_parse_dates cols fmt st :
  cleaner_owns st -> cleaner_owns (_parse_dates L cols fmt st).
Proof.
  intros Hown. unfold _parse_dates. destruct cols as [|c cols]; [done|].
  set (present := filter _ (c :: cols)).
  assert (cleaner_owns (foldl (parse_one L fmt) st present)) as H.
  { clearbody present. revert st Hown.
    induction present as [|p present IH]; intros st Hown; [done|].
    cbn [foldl]. by apply IH, owns_parse_one. }
  destruct (foldl (parse_one L fmt) st present) as [h1 s1].
  by destruct present.
Qed.

Lemma owns_clean options st :
  cleaner_owns st -> cleaner_owns (clean L options st).
Proof.
  intros Hown. unfold clean.
  set (st1 := if remove_duplicates options then _ else _).
  assert (cleaner_owns st1) as H1
    by (subst st1; case_match; [by apply owns_remove_duplicates | done]).
  clearbody st1.
  set (st2 := if negb _ then _ else st1).
  assert (cleaner_owns st2) as H2
    by (subst st2; case_match; [by apply owns_handle_missing | done]).
  clearbody st2.
  set (st3 := if trim_whitespace options then _ else st2).
  assert (cleaner_owns st3) as H3
    by (subst st3; case_match; [by apply owns_trim_whitespace | done]).
  clearbody st3.
  set (st4 := match text_case options with Some _ => _ | None => st3 end).
  assert (cleaner_owns st4) as H4.
  { subst st4. repeat case_match; try done.
    by apply owns_standardize_text_case. }
  clearbody st4.
  case_match; [done | by apply owns_parse_dates].
Qed.

End CleanerFrame.

Section CalculatorFrame.
Import CalculationsService.
Context (L : Library) (h : heap).

Local Abbreviation calculator_owns := (CalculationsService.calculator_owns h).

Lemma calculator_owns_init table : calculator_owns (__init__ h table).
Proof.
  unfold calculator_owns, __init__.
  pose proof (made_since_alloc h h (deref h table) (reflexivity _)) as H.
  by destruct (alloc h (deref h table)).
Qed.

Lemma calculator_owns_assign rule vs dt st :
  calculator_owns st -> calculator_owns (assign rule vs dt st).
Proof. intros H. by apply made_since_setitem. Qed.

Lemma calculator_owns_custom rule st :
  calculator_owns st -> calculator_owns (custom_ran L rule st).
Proof. intros H. by apply made_since_insert. Qed.

Lemma calculator_owns_rule rule st st' :
  calculator_owns st -> _apply_rule L rule st = Ok st' -> calculator_owns st'.
Proof.
  intros Hown. unfold _apply_rule.
  destruct (operation rule);
    unfold _apply_sum, _apply_count, _apply_countif, _apply_sumif, _apply_if,
      _apply_custom, Py.bind, try_except;
    intros Hrun; repeat case_match; simplify_eq;
    apply calculator_owns_assign;
    first [done | by apply calculator_owns_custom].
Qed.

Lemma calculator_owns_failure rule st :
  calculator_owns st -> calculator_owns (after_failure L rule st).
Proof.
  intros Hown. unfold after_failure.
  repeat case_match; first [done | by apply calculator_owns_custom].
Qed.

Lemma calculator_owns_rules rules st :
  calculator_owns st -> calculator_owns (apply_rules L rules st).1.
Proof.
  revert st. induction rules as [|rule rules IH]; intros st Hown; [done|].
  cbn [apply_rules].
  destruct (_apply_rule L rule st) as [st'|e] eqn:Hrule;
    [|by apply calculator_owns_failure].
  by eapply IH, calculator_owns_rule.
Qed.

End CalculatorFrame.



Section TextSteps.
Import DataCleaningService.

Lemma same_but_text_refl c : same_but_text c c.
Proof. by left. Qed.

Lemma same_but_text_trans a b c :
  same_but_text a b -> same_but_text b c -> same_but_text a c.
Proof.
  intros [->|[Ha Hb]] [->|[Hb' Hc]]; unfold same_but_text; auto.
Qed.

Lemma same_but_text_null c c' :
  same_but_text c c' -> is_null c' = is_null c.
Proof. intros [->|[Hc Hc']]; [done|]. by destruct c, c'. Qed.

Lemma same_but_text_on_text f c : same_but_text c (on_text f c).
Proof. destruct c; [by left | by left | by right]. Qed.

Lemma same_row_refl (r : list cell) : Forall2 same_but_text r r.
Proof. induction r; constructor; auto using same_but_text_refl. Qed.

Lemma same_rows_refl rs : same_rows_but_text rs rs.
Proof. induction rs; constructor; auto using same_row_refl. Qed.

Lemma same_row_trans (r1 r2 r3 : list cell) :
  Forall2 same_but_text r1 r2 -> Forall2 same_but_text r2 r3 ->
  Forall2 same_but_text r1 r3.
Proof.
  intros H. revert r3. induction H; intros r3 H3; inversion H3; subst;
    constructor; eauto using same_but_text_trans.
Qed.

Lemma same_rows_trans rs1 rs2 rs3 :
  same_rows_but_text rs1 rs2 -> same_rows_but_text rs2 rs3 ->
  same_rows_but_text rs1 rs3.
Proof.
  unfold same_rows_but_text. intros H. revert rs3.
  induction H as [|r1 r2 rs1 rs2 Hr _ IH]; intros rs3 H3;
    inversion H3; subst; constructor.
  - by eapply same_row_trans.
  - by apply IH.
Qed.

Lemma same_row_null (r r' : list cell) :
  Forall2 same_but_text r r' -> row_has_null r' = row_has_null r.
Proof.
  unfold row_has_null. induction 1 as [|c c' r r' Hc _ IH]; [done|].
  simpl. by rewrite (same_but_text_null _ _ Hc), IH.
Qed.

(** Rewriting one position of a row by a text function *)
Lemma same_row_insert f (r : list cell) i :
  Forall2 same_but_text r (<[i := on_text f (nth i r Null)]> r).
Proof.
  revert i. induction r as [|c r IH]; intros i; [constructor|].
  destruct i; simpl; constructor;
    auto using same_but_text_on_text, same_but_text_refl, same_row_refl.
Qed.

Lemma elem_index_of (c : string) l : c ∈ l -> is_Some (index_of c l).
Proof.
  induction 1 as [c l|c x l _ IH]; simpl.
  - rewrite String.eqb_refl. eauto.
  - destruct (String.eqb x c); [eauto|]. destruct IH as [i ->]. eauto.
Qed.

Lemma object_columns_present (L : Library) t c :
  c ∈ object_columns L t -> has_column t c = true.
Proof.
  unfold object_columns, has_column. intros H.
  apply list_elem_of_omap in H as ([i n] & Hin & Hsome).
  destruct (is_object_column (column_at i t) || object_dtype L t n);
    [|discriminate].
  inversion Hsome; subst.
  assert (c ∈ df_columns t) as Hc.
  { apply list_elem_of_lookup_1 in Hin as [j Hj].
    rewrite list_lookup_imap in Hj.
    destruct (df_columns t !! j) as [x|] eqn:Hx; [|discriminate].
    inversion Hj; subst. by eapply list_elem_of_lookup_2. }
  by destruct (elem_index_of _ _ Hc) as [j ->].
Qed.

(** One column rewritten by a text function: same columns, same rows up to
    text. *)
Lemma setitem_on_text f t c :
  has_column t c = true ->
  let t' := setitem t c (apply (on_text f) (series t c)) in
  df_columns t' = df_columns t /\ same_rows_but_text (df_rows t) (df_rows t').
Proof.
  unfold has_column, setitem, series, apply, column_at.
  destruct (index_of c (df_columns t)) as [i|]; [|discriminate].
  intros _. split; [done|]. simpl.
  induction (df_rows t) as [|r rs IH]; simpl; constructor;
    auto using same_row_insert.
Qed.

Lemma apply_to_columns_on_text f cols l (h : heap) :
  Forall (fun c => has_column (deref h l) c = true) cols ->
  let t' := deref (apply_to_columns (on_text f) cols l h) l in
  df_columns t' = df_columns (deref h l)
  /\ same_rows_but_text (df_rows (deref h l)) (df_rows t').
Proof.
  unfold apply_to_columns. revert h.
  induction cols as [|c cols IH]; intros h Hpres.
  - split; [done | apply same_rows_refl].
  - cbn [foldl]. inversion Hpres as [|? ? Hc Hcols]; subst.
    destruct (setitem_on_text f (deref h l) c Hc) as [Hcol Hrows].
    set (h1 := setitem_at h l c _).
    assert (deref h1 l
            = setitem (deref h l) c (apply (on_text f) (series (deref h l) c)))
      as Hh1 by apply deref_insert.
    destruct (IH h1) as [Hcol' Hrows'].
    { rewrite Hh1. unfold has_column in *. by rewrite Hcol. }
    cbv zeta in *. rewrite Hh1 in Hcol', Hrows'. split.
    + by rewrite Hcol'.
    + by eapply same_rows_trans.
Qed.

End TextSteps.

Section DropMissing.
Import DataCleaningService.
Context (L : Library).

Lemma cleaned_init (h : heap) table t :
  h !! table = Some t -> cleaned (__init__ h table) = t.
Proof.
  intros Ht. unfold cleaned, __init__, alloc. cbn [fst snd cleaned_df].
  rewrite (deref_lookup _ _ _ Ht). apply deref_insert.
Qed.

Lemma cleaned_remove_duplicates st :
  cleaned (_remove_duplicates st) = drop_duplicates (cleaned st).
Proof.
  destruct st as [h self]. unfold cleaned, _remove_duplicates, alloc.
  cbv zeta. case_match; cbn [fst snd cleaned_df set_cleaned_df _log_operation];
    apply deref_insert.
Qed.

Lemma cleaned_drop fill st :
  cleaned (_handle_missing_values "drop" fill st) = dropna (cleaned st).
Proof.
  destruct st as [h self]. unfold cleaned, _handle_missing_values, alloc.
  change ("drop" =? "drop")%string with true. cbv iota zeta.
  case_match; cbn [fst snd cleaned_df set_cleaned_df _log_operation];
    apply deref_insert.
Qed.

Lemma cleaned_like_columns f cols rows h self :
  cleaned_like cols rows (h, self) ->
  cleaned_like cols rows
    (apply_to_columns (on_text f) (object_columns L (deref h (cleaned_df self)))
       (cleaned_df self) h, self).
Proof.
  intros [Hcols Hrows]. unfold cleaned_like, cleaned in *. cbn [fst snd] in *.
  destruct (apply_to_columns_on_text f
              (object_columns L (deref h (cleaned_df self)))
              (cleaned_df self) h) as [Hc Hr].
  { apply Forall_forall. intros c Hc. by eapply object_columns_present. }
  cbv zeta in *. split; [by rewrite Hc|]. by eapply same_rows_trans.
Qed.

Lemma cleaned_like_trim cols rows st :
  cleaned_like cols rows st -> cleaned_like cols rows (_trim_whitespace L st).
Proof.
  destruct st as [h self]. intros Hlike. unfold _trim_whitespace. cbv zeta.
  case_match; exact (cleaned_like_columns _ _ _ _ _ Hlike).
Qed.

Lemma cleaned_like_case case cols rows st :
  cleaned_like cols rows st ->
  cleaned_like cols rows (_standardize_text_case L case st).
Proof.
  destruct st as [h self]. intros Hlike. unfold _standardize_text_case.
  cbv zeta.
  set (h2 := if String.eqb case "upper" then _ else _).
  assert (cleaned_like cols rows (h2, self)) as H.
  { subst h2. repeat case_match; try done; by apply cleaned_like_columns. }
  clearbody h2. case_match; exact H.
Qed.

Lemma dropna_no_null t :
  Forall (fun r => row_has_null r = false) (df_rows (dropna t)).
Proof.
  unfold dropna. cbn [df_rows]. apply Forall_forall. intros r Hr.
  by apply list_elem_of_filter in Hr as [Hr _].
Qed.

Lemma same_rows_no_null rs rs' :
  same_rows_but_text rs rs' ->
  Forall (fun r => row_has_null r = false) rs ->
  Forall (fun r => row_has_null r = false) rs'.
Proof.
  induction 1 as [|r r' rs rs' Hr _ IH]; intros Hall; [constructor|].
  inversion Hall; subst. constructor; [|by apply IH].
  by rewrite (same_row_null _ _ Hr).
Qed.

End DropMissing.

(** C6, as the code has it. [clean] with [handle_missing = "drop"] (and no
    date column to parse afterwards): the cleaned table has the columns of the input and no
    missing cell; its rows are, in order and up to the text functions of the
    later steps, the rows of the input (after duplicate removal, when that
    is asked for) that have no missing cell, and exactly those rows when no
    text step is asked for. *)
Theorem drop_leaves_no_missing_cell (L : Library) (h : heap) (table : nat)
    (t : DataFrame) (options : DataCleaningService.CleaningOptions) :
  h !! table = Some t ->
  DataCleaningService.handle_missing options = "drop" ->
  DataCleaningService.date_columns options = [] ->
  let result :=
    DataCleaningService.cleaned
      (DataCleaningService.run_clean L h table options) in
  let kept :=
    dropna (if DataCleaningService.remove_duplicates options
            then drop_duplicates t else t) in
  df_columns result = df_columns t
  /\ Forall (fun r => row_has_null r = false) (df_rows result)
  /\ same_rows_but_text (df_rows kept) (df_rows result)
  /\ (DataCleaningService.remove_duplicates options = false ->
      df_rows kept = filter (fun r => row_has_null r = false) (df_rows t))
  /\ (DataCleaningService.trim_whitespace options = false ->
      DataCleaningService.text_case options = None ->
      result = kept).
Proof.
  intros Ht Hdrop Hdates. cbv zeta.
  unfold DataCleaningService.run_clean, DataCleaningService.clean.
  rewrite Hdrop, Hdates.
  change (negb ("drop" =? "keep")%string) with true. cbv iota.
  set (st0 := DataCleaningService.__init__ h table).
  set (st1 := if DataCleaningService.remove_duplicates options
              then DataCleaningService._remove_duplicates st0 else st0).
  set (st2 := DataCleaningService._handle_missing_values "drop" _ st1).
  set (kept := dropna _).
  assert (DataCleaningService.cleaned st2 = kept) as Hkept.
  { subst st2 kept. rewrite cleaned_drop. f_equal. subst st1.
    destruct (DataCleaningService.remove_duplicates options).
    - rewrite cleaned_remove_duplicates. f_equal. by apply cleaned_init.
    - by apply cleaned_init. }
  assert (df_columns kept = df_columns t) as Hcols
    by (subst kept; by destruct (DataCleaningService.remove_duplicates options)).
  clearbody st2.
  set (st3 := if DataCleaningService.trim_whitespace options then _ else st2).
  set (st4 := match DataCleaningService.text_case options with
              | Some _ => _ | None => st3 end).
  assert (DataCleaningService.cleaned_like (df_columns kept) (df_rows kept) st4) as [Hc Hr].
  { assert (DataCleaningService.cleaned_like (df_columns kept) (df_rows kept) st2) as H2
      by (split; [by rewrite Hkept | rewrite Hkept; apply same_rows_refl]).
    assert (DataCleaningService.cleaned_like (df_columns kept) (df_rows kept) st3) as H3
      by (subst st3; case_match; [by apply cleaned_like_trim | done]).
    subst st4. repeat case_match; try done. by apply cleaned_like_case. }
  split; [by rewrite Hc|]. split.
  { eapply same_rows_no_null; [exact Hr|]. subst kept. apply dropna_no_null. }
  split; [exact Hr|]. split.
  { intros Hrd. subst kept. by rewrite Hrd. }
  intros Htrim Hcase. subst st4 st3. by rewrite Hcase, Htrim.
Qed.

Section KeyOrder.
Import PivotService.

Lemma text_compare_trans (a b c : string) :
  String.compare a b = Lt -> String.compare b c = Lt ->
  String.compare a c = Lt.
Proof.
  intros Hab Hbc.
  apply OrderedTypeEx.String_as_OT.cmp_lt.
  eapply OrderedTypeEx.String_as_OT.lt_trans;
    apply OrderedTypeEx.String_as_OT.cmp_lt; eassumption.
Qed.

Lemma cell_compare_eq a b : cell_compare a b = Eq -> a = b.
Proof.
  destruct a, b; simpl; try discriminate; try done.
  - intros H. apply Z.compare_eq in H. by subst.
  - intros H. apply String.compare_eq_iff in H. by subst.
Qed.

Lemma cell_compare_antisym a b :
  cell_compare b a = CompOpp (cell_compare a b).
Proof.
  destruct a, b; simpl; try done.
  - apply Z.compare_antisym.
  - apply String.compare_antisym.
Qed.

Lemma cell_compare_trans a b c :
  cell_compare a b = Lt -> cell_compare b c = Lt -> cell_compare a c = Lt.
Proof.
  destruct a, b, c; simpl; try discriminate; try done.
  - rewrite !Z.compare_lt_iff. lia.
  - apply text_compare_trans.
Qed.

Lemma key_compare_eq k1 k2 : key_compare k1 k2 = Eq -> k1 = k2.
Proof.
  revert k2. induction k1 as [|a k1 IH]; intros [|b k2]; simpl;
    try discriminate; [done|].
  destruct (cell_compare a b) eqn:Hab; try discriminate.
  intros H. apply cell_compare_eq in Hab. apply IH in H. by subst.
Qed.

Lemma key_compare_antisym k1 k2 :
  key_compare k2 k1 = CompOpp (key_compare k1 k2).
Proof.
  revert k2. induction k1 as [|a k1 IH]; intros [|b k2]; simpl; try done.
  rewrite (cell_compare_antisym a b).
  destruct (cell_compare a b); simpl; auto.
Qed.

Lemma key_lt_trans k1 k2 k3 : key_lt k1 k2 -> key_lt k2 k3 -> key_lt k1 k3.
Proof.
  unfold key_lt. revert k2 k3.
  induction k1 as [|a k1 IH]; intros [|b k2] [|c k3]; simpl;
    try discriminate; try done.
  destruct (cell_compare a b) eqn:Hab; try discriminate.
  - apply cell_compare_eq in Hab. subst b.
    destruct (cell_compare a c); try discriminate; [apply IH | done].
  - intros _. destruct (cell_compare b c) eqn:Hbc; try discriminate.
    + apply cell_compare_eq in Hbc. subst c. by rewrite Hab.
    + by rewrite (cell_compare_trans _ _ _ Hab Hbc).
Qed.

Lemma elem_of_insert_key y k l : y ∈ insert_key k l -> y = k \/ y ∈ l.
Proof.
  induction l as [|x l IH]; simpl.
  - intros H. apply list_elem_of_singleton in H. by left.
  - destruct (key_compare k x).
    + by right.
    + intros H. apply elem_of_cons in H as [->|H]; auto.
    + intros H. apply elem_of_cons in H as [->|H].
      * right. apply elem_of_cons. by left.
      * destruct (IH H) as [->|Hy]; [by left|].
        right. apply elem_of_cons. by right.
Qed.

Lemma insert_key_sorted k l :
  StronglySorted key_lt l -> StronglySorted key_lt (insert_key k l).
Proof.
  induction 1 as [|x l Hl IH Hx]; simpl.
  - repeat constructor.
  - destruct (key_compare k x) eqn:Hk.
    + by constructor.
    + constructor; [by constructor|]. constructor; [exact Hk|].
      eapply Forall_impl; [exact Hx|]. intros y Hy.
      by eapply key_lt_trans.
    + constructor; [exact IH|].
      apply Forall_forall. intros y Hy.
      apply elem_of_insert_key in Hy as [->|Hy].
      * unfold key_lt. by rewrite key_compare_antisym, Hk.
      * rewrite Forall_forall in Hx. by apply Hx.
Qed.

(** Grouping emits the keys in strictly ascending order. *)
Lemma sorted_keys_sorted ks : StronglySorted key_lt (sorted_keys ks).
Proof.
  induction ks as [|k ks IH]; simpl; [constructor|].
  by apply insert_key_sorted.
Qed.

Lemma elem_of_sorted_keys k ks : k ∈ sorted_keys ks -> k ∈ ks.
Proof.
  induction ks as [|x ks IH]; simpl; [done|].
  intros H. apply elem_of_insert_key in H as [->|H];
    apply elem_of_cons; auto.
Qed.

Lemma sublist_sorted (l1 l2 : list (list cell)) :
  l1 `sublist_of` l2 -> StronglySorted key_lt l2 -> StronglySorted key_lt l1.
Proof.
  induction 1 as [|x l1 l2 Hsub IH|x l1 l2 Hsub IH]; intros Hs.
  - constructor.
  - apply StronglySorted_cons in Hs as [Hx Hs].
    apply StronglySorted_cons. split; [|by apply IH].
    apply Forall_forall. intros y Hy. rewrite Forall_forall in Hx.
    apply Hx. by eapply elem_of_sublist.
  - apply StronglySorted_cons in Hs as [_ Hs]. by apply IH.
Qed.

End KeyOrder.

Section PivotRows.
Import PivotService.

Lemma fst_imap_pair {A B} (g : nat -> B) (l : list A) :
  map fst (imap (fun i k => (k, g i)) l) = l.
Proof.
  revert g. induction l as [|x l IH]; intros g; [done|].
  rewrite imap_cons. simpl. f_equal. apply (IH (g ∘ S)).
Qed.

Lemma sublist_map_filter {A B} (f : A -> B) (P : A -> Prop)
    `{!forall x, Decision (P x)} (l : list A) :
  map f (filter P l) `sublist_of` map f l.
Proof.
  induction l as [|x l IH]; [constructor|].
  rewrite filter_cons. destruct (decide (P x)); simpl; by constructor.
Qed.

(** The keys of the pivot rows: groups in ascending order of their key,
    each a key met in the table, and the margins row after them. *)
Lemma pivot_rows_keys P f config data names vs table :
  pivot_rows P f config data names vs = Ok table ->
  exists ks,
    map fst table
    = ks ++ (if margins config then [margin_key config] else [])
    /\ ks `sublist_of`
         sorted_keys
           (map fst (filter (fun kv => row_has_null kv.1 = false) data)).
Proof.
  unfold pivot_rows. cbv zeta.
  set (gkeys := sorted_keys _).
  destruct (map_exc _ names) as [cols|e]; [|discriminate]. cbn [Py.bind].
  set (grouped := imap _ gkeys).
  set (agged := filter _ grouped).
  set (filled := if is_null (fill_value config) then agged else _).
  assert (map fst filled `sublist_of` gkeys) as Hsub.
  { assert (map fst filled = map fst agged) as ->.
    { subst filled. destruct (is_null (fill_value config)); [done|].
      rewrite map_map. by apply map_ext. }
    subst agged grouped.
    etrans; [apply sublist_map_filter|]. by rewrite fst_imap_pair. }
  clearbody filled.
  destruct (margins config).
  - unfold add_margins. case_match; [discriminate|].
    destruct (map_exc _ names) as [grand|e]; [|discriminate].
    cbn [Py.bind]. intros [= <-]. exists (map fst filled).
    split; [|done]. by rewrite map_app.
  - intros [= <-]. exists (map fst filled). split; [|done].
    by rewrite app_nil_r.
Qed.

End PivotRows.

Section Records.
Import PivotService.

Lemma map_exc_ok {A B} (f : A -> exc B) (g : A -> B) (l : list A) :
  Forall (fun x => f x = Ok (g x)) l -> map_exc f l = Ok (map g l).
Proof.
  induction 1 as [|x l Hx _ IH]; [done|]. simpl. by rewrite Hx, IH.
Qed.

Lemma level_names_named pf (names : list string) :
  imap (level_name pf) (map Some names) = names.
Proof.
  change (map Some names) with (Some <$> names). rewrite imap_fmap.
  rewrite (imap_ext _ (const id)); [|done].
  rewrite imap_const. apply list_fmap_id.
Qed.

Lemma insert_levels_ok (names cols : list string) :
  NoDup (names ++ cols) ->
  insert_levels (map (fun n => (n, n)) names) cols = Ok (names ++ cols).
Proof.
  induction names as [|n names IH]; intros Hnd; [done|].
  simpl in *. apply NoDup_cons in Hnd as [Hn Hnd].
  rewrite (IH Hnd). simpl. by rewrite bool_decide_eq_false_2.
Qed.

Lemma filter_zip_absent (c : string) (l : list string) (r : list cell) :
  c ∉ l ->
  filter (fun lc : string * cell => String.eqb lc.1 c = true) (zip l r) = [].
Proof.
  revert r. induction l as [|x l IH]; intros r Hc; [done|].
  destruct r as [|v r]; [done|]. simpl.
  apply not_elem_of_cons in Hc as [Hx Hc].
  rewrite filter_cons_False; [by apply IH|].
  simpl. intros Heq. apply String.eqb_eq in Heq. by subst.
Qed.

(** [row[col]] for a label that occurs once *)
Lemma row_get_unique pre c suf (pre_r : list cell) v suf_r :
  NoDup (pre ++ c :: suf) -> length pre = length pre_r ->
  row_get (pre ++ c :: suf) (pre_r ++ v :: suf_r) c = Ok (Scalar v).
Proof.
  intros Hnd Hlen. unfold row_get.
  rewrite zip_with_app by done. rewrite filter_app.
  apply NoDup_app in Hnd as (_ & Hpre & Hsuf).
  apply NoDup_cons in Hsuf as [Hc _].
  rewrite (filter_zip_absent c pre pre_r).
  - simpl. rewrite filter_cons_True by apply String.eqb_refl.
    by rewrite (filter_zip_absent c suf suf_r).
  - intros Hin. apply (Hpre c Hin). apply elem_of_cons. by left.
Qed.

Lemma dict_set_new c v (l : list string) (r : list cell) :
  c ∉ l -> length l = length r ->
  dict_set c v (zip l r) = zip (l ++ [c]) (r ++ [v]).
Proof.
  revert r. induction l as [|x l IH]; intros [|y r] Hc Hlen;
    simpl in *; try done.
  apply not_elem_of_cons in Hc as [Hx Hc].
  destruct (String.eqb_spec x c) as [->|_]; [done|].
  f_equal. apply IH; [done | lia].
Qed.

(** With distinct labels a record pairs every label with its cell. *)
Lemma to_record_zip (cols : list string) (row : list cell) :
  NoDup cols -> length row = length cols ->
  to_record (fun col => v <- row_get cols row col ;; json_safe v) cols
  = Ok (zip cols row).
Proof.
  intros Hnd Hlen. unfold to_record.
  enough (forall suf suf_r pre pre_r,
            cols = pre ++ suf -> row = pre_r ++ suf_r ->
            length pre = length pre_r -> length suf = length suf_r ->
            foldl (fun acc col =>
                     d <- acc ;;
                     v <- (v <- row_get cols row col ;; json_safe v) ;;
                     Ok (dict_set col v d))
                  (Ok (zip pre pre_r)) suf
            = Ok (zip cols row)) as H
    by (apply (H cols row [] []); auto).
  induction suf as [|c suf IH]; intros suf_r pre pre_r Hc Hr Hl1 Hl2.
  - destruct suf_r; [|done]. rewrite !app_nil_r in *. by subst.
  - destruct suf_r as [|v suf_r]; [done|].
    assert (row_get cols row c = Ok (Scalar v)) as Hget.
    { rewrite Hc, Hr. apply row_get_unique; [by rewrite <- Hc | done]. }
    cbn [foldl Py.bind]. rewrite Hget. cbn [Py.bind json_safe].
    rewrite dict_set_new; [|rewrite Hc in Hnd|done].
    + apply (IH suf_r).
      * by rewrite <- app_assoc.
      * by rewrite <- app_assoc.
      * rewrite !length_app. simpl. lia.
      * simpl in Hl2. lia.
    + apply NoDup_app in Hnd as (_ & Hpre & _).
      intros Hin. apply (Hpre c Hin). apply elem_of_cons. by left.
Qed.

Lemma record_get_zip pre n suf (pre_r : list cell) x suf_r :
  n ∉ pre -> length pre = length pre_r ->
  record_get n (zip (pre ++ n :: suf) (pre_r ++ x :: suf_r)) = x.
Proof.
  revert pre_r. induction pre as [|p pre IH]; intros [|y pre_r] Hn Hlen;
    simpl in *; try done.
  - by rewrite String.eqb_refl.
  - apply not_elem_of_cons in Hn as [Hp Hn].
    destruct (String.eqb_spec p n) as [->|_]; [done|].
    apply IH; [done | lia].
Qed.

(** The cells of a record under the index columns are the key of its row. *)
Lemma record_key_zip config (labels : list string) (k v : list cell) :
  NoDup (index config) -> length k = length (index config) ->
  record_key config (zip (index config ++ labels) (k ++ v)) = k.
Proof.
  unfold record_key. generalize (index config). intros idx Hnd Hlen.
  enough (forall idx' k' pre pre_r,
            NoDup (pre ++ idx') -> length pre = length pre_r ->
            length k' = length idx' ->
            map (fun n => record_get n (zip (pre ++ idx' ++ labels)
                                            (pre_r ++ k' ++ v))) idx'
            = k') as H
    by (apply (H idx k [] []); auto).
  induction idx' as [|n idx' IH]; intros k' pre pre_r Hnd' Hl1 Hl2.
  - by destruct k'.
  - destruct k' as [|x k']; [done|]. simpl. f_equal.
    + apply record_get_zip; [|done].
      apply NoDup_app in Hnd' as (_ & Hpre & _).
      intros Hin. apply (Hpre n Hin). apply elem_of_cons. by left.
    + specialize (IH k' (pre ++ [n]) (pre_r ++ [x])).
      rewrite <- !app_assoc in IH. simpl in IH. apply IH.
      * done.
      * rewrite !length_app. simpl. lia.
      * simpl in Hl2. lia.
Qed.

End Records.

Section PivotOrder.
Import PivotService.

Lemma rows_of_frame (idx labels : list string) (keys values : list (list cell)) :
  Forall (fun k => length k = length idx) keys ->
  Forall (fun v => length v = length labels) values ->
  Forall (fun row => length row = length (idx ++ labels))
         (zip_with app keys values).
Proof.
  intros Hk. revert values. induction Hk as [|k keys Hk _ IH];
    intros values Hv; [constructor|].
  destruct Hv as [|v values Hv Hvs]; [constructor|].
  simpl. constructor; [|by apply IH].
  rewrite !length_app. lia.
Qed.

Lemma record_keys_of_rows config (labels : list string)
    (keys values : list (list cell)) :
  NoDup (index config) ->
  Forall (fun k => length k = length (index config)) keys ->
  length keys = length values ->
  map (record_key config)
      (map (zip (index config ++ labels)) (zip_with app keys values))
  = keys.
Proof.
  intros Hnd Hk. revert values. induction Hk as [|k keys Hk _ IH];
    intros [|v values] Hlen; simpl in *; try done.
  f_equal; [by apply record_key_zip | apply IH; lia].
Qed.

(** The records [_pivot_to_dict] makes of a frame with a plain column axis
    carry, under the index columns, the keys of the frame's rows. *)
Lemma pivot_to_dict_keys P config (labels : list string)
    (keys values : list (list cell)) d :
  NoDup (index config ++ labels) ->
  Forall (fun k => length k = length (index config)) keys ->
  Forall (fun v => length v = length labels) values ->
  length keys = length values ->
  _pivot_to_dict P {| pf_index_names := map Some (index config);
                      pf_index := keys;
                      pf_columns := Index labels;
                      pf_values := values |} = Ok d ->
  map (record_key config) (out_data d) = keys.
Proof.
  intros Hnd Hk Hv Hlen. unfold _pivot_to_dict, reset_index.
  cbn [pf_index_names pf_index pf_columns pf_values].
  rewrite level_names_named, (insert_levels_ok _ _ Hnd). cbn [Py.bind].
  rewrite (map_exc_ok _ (zip (index config ++ labels))).
  - cbn [Py.bind]. intros [= <-]. cbn [out_data].
    apply record_keys_of_rows; [|done|done].
    by apply NoDup_app in Hnd as (? & _).
  - eapply Forall_impl; [by apply rows_of_frame|].
    intros row Hrow. by apply to_record_zip.
Qed.

Lemma insert_name_perm n l : insert_name n l ≡ₚ n :: l.
Proof.
  induction l as [|x l IH]; simpl; [done|].
  destruct (String.leb n x); [done|]. rewrite IH. apply Permutation_swap.
Qed.

Lemma sorted_names_perm l : sorted_names l ≡ₚ l.
Proof.
  induction l as [|x l IH]; simpl; [done|].
  by rewrite insert_name_perm, IH.
Qed.

Lemma map_nth_seq (l : list string) :
  map (fun i => nth i l "") (seq 0 (length l)) = l.
Proof.
  induction l as [|x l IH]; [done|]. simpl. f_equal.
  rewrite <- seq_shift, map_map. exact IH.
Qed.

(** The value columns that stay are distinct and none is an index column. *)
Lemma kept_names_NoDup (idx vs : list string) (keep : nat -> Prop)
    `{!forall i, Decision (keep i)} :
  NoDup (idx ++ vs) ->
  NoDup (idx ++ map (fun i => nth i (sorted_names vs) "")
                    (filter keep (seq 0 (length (sorted_names vs))))).
Proof.
  intros Hnd.
  assert (NoDup (idx ++ sorted_names vs)) as Hnd'
    by (by rewrite sorted_names_perm).
  apply (sublist_NoDup _ _ Hnd').
  apply sublist_app; [reflexivity|].
  pose proof (sublist_map_filter (fun i => nth i (sorted_names vs) "") keep
                (seq 0 (length (sorted_names vs)))) as Hs.
  by rewrite map_nth_seq in Hs.
Qed.

Lemma elem_of_drop_duplicates_rows r rs :
  r ∈ rs -> r ∈ drop_duplicates_rows rs.
Proof.
  induction rs as [|x rs IH]; [done|]. simpl.
  intros H. destruct (decide (r = x)) as [->|Hne].
  - apply elem_of_cons. by left.
  - apply elem_of_cons in H as [->|H]; [done|].
    apply elem_of_cons. right. apply list_elem_of_filter. auto.
Qed.

Lemma absent_nil t cols :
  Forall (fun c => has_column t c = true) cols -> absent t cols = [].
Proof.
  induction 1 as [|c cols Hc _ IH]; [done|]. unfold absent in *.
  rewrite filter_cons_False; [done | by rewrite Hc].
Qed.

(** What a covered configuration is *)
Lemma covered_inv t config f vs :
  covered t config = Some (f, vs) ->
  NoDup (index config ++ vs)
  /\ Forall (fun c => has_column t c = true) (index config ++ vs)
  /\ index config <> []
  /\ values config = Some vs
  /\ default [] (columns config) = [].
Proof.
  unfold covered. intros H.
  assert (default [] (columns config) = [] /\
          exists v vs', values config = Some (v :: vs') /\ vs = v :: vs' /\
            bool_decide (NoDup (df_columns t))
            && bool_decide (NoDup (index config ++ v :: vs'))
            && forallb (has_column t) (index config ++ v :: vs')
            && negb (bool_decide (index config = []))
            && (negb (margins config)
                || bool_decide (f ∈ [agg_sum; agg_count; agg_min; agg_max]))
            = true) as (Hcols & v & vs' & Hvals & -> & Hc).
  { destruct (columns config) as [[|? ?]|], (values config) as [[|v vs']|],
      (aggfunc config); try discriminate;
      (case_match eqn:Hc; [|discriminate]); inversion H; subst; eauto 10. }
  apply andb_true_iff in Hc as [Hc _].
  apply andb_true_iff in Hc as [Hc Hidx].
  apply andb_true_iff in Hc as [Hc Hpres].
  apply andb_true_iff in Hc as [_ Hnd].
  split; [by apply bool_decide_eq_true in Hnd|].
  split.
  { apply Forall_forall. intros c Hin.
    eapply forallb_forall in Hpres; [exact Hpres|]. by apply list_elem_of_In. }
  split; [|done].
  intros Hnil. by rewrite Hnil in Hidx.
Qed.

End PivotOrder.

Section Dots.
Import PivotService.

Lemma string_app_assoc (a b c : string) : (a +:+ b) +:+ c = a +:+ (b +:+ c).
Proof.
  induction a as [|x a IH]; [done|].
  change (String x ((a +:+ b) +:+ c) = String x (a +:+ (b +:+ c))).
  by rewrite IH.
Qed.

Lemma string_app_nil_r (a : string) : a +:+ "" = a.
Proof.
  induction a as [|x a IH]; [done|].
  change (String x (a +:+ "") = String x a). by rewrite IH.
Qed.

Lemma rev_app_spec s1 s2 : String.rev_app s1 s2 = String.rev s1 +:+ s2.
Proof.
  revert s2. induction s1 as [|a s1 IH]; intros s2; [done|].
  change (String.rev (String a s1)) with (String.rev_app s1 (String a "")).
  cbn [String.rev_app].
  rewrite (IH (String a s2)), (IH (String a "")).
  by rewrite string_app_assoc.
Qed.

Lemma rev_cons a s : String.rev (String a s) = String.rev s +:+ String a "".
Proof. unfold String.rev at 1. cbn [String.rev_app]. apply rev_app_spec. Qed.

Lemma rev_app_distr s1 s2 :
  String.rev (s1 +:+ s2) = String.rev s2 +:+ String.rev s1.
Proof.
  induction s1 as [|a s1 IH].
  - change ("" +:+ s2) with s2. change (String.rev "") with "".
    by rewrite string_app_nil_r.
  - change (String a s1 +:+ s2) with (String a (s1 +:+ s2)).
    by rewrite !rev_cons, IH, string_app_assoc.
Qed.

Lemma rev_involutive s : String.rev (String.rev s) = s.
Proof.
  induction s as [|a s IH]; [done|].
  by rewrite rev_cons, rev_app_distr, IH.
Qed.

Lemma has_dot_app s1 s2 : has_dot (s1 +:+ s2) = has_dot s1 || has_dot s2.
Proof.
  induction s1 as [|a s1 IH]; [done|].
  change (String a s1 +:+ s2) with (String a (s1 +:+ s2)).
  cbn [has_dot]. by rewrite IH, orb_assoc.
Qed.

Lemma has_dot_rev s : has_dot (String.rev s) = has_dot s.
Proof.
  induction s as [|a s IH]; [done|].
  rewrite rev_cons, has_dot_app, IH. cbn [has_dot].
  rewrite orb_false_r. apply orb_comm.
Qed.

Lemma rev_dots k : String.rev (dots k) = dots k.
Proof.
  induction k as [|k IH]; [done|]. cbn [dots]. rewrite rev_cons, IH.
  clear. induction k as [|k IH]; [done|]. cbn [dots].
  change (String "." (dots k) +:+ ".") with (String "." (dots k +:+ ".")).
  by rewrite IH.
Qed.

Lemma lstrip_dots_dots k s : lstrip_dots (dots k +:+ s) = lstrip_dots s.
Proof. induction k as [|k IH]; [done|]. exact IH. Qed.

Lemma lstrip_dots_dotless s : has_dot s = false -> lstrip_dots s = s.
Proof.
  destruct s as [|a s]; [done|]. cbn [has_dot lstrip_dots]. intros H.
  apply orb_false_iff in H as [Ha _].
  destruct a as [[] [] [] [] [] [] [] []]; try done.
Qed.

Lemma strip_dots_trailing n k :
  has_dot n = false -> strip_dots (n +:+ dots k) = n.
Proof.
  intros Hn. unfold strip_dots.
  destruct n as [|a n].
  - change ("" +:+ dots k) with (dots k).
    rewrite <- (string_app_nil_r (dots k)), lstrip_dots_dots. done.
  - assert (lstrip_dots (String a n +:+ dots k) = String a n +:+ dots k) as ->.
    { cbn [has_dot] in Hn. apply orb_false_iff in Hn as [Ha _].
      change (String a n +:+ dots k) with (String a (n +:+ dots k)).
      destruct a as [[] [] [] [] [] [] [] []]; try done. }
    rewrite rev_app_distr, rev_dots, lstrip_dots_dots.
    rewrite lstrip_dots_dotless by (by rewrite has_dot_rev).
    apply rev_involutive.
Qed.

Lemma join_empty_levels n k :
  join "." (n :: replicate k "") = n +:+ dots k.
Proof.
  revert n. induction k as [|k IH]; intros n.
  - cbn [replicate join dots]. by rewrite string_app_nil_r.
  - change (replicate (S k) "") with ("" :: replicate k "").
    change (join "." (n :: "" :: replicate k ""))
      with (n +:+ "." +:+ join "." ("" :: replicate k "")).
    rewrite (IH ""). done.
Qed.

End Dots.

Section FrameRecords.
Import PivotService.

Lemma insert_levels_inv {A} `{EqDecision A} (names : list (string * A))
    (cols out : list A) :
  insert_levels names cols = Ok out -> out = map snd names ++ cols.
Proof.
  revert out. induction names as [|[n a] names IH]; intros out; simpl.
  - by intros [= <-].
  - destruct (insert_levels names cols) as [cols'|e]; [|discriminate].
    cbn [Py.bind]. case_bool_decide; [discriminate|].
    intros [= <-]. by rewrite (IH cols' eq_refl).
Qed.

Lemma foldl_raise {A} (step : exc A -> string -> exc A) e cols :
  (forall c, step (Raise e) c = Raise e) ->
  foldl step (Raise e) cols = Raise e.
Proof.
  intros Hstep. induction cols as [|c cols IH]; [done|].
  cbn [foldl]. by rewrite Hstep.
Qed.

Lemma to_record_raise (get : string -> exc cell) c cols e :
  get c = Raise e -> to_record get (c :: cols) = Raise e.
Proof.
  intros Hc. unfold to_record. cbn [foldl Py.bind]. rewrite Hc.
  cbn [Py.bind]. by apply foldl_raise.
Qed.

Lemma to_record_all (get : string -> exc cell) cols rec :
  to_record get cols = Ok rec ->
  forall c, c ∈ cols -> exists v, get c = Ok v.
Proof.
  unfold to_record. generalize (Ok [] : exc (list (string * cell))).
  revert rec. induction cols as [|c cols IH]; intros rec start Hrun c' Hc';
    [by apply elem_of_nil in Hc'|].
  cbn [foldl] in Hrun.
  destruct start as [d|e]; cbn [Py.bind] in Hrun.
  - destruct (get c) as [v|e] eqn:Hget; cbn [Py.bind] in Hrun.
    + apply elem_of_cons in Hc' as [->|Hc']; [by eauto|].
      by eapply IH.
    + by rewrite foldl_raise in Hrun.
  - by rewrite foldl_raise in Hrun.
Qed.

Lemma once_NoDup (l : list string) :
  (forall c, c ∈ l ->
     length (filter (fun x => String.eqb x c = true) l) = 1%nat) ->
  NoDup l.
Proof.
  induction l as [|a l IH]; intros Hone; [constructor|].
  assert (a ∉ l) as Ha.
  { intros Hin. specialize (Hone a ltac:(apply elem_of_cons; by left)).
    rewrite filter_cons_True in Hone by apply String.eqb_refl.
    cbn [length] in Hone.
    assert (a ∈ filter (fun x => String.eqb x a = true) l) as Hf
      by (apply list_elem_of_filter; split;
          [apply String.eqb_refl | done]).
    destruct (filter _ l); [by apply elem_of_nil in Hf | done]. }
  constructor; [done|]. apply IH. intros c Hc.
  specialize (Hone c ltac:(apply elem_of_cons; by right)).
  rewrite filter_cons_False in Hone; [done|].
  intros Heq. apply String.eqb_eq in Heq. by subst.
Qed.

Lemma filter_zip_labels (c : string) (l : list string) (r : list cell) :
  length l = length r ->
  length (filter (fun lc : string * cell => String.eqb lc.1 c = true)
                 (zip l r))
  = length (filter (fun x => String.eqb x c = true) l).
Proof.
  revert r. induction l as [|x l IH]; intros [|v r] Hlen; try done.
  cbn [zip zip_with]. rewrite !filter_cons. cbn [fst].
  destruct (decide (String.eqb x c = true)); cbn [length];
    rewrite IH; auto.
Qed.

(** A row of a frame with a plain column axis whose record is made has its
    labels distinct. *)
Lemma record_made_NoDup (cols : list string) (row : list cell) rec :
  length cols = length row ->
  to_record (fun col => v <- row_get cols row col ;; json_safe v) cols
  = Ok rec ->
  NoDup cols.
Proof.
  intros Hlen Hrec. apply once_NoDup. intros c Hc.
  destruct (to_record_all _ _ _ Hrec c Hc) as [v Hv].
  rewrite <- (filter_zip_labels c cols row Hlen).
  unfold row_get in Hv.
  destruct (filter _ (zip cols row)) as [|lc [|lc' rest]]; try done.
Qed.

End FrameRecords.

(** The configurations whose pivot the model computes itself *)
Lemma covered_pivot_order (P : PivotService.PivotLibrary)
    (t : DataFrame) (config : PivotService.PivotConfig)
    (f : PivotService.AggregationType) (vs : list string)
    (r : PivotService.PivotResult) :
  PivotService.covered t config = Some (f, vs) ->
  PivotService.create_pivot P (PivotService.pivot_table P) t config = Ok r ->
  PivotService.success r = true ->
  exists ks,
    PivotService.emitted_keys config r
    = ks ++ (if PivotService.margins config
             then [PivotService.margin_key config] else [])
    /\ StronglySorted PivotService.key_lt ks
    /\ forall k, k ∈ ks -> k ∈ PivotService.first_occurrence_keys t config.
Proof.
  intros Hcov Hrun Hok.
  destruct (covered_inv _ _ _ _ Hcov) as (Hnd & Hpres & Hidx & Hvals & Hcols).
  apply Forall_app in Hpres as [Hpi Hpv].
  assert (PivotService.missing_columns t config = []) as Hmiss.
  { unfold PivotService.missing_columns. rewrite Hvals, Hcols.
    change (default [] (Some vs)) with vs.
    by rewrite (absent_nil _ _ Hpi), (absent_nil _ _ Hpv). }
  revert Hrun.
  unfold PivotService.create_pivot, PivotService.create_pivot_try.
  rewrite Hmiss.
  unfold PivotService.pivot_table. rewrite Hcov.
  rewrite (getitems_ok _ _ Hpi), (getitems_ok _ _ Hpv). cbn [Py.bind].
  set (keys := map (fun r0 => map (row_cell t r0) (PivotService.index config))
                   (df_rows t)).
  set (vals := map (fun r0 => map (row_cell t r0) vs) (df_rows t)).
  destruct (PivotService.pivot_rows P f config (zip keys vals)
              (PivotService.sorted_names vs) vs) as [table|e] eqn:Hrows;
    cbn [Py.bind try_except];
    [|intros [= <-]; discriminate Hok].
  destruct (PivotService._pivot_to_dict P _) as [d|e] eqn:Hdict;
    cbn [Py.bind try_except];
    [|intros [= <-]; discriminate Hok].
  intros [= <-]. unfold PivotService.emitted_keys.
  cbn [PivotService.data].
  destruct (pivot_rows_keys _ _ _ _ _ _ _ Hrows) as (ks & Hks & Hsub).
  assert (forall k, k ∈ ks ->
            k ∈ filter (fun k => row_has_null k = false) keys) as Hmem.
  { intros k Hk. eapply elem_of_sublist in Hk; [|exact Hsub].
    apply elem_of_sorted_keys in Hk.
    apply list_elem_of_fmap in Hk as ([k' v'] & -> & Hkv).
    apply list_elem_of_filter in Hkv as [Hnull Hkv].
    apply list_elem_of_filter. split; [done|].
    by apply elem_of_zip_l in Hkv. }
  exists ks. split; [|split].
  - rewrite <- Hks. unfold PivotService.pivot_frame in Hdict.
    cbv zeta in Hdict.
    eapply pivot_to_dict_keys; [| | | |exact Hdict].
    + by apply kept_names_NoDup.
    + rewrite Hks. apply Forall_app. split.
      * apply Forall_forall. intros k Hk. apply Hmem in Hk.
        apply list_elem_of_filter in Hk as [_ Hk]. subst keys.
        apply list_elem_of_fmap in Hk as (r0 & -> & _).
        by rewrite length_map.
      * destruct (PivotService.margins config); constructor; [|done].
        unfold PivotService.margin_key. simpl. rewrite length_replicate.
        destruct (PivotService.index config); [done | simpl; lia].
    + apply Forall_forall. intros v Hv.
      apply list_elem_of_fmap in Hv as (kv & -> & _).
      by rewrite !length_map.
    + by rewrite !length_map.
  - eapply sublist_sorted; [exact Hsub | apply sorted_keys_sorted].
  - intros k Hk. unfold PivotService.first_occurrence_keys.
    rewrite (getitems_ok _ _ Hpi). fold keys.
    by apply elem_of_drop_duplicates_rows, Hmem.
Qed.

Section PivotFacts.
Import PivotService.

Lemma absent_none_iff t cols :
  absent t cols = [] <-> Forall (fun n => has_column t n = true) cols.
Proof.
  unfold absent. induction cols as [|c cols IH]; [by split|].
  rewrite filter_cons, Forall_cons. destruct (has_column t c) eqn:Hc.
  - rewrite decide_False by done. rewrite IH. tauto.
  - rewrite decide_True by done. split; [done | by intros [? _]].
Qed.

Lemma missing_columns_nil t config :
  missing_columns t config = []
  <-> Forall (fun n => has_column t n = true)
             (index config ++ default [] (columns config)
                           ++ default [] (values config)).
Proof.
  unfold missing_columns. rewrite !Forall_app, <- !absent_none_iff.
  split.
  - intros H. apply app_eq_nil in H as [H1 H]. apply app_eq_nil in H as [H2 H3].
    by apply map_eq_nil in H1, H2, H3.
  - by intros (-> & -> & ->).
Qed.

End PivotFacts.

Section GroupedPivot.
Import PivotService.

Lemma plain_frame_keys P config (labels : list string)
    (keys values : list (list cell)) d :
  Forall (fun k => length k = length (index config)) keys ->
  Forall (fun v => length v = length labels) values ->
  length keys = length values ->
  _pivot_to_dict P {| pf_index_names := map Some (index config);
                      pf_index := keys;
                      pf_columns := Index labels;
                      pf_values := values |} = Ok d ->
  map (record_key config) (out_data d) = keys.
Proof.
  intros Hk Hv Hlen Hdict.
  destruct keys as [|k keys].
  - revert Hdict. unfold _pivot_to_dict, reset_index.
    cbn [pf_index_names pf_index pf_columns pf_values zip_with].
    destruct (insert_levels _ labels) as [cols|e]; [|discriminate].
    cbn [Py.bind map_exc]. by intros [= <-].
  - destruct values as [|v values]; [done|].
    eapply pivot_to_dict_keys; [|exact Hk|exact Hv|exact Hlen|exact Hdict].
    revert Hdict. unfold _pivot_to_dict, reset_index.
    cbn [pf_index_names pf_index pf_columns pf_values zip_with].
    rewrite level_names_named.
    destruct (insert_levels _ labels) as [cols|e] eqn:Hins; [|discriminate].
    apply insert_levels_inv in Hins. rewrite map_map in Hins.
    cbn [snd] in Hins. rewrite map_id in Hins. subst cols.
    cbn [Py.bind map_exc].
    destruct (to_record _ (index config ++ labels)) as [rec|e] eqn:Hrec;
      [|discriminate].
    intros _. eapply record_made_NoDup; [|exact Hrec].
    apply Forall_cons in Hk as [Hk _]. apply Forall_cons in Hv as [Hv _].
    rewrite !length_app. lia.
Qed.

(** A frame whose columns are labelled by tuples gives no record: the
    lookup of the first index column raises in its first row. *)
Lemma multi_frame_emits_nothing P (names : list string) second further
    (labels keys values : list (list cell)) d :
  names <> [] ->
  Forall (fun n => has_dot n = false) names ->
  length keys = length values ->
  _pivot_to_dict P {| pf_index_names := map Some names;
                      pf_index := keys;
                      pf_columns := MultiIndex (None :: second :: further)
                                               labels;
                      pf_values := values |} = Ok d ->
  out_data d = [].
Proof.
  intros Hnames Hdots Hlen. unfold _pivot_to_dict, reset_index.
  cbn [pf_index_names pf_index pf_columns pf_values].
  rewrite level_names_named.
  destruct (insert_levels _ labels) as [cols|e] eqn:Hins; [|discriminate].
  apply insert_levels_inv in Hins. rewrite map_map in Hins.
  cbn [snd] in Hins. subst cols. cbn [Py.bind].
  destruct keys as [|k keys], values as [|v values]; try done.
  - cbn [zip_with map_exc Py.bind]. by intros [= <-].
  - destruct names as [|n names]; [done|].
    apply Forall_cons in Hdots as [Hn _].
    cbn [zip_with map_exc map app length Nat.sub].
    rewrite to_record_raise with (e := multi_row_error P
      ((Str n :: replicate (S (length further) - 0) (Str ""))
       :: map (fun n0 => Str n0 :: replicate (S (length further) - 0) (Str ""))
              names ++ labels)
      n); [done|].
    cbn [map level_str]. rewrite fmap_replicate. cbn [level_str].
    rewrite join_empty_levels, (strip_dots_trailing _ _ Hn).
    unfold multi_row_get. by rewrite Hn.
Qed.

End GroupedPivot.

Section GroupedOrder.
Import PivotService.

Lemma margin_key_length config :
  index config <> [] -> length (margin_key config) = length (index config).
Proof.
  intros Hidx. unfold margin_key. cbn [length]. rewrite length_replicate.
  destruct (index config); [done | simpl; lia].
Qed.

(** The rows of a pivot that the model does not compute itself *)
Lemma grouped_pivot_rows P t config pf :
  index config <> [] ->
  Forall (fun c => has_column t c = true) (index config) ->
  grouped_pivot P t config = Ok pf ->
  exists ks m n,
    pf_index_names pf = map Some (index config)
    /\ pf_index pf = ks ++ m
    /\ StronglySorted key_lt ks
    /\ (forall k, k ∈ ks -> k ∈ first_occurrence_keys t config)
    /\ Forall (fun k => length k = length (index config)) (ks ++ m)
    /\ Forall (fun v => length v = n) (pf_values pf)
    /\ length (pf_index pf) = length (pf_values pf)
    /\ (if cross_tab config
        then exists second further labels,
               pf_columns pf = MultiIndex (None :: second :: further) labels
        else exists labels,
               pf_columns pf = Index labels /\ n = length labels
               /\ m = if margins config then [margin_key config] else []).
Proof.
  intros Hidx Hpres. unfold grouped_pivot.
  rewrite (getitems_ok _ _ Hpres). cbn [Py.bind].
  set (keys := map (fun r0 => map (row_cell t r0) (index config)) (df_rows t)).
  set (gkeys := sorted_keys (filter (fun k => row_has_null k = false) keys)).
  set (kept := filter (fun k => pivot_keeps P t config k = true) gkeys).
  assert (StronglySorted key_lt kept) as Hsorted.
  { eapply sublist_sorted; [apply sublist_filter | apply sorted_keys_sorted]. }
  assert (forall k, k ∈ kept ->
            k ∈ filter (fun k => row_has_null k = false) keys) as Hmem.
  { intros k Hk. apply list_elem_of_filter in Hk as [_ Hk].
    by apply elem_of_sorted_keys in Hk. }
  assert (forall k, k ∈ kept -> k ∈ first_occurrence_keys t config) as Hfirst.
  { intros k Hk. unfold first_occurrence_keys.
    rewrite (getitems_ok _ _ Hpres). fold keys.
    by apply elem_of_drop_duplicates_rows, Hmem. }
  assert (Forall (fun k => length k = length (index config)) kept) as Hlen.
  { apply Forall_forall. intros k Hk. apply Hmem in Hk.
    apply list_elem_of_filter in Hk as [_ Hk]. subst keys.
    apply list_elem_of_fmap in Hk as (r0 & -> & _). by rewrite length_map. }
  assert (forall m : list (list cell),
            m = [] \/ m = [margin_key config] ->
            Forall (fun k => length k = length (index config)) (kept ++ m))
    as Hlens.
  { intros m [->| ->]; [by rewrite app_nil_r|].
    apply Forall_app. split; [done|]. constructor; [|done].
    by apply margin_key_length. }
  assert (forall (ks : list (list cell)) n,
            Forall (fun v : list cell => length v = n)
                   (map (fun k => map (pivot_cell P t config k) (seq 0 n)) ks))
    as Hwidth.
  { intros ks n. apply Forall_forall. intros v Hv.
    apply list_elem_of_fmap in Hv as (k & -> & _).
    by rewrite length_map, length_seq. }
  destruct (cross_tab config).
  - destruct (pivot_levels P t config) as [[[second further] labels]|e];
      [|discriminate].
    cbn [Py.bind]. intros [= <-].
    cbn [pf_index_names pf_index pf_columns pf_values].
    exists kept,
      (if margins config && pivot_margins_row P t config
       then [margin_key config] else []), (length labels).
    split; [done|].
    split; [by destruct (margins config && pivot_margins_row P t config);
              rewrite ?app_nil_r|].
    split; [done|]. split; [done|].
    split; [apply Hlens;
            destruct (margins config && pivot_margins_row P t config); auto|].
    split; [apply Hwidth|]. split; [by rewrite length_map | eauto].
  - destruct (pivot_labels P t config) as [labels|e]; [|discriminate].
    cbn [Py.bind]. intros [= <-].
    cbn [pf_index_names pf_index pf_columns pf_values].
    exists kept, (if margins config then [margin_key config] else []),
      (length labels).
    split; [done|].
    split; [by destruct (margins config); rewrite ?app_nil_r|].
    split; [done|]. split; [done|].
    split; [apply Hlens; destruct (margins config); auto|].
    split; [apply Hwidth|]. split; [by rewrite length_map | eauto].
Qed.

End GroupedOrder.



(** A table without columns never reaches the aggregation: the validation
    reports the columns it lacks. *)
Example empty_table_is_reported :
  PivotExamples.run {| df_columns := []; df_rows := [] |}
    (PivotExamples.by_cat false)
  = Ok {| PivotService.success := false;
          PivotService.data := None;
          PivotService.config := PivotExamples.by_cat false;
          PivotService.error := Some "Column validation failed";
          PivotService.message :=
            Some "Index column not found: cat, Value column not found: val" |}.
Proof. reflexivity. Qed.



Lemma drop_witness :
  let result :=
    DataCleaningService.cleaned
      (DataCleaningService.run_clean plain_library
         {[ 0%nat := CleaningExamples.gaps_table ]} 0%nat
         (CleaningExamples.options "drop" Null)) in
  df_columns result = ["id"; "city"]
  /\ Forall (fun r => row_has_null r = false) (df_rows result).
Proof.
  pose proof (drop_leaves_no_missing_cell plain_library
                {[ 0%nat := CleaningExamples.gaps_table ]} 0%nat
                CleaningExamples.gaps_table
                (CleaningExamples.options "drop" Null)
                eq_refl eq_refl eq_refl) as (Hcols & Hnull & _).
  split; [exact Hcols | exact Hnull].
Defined.

(** C6, as the claim states it, fails. The table whose rows are
    [{id: 1, city: Oslo}, {id: 2, city: Rome}, {id: 1, city: Oslo}] has no
    missing cell; cleaned with [handle_missing = "drop"], duplicate removal
    and [city] as a date column, it loses its third row, which has no
    missing cell, and every row that is left has a missing cell: date
    parsing runs after the drop and the names of towns are no dates. *)
Lemma drop_then_parse_counterexample :
  let result :=
    DataCleaningService.cleaned
      (DataCleaningService.run_clean coercing_library
         {[ 0%nat := CleaningExamples.repeats_table ]} 0%nat
         CleaningExamples.drop_and_parse) in
  Forall (fun r => row_has_null r = false)
         (df_rows CleaningExamples.repeats_table)
  /\ df_rows result = [[Num 1; Null]; [Num 2; Null]]
  /\ Forall (fun r => row_has_null r = true) (df_rows result)
  /\ (length (df_rows result) < length (df_rows CleaningExamples.repeats_table))%nat.
Proof.
  cbv zeta. split; [repeat constructor|].
  assert (df_rows
            (DataCleaningService.cleaned
               (DataCleaningService.run_clean coercing_library
                  {[ 0%nat := CleaningExamples.repeats_table ]} 0%nat
                  CleaningExamples.drop_and_parse))
          = [[Num 1; Null]; [Num 2; Null]]) as ->
    by (vm_compute; reflexivity).
  split; [done|]. split; [repeat constructor | simpl; lia].
Qed.

(** * Further properties of the services *)

Section SingleRule.
Import CalculationsService.
Context (L : Library).

Lemma setitem_columns t n vs :
  df_columns (setitem t n vs)
  = if has_column t n then df_columns t else df_columns t ++ [n].
Proof.
  unfold setitem, has_column. by destruct (index_of n (df_columns t)).
Qed.

Lemma getitem_series t c :
  has_column t c = true -> getitem t c = Ok (series t c).
Proof.
  unfold has_column, getitem, column_index, series.
  by destruct (index_of c (df_columns t)).
Qed.

Lemma series_length t c :
  has_column t c = true -> length (series t c) = nrows t.
Proof.
  unfold has_column, series, column_at, nrows.
  destruct (index_of c (df_columns t)); [|discriminate].
  intros _. apply length_map.
Qed.

Lemma series_cells t c :
  has_column t c = true ->
  series t c = map (fun r => row_cell t r c) (df_rows t).
Proof.
  intros H. destruct (has_column_index t c H) as [i Hi].
  by apply series_column with i.
Qed.

(** A call with one rule that assigns [vals]: the result is a success and
    its table is the caller's table with the column assigned. *)
Lemma single_rule_result (h : heap) table t rule vals dt :
  h !! table = Some t ->
  (forall st, deref st.1 (df st.2) = t ->
              _apply_rule L rule st = Ok (assign rule vals dt st)) ->
  let out := run_calculations L h table [rule] in
  success out.2 = true
  /\ exists l, result_df out.2 = Some l
               /\ deref out.1.1 l = setitem t (name rule) vals.
Proof.
  intros Ht Hrule. cbv zeta.
  unfold run_calculations, apply_calculations, __init__, alloc.
  rewrite (deref_lookup _ _ _ Ht). cbn [apply_rules].
  set (l := fresh (dom h)).
  rewrite Hrule by apply deref_insert.
  cbn. split; [done|]. eexists. split; [done|].
  change (<[l := t]> h !!! l) with (deref (<[l := t]> h) l).
  by rewrite !deref_insert.
Qed.

(** A comparison of a numeric column with a number goes cell by cell. *)
Lemma parse_numeric_condition t column op b cond :
  has_column t column = true ->
  is_object_column (series t column) = false ->
  dict_get "operator" cond = Some (Scalar (Str (Conditions.symbol op))) ->
  dict_get "value" cond = Some (Scalar (Num b)) ->
  _parse_condition L t column cond
  = Ok (map (Conditions.meets op b) (series t column)).
Proof.
  intros Hcol Hnum Hop Hval. unfold _parse_condition.
  rewrite Hop, Hval, (getitem_series _ _ Hcol).
  assert (series_compare L op (series t column) (Scalar (Num b))
          = Ok (map (Conditions.meets op b) (series t column))) as Hcmp.
  { unfold series_compare. rewrite Hnum. cbn [negb is_str andb].
    apply map_exc_ok. apply Forall_forall. intros c Hc.
    destruct c as [|a|s]; try done.
    exfalso. apply not_true_iff_false in Hnum. apply Hnum.
    apply existsb_exists. exists (Str s). split; [|done].
    by apply list_elem_of_In. }
  unfold is_op.
  destruct op; cbn [Conditions.symbol];
    repeat (rewrite bool_decide_eq_false_2 by discriminate);
    rewrite bool_decide_eq_true_2 by done;
    cbn [Py.bind]; exact Hcmp.
Qed.

End SingleRule.

Section RuleResults.
Import CalculationsService.
Context (L : Library).

Lemma apply_count_ok rule st t :
  deref st.1 (df st.2) = t ->
  Forall (fun c => has_column t c = true) (columns rule) ->
  _apply_count rule st
  = Ok (assign rule
          (count_axis1 (map (fun r => map (row_cell t r) (columns rule))
                            (df_rows t)))
          ("Count of non-null values in columns: " +:+
           join ", " (columns rule)) st).
Proof.
  intros Ht Hpres. unfold _apply_count. rewrite Ht.
  rewrite (validate_present _ _ Hpres). cbn [Py.bind].
  by rewrite (getitems_ok _ _ Hpres).
Qed.

Lemma condition_given cond op v :
  dict_get "operator" cond = Some op -> dict_get "value" cond = Some v ->
  no_condition (Some cond) = false.
Proof. by destruct cond. Qed.

Lemma where_series_rows t p v (test : cell -> bool) :
  has_column t p = true -> has_column t v = true ->
  where_series (map test (series t p)) (series t v) (Num 0)
  = map (fun r => if test (row_cell t r p) then row_cell t r v else Num 0)
        (df_rows t).
Proof.
  intros Hp Hv. unfold where_series.
  rewrite (series_cells _ _ Hp), (series_cells _ _ Hv).
  rewrite map_map.
  change (map ?f ?l) with (f <$> l).
  rewrite zip_with_fmap_l, zip_with_fmap_r. by rewrite zip_with_diag.
Qed.

End RuleResults.

(** X1. A COUNT rule over columns the table has gives a result table whose
    new column holds, row by row, the number of cells under the source
    columns that are not missing, whatever the cells hold. *)
Theorem count_rule_counts_present_cells (L : Library) (h : heap)
    (table : nat) (t : DataFrame)
    (rule : CalculationsService.CalculationRule) :
  h !! table = Some t ->
  well_formed t ->
  CalculationsService.operation rule = CalculationsService.COUNT ->
  Forall (fun c => has_column t c = true)
         (CalculationsService.columns rule) ->
  let out := CalculationsService.run_calculations L h table [rule] in
  CalculationsService.success out.2 = true
  /\ exists l,
       CalculationsService.result_df out.2 = Some l
       /\ series (deref out.1.1 l) (CalculationsService.name rule)
          = map (fun r =>
                   Num (Z.of_nat
                          (length
                             (filter (fun c => is_null c = false)
                                     (map (row_cell t r)
                                          (CalculationsService.columns rule))))))
                (df_rows t).
Proof.
  intros Ht Hwf Hop Hpres.
  destruct (single_rule_result L h table t rule
              (count_axis1 (map (fun r => map (row_cell t r)
                                             (CalculationsService.columns rule))
                                (df_rows t)))
              ("Count of non-null values in columns: " +:+
               join ", " (CalculationsService.columns rule)) Ht)
    as (Hok & l & Hl & Hframe).
  { intros st Hst. unfold CalculationsService._apply_rule. rewrite Hop.
    by apply apply_count_ok. }
  split; [exact Hok|]. exists l. split; [exact Hl|].
  rewrite Hframe, series_setitem; [|done|].
  - unfold count_axis1. by rewrite map_map.
  - unfold count_axis1, nrows. by rewrite !length_map.
Qed.

Lemma count_rule_witness :
  let out := CalculationsService.run_calculations plain_library
               {[ 0%nat := Examples.ab_table ]} 0%nat [Examples.count_rule] in
  CalculationsService.success out.2 = true
  /\ exists l,
       CalculationsService.result_df out.2 = Some l
       /\ series (deref out.1.1 l) "filled" = [Num 2; Num 1].
Proof.
  apply (count_rule_counts_present_cells plain_library
           {[ 0%nat := Examples.ab_table ]} 0%nat Examples.ab_table
           Examples.count_rule).
  - reflexivity.
  - split; [apply (bool_decide_unpack _); vm_compute; exact I|].
    repeat constructor.
  - reflexivity.
  - repeat constructor.
Defined.





Section RuleEffect.
Import CalculationsService.
Context (L : Library).

(** Every rule of a built-in operation that goes through does one thing to
    the calculator's frame, its assignment. *)
Lemma apply_rule_assigns rule st st' :
  operation rule <> CUSTOM ->
  _apply_rule L rule st = Ok st' ->
  exists vals dt, st' = assign rule vals dt st.
Proof.
  unfold _apply_rule. intros Hop.
  destruct (operation rule); [| | | | |done];
    unfold _apply_sum, _apply_count, _apply_countif, _apply_sumif, _apply_if,
      Py.bind, try_except;
    intros Hrun; repeat case_match; simplify_eq; eauto.
Qed.

(** Whatever its operation, a rule that goes through adds its entry to the
    log and leaves the rest of the calculator's fields. *)
Lemma apply_rule_logs rule st st' :
  _apply_rule L rule st = Ok st' ->
  exists dt, st'.2 = _log_operation rule dt st.2.
Proof.
  unfold _apply_rule.
  destruct (operation rule);
    unfold _apply_sum, _apply_count, _apply_countif, _apply_sumif, _apply_if,
      _apply_custom, Py.bind, try_except;
    intros Hrun; repeat case_match; simplify_eq; eauto.
Qed.

Lemma after_failure_fields rule st : (after_failure L rule st).2 = st.2.
Proof. unfold after_failure. by repeat case_match. Qed.

(** A rule of a built-in operation that raises has not reached its
    assignment. *)
Lemma after_failure_builtin rule st :
  operation rule <> CUSTOM -> after_failure L rule st = st.
Proof. unfold after_failure. by destruct (operation rule). Qed.

Lemma has_column_elem t n : n ∈ df_columns t -> has_column t n = true.
Proof.
  intros H. unfold has_column. by destruct (elem_index_of _ _ H) as [i ->].
Qed.

Lemma index_of_elem (c : string) l i : index_of c l = Some i -> c ∈ l.
Proof.
  revert i. induction l as [|x l IH]; intros i Hi; simpl in *;
    [discriminate|].
  destruct (String.eqb_spec x c) as [->|_]; [apply elem_of_cons; by left|].
  destruct (index_of c l) as [j|]; [|discriminate].
  apply elem_of_cons. right. by eapply IH.
Qed.

Lemma elem_has_column t n : has_column t n = true -> n ∈ df_columns t.
Proof.
  intros H. destruct (has_column_index _ _ H) as [i Hi].
  by eapply index_of_elem.
Qed.

End RuleEffect.



(** X5. On success [columns_added] names exactly the columns of the result
    table that the caller's table did not have, each once: a rule that
    overwrites a column of the caller's table is not reported. *)
Theorem columns_added_are_the_new_names (L : Library) (h : heap)
    (table : nat) (t : DataFrame)
    (rules : list CalculationsService.CalculationRule) :
  h !! table = Some t ->
  let out := CalculationsService.run_calculations L h table rules in
  CalculationsService.success out.2 = true ->
  NoDup (CalculationsService.columns_added out.2)
  /\ forall n,
       n ∈ CalculationsService.columns_added out.2
       <-> n ∈ df_columns (deref out.1.1 (CalculationsService.df out.1.2))
           /\ n ∉ df_columns t.
Proof.
  intros Ht. cbv zeta.
  unfold CalculationsService.run_calculations,
    CalculationsService.apply_calculations.
  assert (forall st,
            CalculationsService.original_columns
              (CalculationsService.apply_rules L rules st).1.2
            = CalculationsService.original_columns st.2) as Horig.
  { induction rules as [|rule rules' IH]; intros st; [done|].
    cbn [CalculationsService.apply_rules].
    destruct (CalculationsService._apply_rule L rule st) as [st1|e] eqn:Hr;
      [|by cbn [fst]; rewrite after_failure_fields].
    rewrite IH.
    by destruct (apply_rule_logs L rule st st1 Hr) as (dt & ->). }
  specialize (Horig (CalculationsService.__init__ h table)).
  destruct (CalculationsService.apply_rules L rules
              (CalculationsService.__init__ h table)) as [st' [[]|e]];
    cbn [fst snd CalculationsService.success
         CalculationsService.columns_added]; [|discriminate].
  intros _. unfold CalculationsService.new_columns. cbn [fst snd] in *.
  rewrite Horig. unfold CalculationsService.__init__, alloc. cbn.
  change (h !!! table) with (deref h table).
  rewrite (deref_lookup _ _ _ Ht). split.
  - apply NoDup_elements.
  - intros n. rewrite elem_of_elements, elem_of_difference.
    by rewrite !elem_of_list_to_set.
Qed.

Lemma columns_added_witness :
  let out := CalculationsService.run_calculations plain_library
               {[ 0%nat := Examples.ab_table ]} 0%nat
               [Examples.sum_rule;
                Examples.rule "a" CalculationsService.COUNT ["b"] None] in
  "a" ∈ CalculationsService.columns_added out.2
  <-> "a" ∈ df_columns (deref out.1.1 (CalculationsService.df out.1.2))
      /\ "a" ∉ df_columns Examples.ab_table.
Proof.
  exact (proj2 (columns_added_are_the_new_names plain_library
                  {[ 0%nat := Examples.ab_table ]} 0%nat Examples.ab_table
                  [Examples.sum_rule;
                   Examples.rule "a" CalculationsService.COUNT ["b"] None]
                  eq_refl eq_refl) "a").
Defined.

Lemma filter_all {A} (P : A -> Prop) `{!forall x, Decision (P x)}
    (l : list A) :
  Forall P l -> filter P l = l.
Proof.
  induction 1 as [|x l Hx _ IH]; [done|].
  by rewrite filter_cons_True, IH.
Qed.

Section Duplicates.
Import DataCleaningService.

Lemma filter_filter_seen (r : list cell) seen (l : list (list cell)) :
  filter (fun x => x ∉ seen) (filter (fun x => x <> r) l)
  = filter (fun x => x ∉ r :: seen) l.
Proof.
  induction l as [|x l IH]; [done|].
  rewrite (filter_cons (fun x => x <> r)).
  destruct (decide (x <> r)) as [Hne|Heq].
  - rewrite !filter_cons, IH.
    destruct (decide (x ∉ seen)) as [Hs|Hs].
    + rewrite decide_True; [done|]. by apply not_elem_of_cons.
    + rewrite decide_False; [done|].
      intros Hx. by apply not_elem_of_cons in Hx as [_ ?].
  - rewrite filter_cons, decide_False, IH; [done|].
    intros Hx. apply not_elem_of_cons in Hx as [? _]. done.
Qed.

Lemma unmarked_from seen rs :
  DataValidator.unmarked rs (DataValidator.duplicated_from seen rs)
  = filter (fun x => x ∉ seen) (drop_duplicates_rows rs).
Proof.
  revert seen. induction rs as [|r rs IH]; intros seen; [done|].
  unfold DataValidator.unmarked in *. simpl.
  rewrite !filter_cons. simpl. rewrite filter_filter_seen.
  destruct (decide (r ∈ seen)) as [Hin|Hout].
  - rewrite bool_decide_eq_true_2 by done.
    rewrite decide_False by done. rewrite decide_False by auto.
    apply IH.
  - rewrite bool_decide_eq_false_2 by done.
    rewrite decide_True by done. rewrite decide_True by done.
    simpl. f_equal. apply IH.
Qed.

(** The rows that stay are the rows no equal row precedes. *)
Lemma drop_duplicates_unmarked rs :
  drop_duplicates_rows rs
  = DataValidator.unmarked rs (DataValidator.duplicated rs).
Proof.
  unfold DataValidator.duplicated. rewrite unmarked_from.
  symmetry. apply filter_all. apply Forall_forall. intros x _.
  apply not_elem_of_nil.
Qed.

Lemma drop_duplicates_rows_sublist rs :
  drop_duplicates_rows rs `sublist_of` rs.
Proof.
  induction rs as [|r rs IH]; [done|]. simpl. constructor.
  etrans; [apply sublist_filter | exact IH].
Qed.

Lemma drop_duplicates_rows_NoDup rs : NoDup (drop_duplicates_rows rs).
Proof.
  induction rs as [|r rs IH]; simpl; [constructor|].
  apply NoDup_cons. split; [|by apply NoDup_filter].
  intros Hin. apply list_elem_of_filter in Hin. destruct Hin as [Hne _].
  by apply Hne.
Qed.

Lemma drop_duplicates_rows_id rs :
  NoDup rs -> drop_duplicates_rows rs = rs.
Proof.
  induction 1 as [|r rs Hr _ IH]; [done|]. simpl. rewrite IH. f_equal.
  apply filter_all. apply Forall_forall. intros x Hx ->. done.
Qed.

End Duplicates.

(** X6. [_remove_duplicates] keeps, in their order, the rows that no equal
    row precedes (the rows [df.duplicated()] does not mark): no row of the
    result occurs twice, every row of the input still occurs, the columns
    stay, and one entry with the number of removed rows is logged when that
    number is not zero. *)
Theorem remove_duplicates_keeps_first_occurrences
    (st : heap * DataCleaningService.DataCleaner) :
  df_columns (DataCleaningService.cleaned st) <> [] ->
  let rows := df_rows (DataCleaningService.cleaned st) in
  let st' := DataCleaningService._remove_duplicates st in
  let rows' := df_rows (DataCleaningService.cleaned st') in
  rows' = DataValidator.unmarked rows (DataValidator.duplicated rows)
  /\ NoDup rows'
  /\ (forall r, r ∈ rows <-> r ∈ rows')
  /\ df_columns (DataCleaningService.cleaned st')
     = df_columns (DataCleaningService.cleaned st)
  /\ DataCleaningService.applied_operations st'.2
     = DataCleaningService.applied_operations st.2
       ++ (if (0 <? length rows - length rows')%nat
           then [{| DataCleaningService.operation := "remove_duplicates";
                    DataCleaningService.details :=
                      [("rows_removed",
                        Scalar (Num (Z.of_nat (length rows - length rows'))))]
                 |}]
           else []).
Proof.
  intros _. cbv zeta. rewrite cleaned_remove_duplicates.
  unfold drop_duplicates at 1 2 3 4 5. cbn [df_rows df_columns].
  split; [apply drop_duplicates_unmarked|].
  split; [apply drop_duplicates_rows_NoDup|].
  split.
  { intros r. split; [apply elem_of_drop_duplicates_rows|].
    intros Hr. eapply elem_of_sublist; [exact Hr|].
    apply drop_duplicates_rows_sublist. }
  split; [done|].
  destruct st as [h self].
  unfold DataCleaningService._remove_duplicates, alloc,
    DataCleaningService.cleaned. cbv zeta. cbn [fst snd].
  rewrite deref_insert. unfold nrows, drop_duplicates. cbn [df_rows].
  case_match; cbn [snd DataCleaningService.applied_operations
                   DataCleaningService._log_operation
                   DataCleaningService.set_cleaned_df];
    [done | by rewrite app_nil_r].
Qed.

Lemma remove_duplicates_witness :
  let st := DataCleaningService.__init__
              {[ 0%nat := CleaningExamples.repeats_table ]} 0%nat in
  df_rows (DataCleaningService.cleaned
             (DataCleaningService._remove_duplicates st))
  = [[Num 1; Str "Oslo"]; [Num 2; Str "Rome"]].
Proof.
  cbv zeta.
  assert (df_columns
            (DataCleaningService.cleaned
               (DataCleaningService.__init__
                  {[ 0%nat := CleaningExamples.repeats_table ]} 0%nat))
          <> []) as Hcols
    by (intros H; vm_compute in H; discriminate H).
  rewrite (proj1 (remove_duplicates_keeps_first_occurrences _ Hcols)).
  vm_compute. reflexivity.
Defined.

(** X7. Removing duplicates twice gives what removing them once gives, and
    the second pass logs nothing. *)
Theorem remove_duplicates_twice
    (st : heap * DataCleaningService.DataCleaner) :
  df_columns (DataCleaningService.cleaned st) <> [] ->
  let once := DataCleaningService._remove_duplicates st in
  let twice := DataCleaningService._remove_duplicates once in
  DataCleaningService.cleaned twice = DataCleaningService.cleaned once
  /\ DataCleaningService.applied_operations twice.2
     = DataCleaningService.applied_operations once.2.
Proof.
  intros Hcols. cbv zeta.
  set (once := DataCleaningService._remove_duplicates st).
  assert (drop_duplicates (DataCleaningService.cleaned once)
          = DataCleaningService.cleaned once) as Hid.
  { subst once. rewrite cleaned_remove_duplicates.
    unfold drop_duplicates. cbn [df_rows df_columns]. f_equal.
    apply drop_duplicates_rows_id, drop_duplicates_rows_NoDup. }
  split; [by rewrite cleaned_remove_duplicates|].
  destruct (remove_duplicates_keeps_first_occurrences once)
    as (_ & _ & _ & _ & Hlog).
  { subst once. by rewrite cleaned_remove_duplicates. }
  cbv zeta in Hlog. rewrite Hlog, cleaned_remove_duplicates, Hid.
  rewrite Nat.sub_diag. by rewrite app_nil_r.
Qed.

Lemma remove_duplicates_twice_witness :
  let once := DataCleaningService._remove_duplicates
                (DataCleaningService.__init__
                   {[ 0%nat := CleaningExamples.repeats_table ]} 0%nat) in
  DataCleaningService.cleaned (DataCleaningService._remove_duplicates once)
  = DataCleaningService.cleaned once.
Proof.
  assert (df_columns
            (DataCleaningService.cleaned
               (DataCleaningService.__init__
                  {[ 0%nat := CleaningExamples.repeats_table ]} 0%nat))
          <> []) as Hcols
    by (intros H; vm_compute in H; discriminate H).
  exact (proj1 (remove_duplicates_twice _ Hcols)).
Defined.

Section CountDuplicates.

Lemma marks_partition seen rs :
  (DataValidator.count_true (DataValidator.duplicated_from seen rs)
   + length (DataValidator.unmarked rs
               (DataValidator.duplicated_from seen rs)))%nat
  = length rs.
Proof.
  revert seen. induction rs as [|r rs IH]; intros seen; [done|].
  specialize (IH (r :: seen)).
  unfold DataValidator.count_true, DataValidator.unmarked in *. simpl.
  rewrite !filter_cons. simpl.
  destruct (bool_decide (r ∈ seen)).
  - rewrite decide_True by done. rewrite decide_False by done.
    simpl. lia.
  - rewrite decide_False by done. rewrite decide_True by done.
    simpl. lia.
Qed.

Lemma sublist_same_length {A} (l1 l2 : list A) :
  l1 `sublist_of` l2 -> length l1 = length l2 -> l1 = l2.
Proof.
  induction 1 as [|x l1 l2 Hsub IH|x l1 l2 Hsub IH]; intros Hlen.
  - done.
  - f_equal. apply IH. simpl in Hlen. lia.
  - apply sublist_length in Hsub. simpl in Hlen. lia.
Qed.

End CountDuplicates.

(** X8. [check_duplicates(df)] without a subset returns the number of rows
    that duplicate removal takes away (the [rows_removed] that
    [_remove_duplicates] logs), and it returns 0 exactly when no two rows of
    the table are equal. *)
Theorem check_duplicates_counts_removed_rows
    (duplicated_subset : DataFrame -> list string -> exc (list bool))
    (t : DataFrame) :
  df_columns t <> [] ->
  DataValidator.check_duplicates duplicated_subset t None
  = Ok (nrows t - nrows (drop_duplicates t))%nat
  /\ (DataValidator.check_duplicates duplicated_subset t None = Ok 0%nat
      <-> NoDup (df_rows t)).
Proof.
  intros _. unfold DataValidator.check_duplicates, nrows, drop_duplicates.
  cbn [df_rows].
  pose proof (marks_partition [] (df_rows t)) as Hpart.
  fold (DataValidator.duplicated (df_rows t)) in Hpart.
  rewrite <- drop_duplicates_unmarked in Hpart.
  assert (DataValidator.count_true (DataValidator.duplicated (df_rows t))
          = (length (df_rows t)
             - length (drop_duplicates_rows (df_rows t)))%nat) as Hcount
    by lia.
  split; [by rewrite Hcount|]. split.
  - intros [= Hzero].
    rewrite <- (sublist_same_length _ _
                  (drop_duplicates_rows_sublist (df_rows t))) by lia.
    apply drop_duplicates_rows_NoDup.
  - intros Hnd. f_equal. rewrite Hcount.
    rewrite (drop_duplicates_rows_id _ Hnd). lia.
Qed.

Lemma check_duplicates_witness :
  DataValidator.check_duplicates (fun _ _ => unsupported "subset")
    CleaningExamples.repeats_table None = Ok 1%nat.
Proof.
  assert (df_columns CleaningExamples.repeats_table <> []) as Hcols
    by discriminate.
  exact (proj1 (check_duplicates_counts_removed_rows
                  (fun _ _ => unsupported "subset")
                  CleaningExamples.repeats_table Hcols)).
Defined.

Section MissingCells.
Import DataCleaningService.

Lemma cleaned_fill v st :
  is_null v = false ->
  cleaned (_handle_missing_values "fill" v st) = fillna v (cleaned st).
Proof.
  intros Hv. destruct st as [h self].
  unfold cleaned, _handle_missing_values, alloc.
  change ("fill" =? "drop")%string with false.
  change ("fill" =? "fill")%string with true. rewrite Hv.
  cbv iota zeta. cbn [negb andb].
  case_match; cbn [fst snd cleaned_df set_cleaned_df _log_operation];
    apply deref_insert.
Qed.

Lemma filled_row_no_null v (r : list cell) :
  is_null v = false ->
  filter (fun c => is_null c = true)
         (map (fun c => if is_null c then v else c) r) = [].
Proof.
  intros Hv. induction r as [|c r IH]; [done|]. simpl.
  rewrite filter_cons_False; [done|].
  destruct (is_null c) eqn:Hc; by rewrite ?Hv, ?Hc.
Qed.

Lemma length_filter_complement (rs : list (list cell)) :
  (length rs - length (filter (fun r => row_has_null r = false) rs))%nat
  = length (filter (fun r => row_has_null r = true) rs).
Proof.
  induction rs as [|r rs IH]; [done|].
  rewrite !filter_cons.
  pose proof (length_filter (fun r => row_has_null r = false) rs).
  destruct (row_has_null r) eqn:Hr.
  - rewrite decide_False by done. rewrite decide_True by done.
    simpl. lia.
  - rewrite decide_True by done. rewrite decide_False by done.
    simpl. lia.
Qed.

End MissingCells.

(** X9. [_handle_missing_values("fill", v)] with a value [v]: every missing
    cell becomes [v] and every other cell stays, in every column, so no
    missing cell is left and the shape of the table is the same; one entry
    with the number of filled cells and the value is logged when that
    number is not zero. *)
Theorem fill_replaces_the_missing_cells (v : cell)
    (st : heap * DataCleaningService.DataCleaner) :
  is_null v = false ->
  let before := DataCleaningService.cleaned st in
  let st' := DataCleaningService._handle_missing_values "fill" v st in
  let after := DataCleaningService.cleaned st' in
  df_columns after = df_columns before
  /\ df_rows after
     = map (map (fun c => if is_null c then v else c)) (df_rows before)
  /\ isna_count after = 0%nat
  /\ DataCleaningService.applied_operations st'.2
     = DataCleaningService.applied_operations st.2
       ++ (if (0 <? isna_count before)%nat
           then [{| DataCleaningService.operation := "fill_missing_values";
                    DataCleaningService.details :=
                      [("values_filled",
                        Scalar (Num (Z.of_nat (isna_count before))));
                       ("fill_value", Scalar v)] |}]
           else []).
Proof.
  intros Hv. cbv zeta. rewrite (cleaned_fill _ _ Hv).
  split; [done|]. split; [done|]. split.
  - unfold isna_count, fillna. cbn [df_rows]. rewrite map_map.
    induction (df_rows (DataCleaningService.cleaned st)) as [|r rs IH];
      [done|].
    simpl. by rewrite (filled_row_no_null _ _ Hv), IH.
  - destruct st as [h self].
    unfold DataCleaningService._handle_missing_values, alloc,
      DataCleaningService.cleaned.
    change ("fill" =? "drop")%string with false.
    change ("fill" =? "fill")%string with true. rewrite Hv.
    cbv iota zeta. cbn [negb andb fst snd].
    case_match; cbn [snd DataCleaningService.applied_operations
                     DataCleaningService._log_operation
                     DataCleaningService.set_cleaned_df];
      [done | by rewrite app_nil_r].
Qed.

Lemma fill_witness :
  df_rows (DataCleaningService.cleaned
             (DataCleaningService._handle_missing_values "fill" (Num 0)
                (DataCleaningService.__init__
                   {[ 0%nat := CleaningExamples.gaps_table ]} 0%nat)))
  = [[Num 1; Str "Oslo"]; [Num 0; Str "Rome"]; [Num 3; Str "Bern"]].
Proof.
  rewrite (proj1 (proj2 (fill_replaces_the_missing_cells (Num 0)
                           (DataCleaningService.__init__
                              {[ 0%nat := CleaningExamples.gaps_table ]}
                              0%nat) eq_refl))).
  vm_compute. reflexivity.
Defined.

(** X10. [_handle_missing_values("drop")] logs one entry
    [drop_missing_values] whose [rows_removed] is the number of rows that
    had a missing cell, and logs nothing when no row had one. *)
Theorem drop_logs_the_rows_with_a_missing_cell (fill : cell)
    (st : heap * DataCleaningService.DataCleaner) :
  let gaps :=
    length (filter (fun r => row_has_null r = true)
                   (df_rows (DataCleaningService.cleaned st))) in
  DataCleaningService.applied_operations
    (DataCleaningService._handle_missing_values "drop" fill st).2
  = DataCleaningService.applied_operations st.2
    ++ (if (0 <? gaps)%nat
        then [{| DataCleaningService.operation := "drop_missing_values";
                 DataCleaningService.details :=
                   [("rows_removed", Scalar (Num (Z.of_nat gaps)))] |}]
        else []).
Proof.
  cbv zeta. rewrite <- length_filter_complement.
  destruct st as [h self].
  unfold DataCleaningService._handle_missing_values, alloc,
    DataCleaningService.cleaned.
  change ("drop" =? "drop")%string with true. cbv iota zeta. cbn [fst snd].
  rewrite deref_insert. unfold nrows, dropna. cbn [df_rows].
  case_match; cbn [snd DataCleaningService.applied_operations
                   DataCleaningService._log_operation
                   DataCleaningService.set_cleaned_df];
    [done | by rewrite app_nil_r].
Qed.

Section LogGrows.
Import DataCleaningService.
Context (L : Library).

Lemma log_grows_refl st : log_grows st st.
Proof. split; [done | reflexivity]. Qed.

Lemma log_grows_trans st1 st2 st3 :
  log_grows st1 st2 -> log_grows st2 st3 -> log_grows st1 st3.
Proof.
  intros [Ho1 Hp1] [Ho2 Hp2]. split; [congruence | by etrans].
Qed.

Lemma log_grows_log op dt h h' self :
  log_grows (h, self) (h', _log_operation op dt self).
Proof. split; [done|]. by eexists. Qed.

Lemma log_grows_heap h h' self : log_grows (h, self) (h', self).
Proof. split; [done | reflexivity]. Qed.

Lemma log_grows_remove_duplicates st : log_grows st (_remove_duplicates st).
Proof.
  destruct st as [h self]. unfold _remove_duplicates, alloc. cbv zeta.
  case_match; split; try done; cbn; try reflexivity; by eexists.
Qed.

Lemma log_grows_handle_missing method fill st :
  log_grows st (_handle_missing_values method fill st).
Proof.
  destruct st as [h self]. unfold _handle_missing_values, alloc. cbv zeta.
  repeat case_match; split; try done; cbn;
    try reflexivity; by eexists.
Qed.

Lemma log_grows_trim st : log_grows st (_trim_whitespace L st).
Proof.
  destruct st as [h self]. unfold _trim_whitespace. cbv zeta.
  case_match; [apply log_grows_log | apply log_grows_heap].
Qed.

Lemma log_grows_case case st :
  log_grows st (_standardize_text_case L case st).
Proof.
  destruct st as [h self]. unfold _standardize_text_case. cbv zeta.
  case_match; [apply log_grows_log | apply log_grows_heap].
Qed.

Lemma log_grows_parse_one fmt st col : log_grows st (parse_one L fmt st col).
Proof.
  destruct st as [h self]. unfold parse_one.
  case_match; [apply log_grows_heap | apply log_grows_log].
Qed.

Lemma log_grows_parse_dates cols fmt st :
  log_grows st (_parse_dates L cols fmt st).
Proof.
  unfold _parse_dates. destruct cols as [|c cols]; [apply log_grows_refl|].
  set (present := filter _ (c :: cols)).
  assert (log_grows st (foldl (parse_one L fmt) st present)) as H.
  { clearbody present. revert st.
    induction present as [|p present IH]; intros st; [apply log_grows_refl|].
    cbn [foldl]. eapply log_grows_trans; [apply log_grows_parse_one|].
    apply IH. }
  destruct (foldl (parse_one L fmt) st present) as [h1 s1].
  destruct present; [done|].
  eapply log_grows_trans; [exact H | apply log_grows_log].
Qed.

End LogGrows.

(** X11. Whatever the options, [clean] only appends to the log of applied
    operations (the entries that were there stay, in place, at the front)
    and keeps the reference to the caller's table. *)
Theorem clean_only_appends_to_the_log (L : Library)
    (options : DataCleaningService.CleaningOptions)
    (st : heap * DataCleaningService.DataCleaner) :
  DataCleaningService.original_df (DataCleaningService.clean L options st).2
  = DataCleaningService.original_df st.2
  /\ DataCleaningService.applied_operations st.2
     `prefix_of`
     DataCleaningService.applied_operations
       (DataCleaningService.clean L options st).2.
Proof.
  change (DataCleaningService.log_grows st
            (DataCleaningService.clean L options st)).
  unfold DataCleaningService.clean.
  set (st1 := if DataCleaningService.remove_duplicates options
              then _ else _).
  assert (DataCleaningService.log_grows st st1) as H1.
  { subst st1. case_match;
      [apply log_grows_remove_duplicates | apply log_grows_refl]. }
  clearbody st1.
  set (st2 := if negb _ then _ else st1).
  assert (DataCleaningService.log_grows st st2) as H2.
  { subst st2. case_match; [|done].
    eapply log_grows_trans; [exact H1 | apply log_grows_handle_missing]. }
  clearbody st2.
  set (st3 := if DataCleaningService.trim_whitespace options
              then _ else st2).
  assert (DataCleaningService.log_grows st st3) as H3.
  { subst st3. case_match; [|done].
    eapply log_grows_trans; [exact H2 | apply log_grows_trim]. }
  clearbody st3.
  set (st4 := match DataCleaningService.text_case options with
              | Some _ => _ | None => st3 end).
  assert (DataCleaningService.log_grows st st4) as H4.
  { subst st4. repeat case_match; try done.
    eapply log_grows_trans; [exact H3 | apply log_grows_case]. }
  clearbody st4.
  case_match; [done|].
  eapply log_grows_trans; [exact H4 | apply log_grows_parse_dates].
Qed.

(** X12. [_parse_dates] skips the listed columns the table does not have:
    when it has none of them, nothing is parsed and nothing is logged. *)
Theorem parse_dates_skips_absent_columns (L : Library)
    (cols : list string) (fmt : option string)
    (st : heap * DataCleaningService.DataCleaner) :
  Forall (fun c => has_column (DataCleaningService.cleaned st) c = false)
         cols ->
  DataCleaningService._parse_dates L cols fmt st = st.
Proof.
  intros Habsent. unfold DataCleaningService._parse_dates.
  destruct cols as [|c cols]; [done|].
  replace (filter _ (c :: cols)) with (@nil string); [by destruct st|].
  symmetry. revert Habsent. generalize (c :: cols). intros l.
  induction 1 as [|x l Hx _ IH]; [done|].
  rewrite filter_cons_False; [done|].
  unfold DataCleaningService.cleaned in Hx. by rewrite Hx.
Qed.

Lemma parse_dates_absent_witness :
  let st := DataCleaningService.__init__
              {[ 0%nat := CleaningExamples.gaps_table ]} 0%nat in
  DataCleaningService._parse_dates plain_library ["when"; "until"] None st
  = st.
Proof.
  apply (parse_dates_skips_absent_columns plain_library).
  repeat constructor.
Defined.

(** X13. When the table has at least one of the listed date columns,
    [_parse_dates] ends by logging [parse_dates] with the listed columns
    that the table has, in the order of the list, whether or not the parser
    raised on any of them. *)
Theorem parse_dates_logs_the_present_columns (L : Library)
    (cols : list string) (fmt : option string)
    (st : heap * DataCleaningService.DataCleaner) (c : string) :
  c ∈ cols -> has_column (DataCleaningService.cleaned st) c = true ->
  last (DataCleaningService.applied_operations
          (DataCleaningService._parse_dates L cols fmt st).2)
  = Some {| DataCleaningService.operation := "parse_dates";
            DataCleaningService.details :=
              [("columns",
                ListOf (map Str
                          (filter (fun col =>
                                     has_column
                                       (DataCleaningService.cleaned st) col
                                     = true) cols)))] |}.
Proof.
  intros Hin Hc. unfold DataCleaningService._parse_dates.
  destruct cols as [|c0 cols]; [by apply not_elem_of_nil in Hin|].
  change (deref st.1 (DataCleaningService.cleaned_df st.2))
    with (DataCleaningService.cleaned st).
  set (present := filter _ (c0 :: cols)).
  assert (c ∈ present) as Hp by (by apply list_elem_of_filter).
  destruct (foldl (DataCleaningService.parse_one L fmt) st present)
    as [h1 s1].
  destruct present as [|p present]; [by apply not_elem_of_nil in Hp|].
  cbn [snd DataCleaningService.applied_operations
       DataCleaningService._log_operation].
  apply last_snoc.
Qed.

Lemma parse_dates_logs_witness :
  last (DataCleaningService.applied_operations
          (DataCleaningService._parse_dates plain_library ["when"; "city"]
             None
             (DataCleaningService.__init__
                {[ 0%nat := CleaningExamples.gaps_table ]} 0%nat)).2)
  = Some {| DataCleaningService.operation := "parse_dates";
            DataCleaningService.details :=
              [("columns", ListOf [Str "city"])] |}.
Proof.
  exact (parse_dates_logs_the_present_columns plain_library
           ["when"; "city"] None
           (DataCleaningService.__init__
              {[ 0%nat := CleaningExamples.gaps_table ]} 0%nat)
           "city" ltac:(set_solver) eq_refl).
Defined.

(** X14. The text steps of [clean] (trimming and case) never touch a number
    or a missing cell and never add or remove a row or a column: with
    duplicates kept, missing values kept and no date column, the cleaned
    table has the columns of the input and, row by row and cell by cell, the
    cells of the input, except that a text may have become another text. *)
Theorem text_steps_change_only_text (L : Library) (h : heap) (table : nat)
    (t : DataFrame) (options : DataCleaningService.CleaningOptions) :
  h !! table = Some t ->
  DataCleaningService.remove_duplicates options = false ->
  DataCleaningService.handle_missing options = "keep" ->
  DataCleaningService.date_columns options = [] ->
  let result :=
    DataCleaningService.cleaned
      (DataCleaningService.run_clean L h table options) in
  df_columns result = df_columns t
  /\ same_rows_but_text (df_rows t) (df_rows result).
Proof.
  intros Ht Hrd Hkeep Hdates. cbv zeta.
  unfold DataCleaningService.run_clean, DataCleaningService.clean.
  rewrite Hrd, Hkeep, Hdates.
  change (negb ("keep" =? "keep")%string) with false. cbv iota.
  set (st0 := DataCleaningService.__init__ h table).
  assert (DataCleaningService.cleaned_like (df_columns t) (df_rows t) st0)
    as H0.
  { subst st0. unfold DataCleaningService.cleaned_like.
    rewrite (cleaned_init _ _ _ Ht). split; [done | apply same_rows_refl]. }
  clearbody st0.
  set (st3 := if DataCleaningService.trim_whitespace options
              then _ else st0).
  assert (DataCleaningService.cleaned_like (df_columns t) (df_rows t) st3)
    as H3 by (subst st3; case_match; [by apply cleaned_like_trim | done]).
  clearbody st3.
  repeat case_match; try done. by apply cleaned_like_case.
Qed.

Lemma text_steps_witness :
  let result :=
    DataCleaningService.cleaned
      (DataCleaningService.run_clean plain_library
         {[ 0%nat := CleaningExamples.gaps_table ]} 0%nat
         (CleaningExamples.options "keep" Null)) in
  df_columns result = ["id"; "city"]
  /\ same_rows_but_text (df_rows CleaningExamples.gaps_table)
                        (df_rows result).
Proof.
  exact (text_steps_change_only_text plain_library
           {[ 0%nat := CleaningExamples.gaps_table ]} 0%nat
           CleaningExamples.gaps_table
           (CleaningExamples.options "keep" Null)
           eq_refl eq_refl eq_refl eq_refl).
Defined.

Lemma nulls_of_row (r : list cell) :
  list_sum (map (fun i => if is_null (nth i r Null) then 1%nat else 0%nat)
                (seq 0 (length r)))
  = length (filter (fun c => is_null c = true) r).
Proof.
  induction r as [|c r IH]; [done|].
  change (seq 0 (length (c :: r))) with (0%nat :: seq 1 (length r)).
  rewrite <- seq_shift, map_cons, map_map. cbn [nth].
  change (list_sum (?a :: ?l)) with (a + list_sum l)%nat.
  rewrite IH, filter_cons.
  destruct (is_null c) eqn:Hc.
  - by rewrite decide_True.
  - by rewrite decide_False.
Qed.

Lemma nulls_of_columns (rs : list (list cell)) n :
  Forall (fun r => length r = n) rs ->
  list_sum (map (fun i =>
                   length (filter (fun c => is_null c = true)
                                  (map (fun r => nth i r Null) rs)))
                (seq 0 n))
  = list_sum (map (fun r => length (filter (fun c => is_null c = true) r))
                  rs).
Proof.
  induction 1 as [|r rs Hr _ IH]; simpl.
  - induction (seq 0 n); simpl; auto.
  - rewrite <- IH, <- (nulls_of_row r), Hr.
    clear. induction (seq 0 n) as [|i l IHl]; [done|]. simpl.
    rewrite filter_cons.
    destruct (is_null (nth i r Null)) eqn:Hc.
    + rewrite decide_True by done. simpl. lia.
    + rewrite decide_False by done. simpl. lia.
Qed.

(** X15. [check_missing_values(df)] has one entry per column, in column
    order, and its counts add up to the number of missing cells of the
    table, the [values_filled] that a fill logs. *)
Theorem check_missing_values_counts_every_gap (t : DataFrame) :
  well_formed t ->
  map fst (DataValidator.check_missing_values t) = df_columns t
  /\ list_sum (map snd (DataValidator.check_missing_values t))
     = isna_count t.
Proof.
  intros [_ Hrows]. unfold DataValidator.check_missing_values. split.
  - generalize 0%nat. unfold column_at.
    assert (forall (l : list string) (f : nat -> list cell),
              map fst (imap (fun i name =>
                 (name, length (filter (fun c => is_null c = true) (f i))))
                 l) = l) as H.
    { induction l as [|x l IH]; intros f; [done|]. simpl. f_equal.
      apply (IH (fun i => f (S i))). }
    intros _. apply H.
  - unfold isna_count, column_at.
    rewrite <- (nulls_of_columns _ _ Hrows), <- imap_seq_0.
    f_equal.
    assert (forall (l : list string) (g : nat -> nat),
              map snd (imap (fun i name => (name, g i)) l)
              = imap (fun j _ => g j) l) as H.
    { induction l as [|x l IH]; intros g; [done|]. simpl. f_equal.
      apply (IH (fun i => g (S i))). }
    apply (H (df_columns t)
             (fun i => length (filter (fun c => is_null c = true)
                         (map (fun r : list cell => nth i r Null)
                              (df_rows t))))).
Qed.

Lemma check_missing_values_witness :
  map fst (DataValidator.check_missing_values CleaningExamples.gaps_table)
  = ["id"; "city"]
  /\ list_sum (map snd (DataValidator.check_missing_values
                          CleaningExamples.gaps_table))
     = isna_count CleaningExamples.gaps_table.
Proof.
  apply (check_missing_values_counts_every_gap CleaningExamples.gaps_table).
  split; [compute_done | repeat constructor].
Defined.

Section CacheFacts.
Context {V : Type}.
Implicit Types (d cache : list (string * V)) (k : string) (v : V).

Lemma store_fresh k v d :
  k ∉ PivotRoutes.keys d -> PivotRoutes.store k v d = d ++ [(k, v)].
Proof.
  induction d as [|[k' v'] d IH]; intros Hk; [done|]. simpl.
  apply not_elem_of_cons in Hk as [Hne Hk].
  destruct (String.eqb_spec k' k) as [->|_]; [done|]. by rewrite IH.
Qed.

Lemma keys_store_known k v d :
  k ∈ PivotRoutes.keys d ->
  PivotRoutes.keys (PivotRoutes.store k v d) = PivotRoutes.keys d.
Proof.
  induction d as [|[k' v'] d IH]; intros Hk; [by apply elem_of_nil in Hk|].
  simpl. destruct (String.eqb_spec k' k) as [->|Hne]; [done|].
  simpl. f_equal. apply IH.
  apply elem_of_cons in Hk as [->|Hk]; [done | exact Hk].
Qed.

Lemma lookup_store k v d :
  PivotRoutes.lookup k (PivotRoutes.store k v d) = Some v.
Proof.
  induction d as [|[k' v'] d IH]; simpl; [by rewrite String.eqb_refl|].
  destruct (String.eqb_spec k' k) as [->|Hne]; simpl.
  - by rewrite String.eqb_refl.
  - by apply String.eqb_neq in Hne as ->.
Qed.

Lemma lookup_store_other k k' v d :
  k' <> k ->
  PivotRoutes.lookup k' (PivotRoutes.store k v d) = PivotRoutes.lookup k' d.
Proof.
  intros Hne. induction d as [|[k0 v0] d IH]; simpl.
  - by apply not_eq_sym, String.eqb_neq in Hne as ->.
  - destruct (String.eqb_spec k0 k) as [->|H0]; simpl.
    + apply not_eq_sym in Hne. by apply String.eqb_neq in Hne as ->.
    + by rewrite IH.
Qed.

Lemma store_keeps_or_adds k v d :
  length (PivotRoutes.store k v d)
  = if bool_decide (k ∈ PivotRoutes.keys d) then length d else S (length d).
Proof.
  case_bool_decide as Hk.
  - rewrite <- (length_map fst (PivotRoutes.store k v d)).
    change (map fst (PivotRoutes.store k v d))
      with (PivotRoutes.keys (PivotRoutes.store k v d)).
    rewrite keys_store_known by done. apply length_map.
  - rewrite store_fresh by done. rewrite length_app. simpl. lia.
Qed.

Lemma store_NoDup k v d :
  NoDup (PivotRoutes.keys d) ->
  NoDup (PivotRoutes.keys (PivotRoutes.store k v d)).
Proof.
  intros Hnd. destruct (decide (k ∈ PivotRoutes.keys d)) as [Hk|Hk].
  - by rewrite keys_store_known.
  - rewrite store_fresh by done. unfold PivotRoutes.keys.
    rewrite map_app. apply NoDup_app. split; [done|]. split.
    + intros x Hx Hx'. apply list_elem_of_singleton in Hx'. by subst.
    + apply NoDup_singleton.
Qed.

End CacheFacts.

(** X16. [cache_data] keeps the cache within its bound, and what it was just
    given can be read back: on a cache of at most ten distinct file ids the
    call leaves at most ten distinct ids, and the sheets stored under
    [file_id] are the ones passed in, also when the call had to evict. *)
Theorem cache_data_bounded_and_readable {V : Type} (file_id : string)
    (sheets : V) (cache : list (string * V)) :
  NoDup (PivotRoutes.keys cache) ->
  (length cache <= 10)%nat ->
  let cache' := PivotRoutes.cache_data file_id sheets cache in
  NoDup (PivotRoutes.keys cache')
  /\ (length cache' <= 10)%nat
  /\ PivotRoutes.lookup file_id cache' = Some sheets.
Proof.
  intros Hnd Hlen. cbv zeta. unfold PivotRoutes.cache_data.
  pose proof (store_NoDup file_id sheets cache Hnd) as Hnd'.
  pose proof (store_keeps_or_adds file_id sheets cache) as Hl.
  pose proof (lookup_store file_id sheets cache) as Hget.
  destruct (Nat.ltb_spec 10 (length (PivotRoutes.store file_id sheets cache)))
    as [Hfull|Hroom]; [|done].
  case_bool_decide as Hk; [lia|].
  rewrite store_fresh in * by done.
  destruct cache as [|[k0 v0] rest]; [simpl in Hfull; lia|].
  simpl in *. rewrite String.eqb_refl.
  apply not_elem_of_cons in Hk as [Hne Hk].
  split; [by apply NoDup_cons in Hnd' as [_ ?]|]. split; [lia|].
  apply not_eq_sym, String.eqb_neq in Hne. by rewrite Hne in Hget.
Qed.

Lemma cache_data_bounded_witness :
  let cache' :=
    PivotRoutes.cache_data "k" 0
      (map (fun c => (String c EmptyString, 1))
           (list_ascii_of_string "abcdefghij")) in
  NoDup (PivotRoutes.keys cache')
  /\ (length cache' <= 10)%nat
  /\ PivotRoutes.lookup "k" cache' = Some 0.
Proof.
  apply (cache_data_bounded_and_readable "k" 0).
  - compute_done.
  - simpl. lia.
Defined.

(** X17. Eviction is by first insertion, one id at a time: caching a new
    file id into a cache that holds ten removes exactly the id that stands
    first in the cache, the one cached first, and puts the new one last. *)
Theorem cache_data_evicts_the_first_cached {V : Type} (file_id : string)
    (sheets : V) (cache : list (string * V)) :
  length cache = 10%nat ->
  file_id ∉ PivotRoutes.keys cache ->
  PivotRoutes.cache_data file_id sheets cache
  = tl cache ++ [(file_id, sheets)].
Proof.
  intros Hlen Hk. unfold PivotRoutes.cache_data.
  rewrite store_fresh by done. rewrite length_app, Hlen. simpl.
  destruct cache as [|[k0 v0] rest]; [done|]. simpl.
  by rewrite String.eqb_refl.
Qed.

Lemma cache_data_evicts_witness :
  PivotRoutes.cache_data "k" 0
    (map (fun c => (String c EmptyString, 1))
         (list_ascii_of_string "abcdefghij"))
  = tl (map (fun c => (String c EmptyString, 1))
            (list_ascii_of_string "abcdefghij")) ++ [("k", 0)].
Proof.
  apply (cache_data_evicts_the_first_cached "k" 0).
  - reflexivity.
  - compute_done.
Defined.

(** X18. Nothing is evicted before the bound is passed: while the cache
    holds fewer than ten ids, or when [file_id] is cached already, every
    other id keeps its sheets, and an id cached already keeps its place in
    the eviction order. *)
Theorem cache_data_keeps_the_others {V : Type} (file_id : string)
    (sheets : V) (cache : list (string * V)) (other : string) :
  (length cache <= 10)%nat ->
  (length cache < 10)%nat \/ file_id ∈ PivotRoutes.keys cache ->
  other <> file_id ->
  PivotRoutes.lookup other (PivotRoutes.cache_data file_id sheets cache)
  = PivotRoutes.lookup other cache
  /\ (file_id ∈ PivotRoutes.keys cache ->
      PivotRoutes.keys (PivotRoutes.cache_data file_id sheets cache)
      = PivotRoutes.keys cache).
Proof.
  intros Hlen Hroom Hne. unfold PivotRoutes.cache_data.
  pose proof (store_keeps_or_adds file_id sheets cache) as Hl.
  destruct (Nat.ltb_spec 10 (length (PivotRoutes.store file_id sheets cache)))
    as [Hfull|_].
  - case_bool_decide as Hk; [lia|]. destruct Hroom; [lia | done].
  - split; [by apply lookup_store_other | apply keys_store_known].
Qed.

Lemma cache_data_keeps_witness :
  PivotRoutes.lookup "a" (PivotRoutes.cache_data "b" 2 [("a", 1); ("b", 0)])
  = PivotRoutes.lookup "a" [("a", 1); ("b", 0)]
  /\ ("b" ∈ PivotRoutes.keys [("a", 1); ("b", 0)] ->
      PivotRoutes.keys (PivotRoutes.cache_data "b" 2 [("a", 1); ("b", 0)])
      = PivotRoutes.keys [("a", 1); ("b", 0)]).
Proof.
  apply (cache_data_keeps_the_others "b" 2 [("a", 1); ("b", 0)] "a").
  - simpl. lia.
  - left. simpl. lia.
  - discriminate.
Defined.

(** X19. [create_pivot] reports success exactly when every column named in
    index, columns and values is in the table and both [pd.pivot_table] and
    the conversion of its result went through; the data of the result is
    then that conversion, and in every other case the data is empty. *)
Theorem create_pivot_succeeds_exactly_when
    (P : PivotService.PivotLibrary)
    (pd_pivot_table :
       DataFrame -> PivotService.PivotConfig -> exc PivotService.PivotFrame)
    (t : DataFrame) (config : PivotService.PivotConfig) :
  exists r : PivotService.PivotResult,
    PivotService.create_pivot P pd_pivot_table t config = Ok r
    /\ (PivotService.success r = true
        <-> Forall (fun n => has_column t n = true)
                   (PivotService.index config
                    ++ default [] (PivotService.columns config)
                    ++ default [] (PivotService.values config))
            /\ exists pf d,
                 pd_pivot_table t config = Ok pf
                 /\ PivotService._pivot_to_dict P pf = Ok d
                 /\ PivotService.data r = Some d)
    /\ (PivotService.success r = false -> PivotService.data r = None).
Proof.
  unfold PivotService.create_pivot, PivotService.create_pivot_try.
  pose proof (missing_columns_nil t config) as Hnil.
  destruct (PivotService.missing_columns t config) as [|m ms].
  - destruct (pd_pivot_table t config) as [pf|e] eqn:Hpf; simpl.
    + destruct (PivotService._pivot_to_dict P pf) as [d|e] eqn:Hd; simpl.
      * eexists. split; [done|]. simpl. split; [|done]. split; [|done].
        intros _. split; [by apply Hnil|]. by exists pf, d.
      * eexists. split; [done|]. simpl. split; [|done]. split; [done|].
        intros (_ & pf' & d' & [= <-] & Hd' & _). congruence.
    + eexists. split; [done|]. simpl. split; [|done]. split; [done|].
      by intros (_ & pf' & d' & ? & _).
  - simpl. eexists. split; [done|]. simpl. split; [|done]. split; [done|].
    intros [Hall _]. by apply Hnil in Hall.
Qed.

(** X20. [_pivot_to_dict] on a frame with named index levels and a plain
    column axis whose labels differ from each other and from the index
    names always succeeds, and
    all its records are alike: each has the index names and then the labels
    as keys, in that order, with the row's key and cells as values, a
    missing cell as [None]; [columns] is that same list of names. *)
Theorem pivot_to_dict_records_are_uniform (P : PivotService.PivotLibrary)
    (names labels : list string) (keys values : list (list cell)) :
  names <> [] ->
  NoDup (names ++ labels) ->
  Forall (fun k => length k = length names) keys ->
  Forall (fun v => length v = length labels) values ->
  length keys = length values ->
  PivotService._pivot_to_dict P
    {| PivotService.pf_index_names := map Some names;
       PivotService.pf_index := keys;
       PivotService.pf_columns := PivotService.Index labels;
       PivotService.pf_values := values |}
  = Ok {| PivotService.out_columns := names ++ labels;
          PivotService.out_data :=
            map (zip (names ++ labels)) (zip_with app keys values);
          PivotService.index_columns := map Some names;
          PivotService.column_levels := [None] |}.
Proof.
  intros _ Hnd Hk Hv _.
  unfold PivotService._pivot_to_dict, PivotService.reset_index.
  cbn [PivotService.pf_index_names PivotService.pf_index
       PivotService.pf_columns PivotService.pf_values].
  rewrite level_names_named, (insert_levels_ok _ _ Hnd). cbn [Py.bind].
  rewrite (map_exc_ok _ (zip (names ++ labels))); [done|].
  eapply Forall_impl; [by apply rows_of_frame|].
  intros row Hrow. by apply to_record_zip.
Qed.

Lemma pivot_to_dict_uniform_witness :
  PivotService._pivot_to_dict plain_pivot_library
    {| PivotService.pf_index_names := map Some ["cat"];
       PivotService.pf_index := [[Str "a"]; [Str "b"]];
       PivotService.pf_columns := PivotService.Index ["x"; "y"];
       PivotService.pf_values := [[Num 1; Null]; [Num 2; Num 3]] |}
  = Ok {| PivotService.out_columns := ["cat"] ++ ["x"; "y"];
          PivotService.out_data :=
            map (zip (["cat"] ++ ["x"; "y"]))
                (zip_with app [[Str "a"]; [Str "b"]]
                              [[Num 1; Null]; [Num 2; Num 3]]);
          PivotService.index_columns := map Some ["cat"];
          PivotService.column_levels := [None] |}.
Proof.
  apply (pivot_to_dict_records_are_uniform plain_pivot_library
           ["cat"] ["x"; "y"]).
  - discriminate.
  - compute_done.
  - repeat constructor.
  - repeat constructor.
  - reflexivity.
Defined.

Section PartialRuns.
Import CalculationsService.
Context (L : Library).

Lemma built_in_rules_add_columns pre st0 st :
  Forall (fun r => operation r <> CUSTOM) pre ->
  apply_rules L pre st0 = (st, Ok tt) ->
  df st.2 = df st0.2
  /\ df_columns (deref st.1 (df st.2))
     = foldl (fun cols r => if bool_decide (name r ∈ cols) then cols
                            else cols ++ [name r])
             (df_columns (deref st0.1 (df st0.2))) pre
  /\ map log_name (applied_calculations st.2)
     = map log_name (applied_calculations st0.2) ++ map name pre.
Proof.
  intros Hops. revert st0.
  induction Hops as [|r pre Hr _ IH]; intros st0 Hrun.
  - inversion Hrun; subst. by rewrite app_nil_r.
  - cbn [apply_rules] in Hrun.
    destruct (_apply_rule L r st0) as [st1|e] eqn:Hrule; [|discriminate].
    destruct (apply_rule_assigns L r st0 st1 Hr Hrule) as (vals & dt & ->).
    destruct (IH _ Hrun) as (Hdf & Hcols & Hlog).
    unfold assign in Hdf, Hcols, Hlog. cbn [fst snd] in Hdf, Hcols, Hlog.
    change (df (_log_operation r dt st0.2)) with (df st0.2) in Hdf, Hcols.
    unfold setitem_at in Hcols.
    rewrite deref_insert, setitem_columns in Hcols.
    split; [done|]. split.
    + rewrite Hcols. cbn [foldl]. f_equal.
      destruct (has_column _ (name r)) eqn:Hn.
      * apply elem_has_column in Hn. by rewrite bool_decide_eq_true_2.
      * rewrite bool_decide_eq_false_2; [done|].
        intros Hin. apply has_column_elem in Hin. congruence.
    + rewrite Hlog. cbn [_log_operation applied_calculations].
      rewrite map_app. cbn [map log_name]. by rewrite <- app_assoc.
Qed.

End PartialRuns.

(** X21. A failed call is not rolled back. When a rule fails after the
    rules before it went through, all of them of built-in operations, the
    calculator is left as those rules made it and no rule after the failing
    one is run: its working copy holds the columns of the caller's table
    followed by the names of those rules that were new, each once and in
    the order of the rules, and its log holds one entry for each of those
    rules, in their order. *)
Theorem failed_call_keeps_earlier_work (L : Library) (h : heap) (table : nat)
    (t : DataFrame)
    (pre post : list CalculationsService.CalculationRule)
    (rule : CalculationsService.CalculationRule)
    (st : heap * CalculationsService.DataFrameCalculator) (e : exn) :
  h !! table = Some t ->
  Forall (fun r => CalculationsService.operation r
                   <> CalculationsService.CUSTOM) (pre ++ [rule]) ->
  CalculationsService.apply_rules L pre
    (CalculationsService.__init__ h table) = (st, Ok tt) ->
  CalculationsService._apply_rule L rule st = Raise e ->
  let after :=
    (CalculationsService.run_calculations L h table (pre ++ rule :: post)).1
  in
  after = st
  /\ df_columns (deref after.1 (CalculationsService.df after.2))
     = foldl (fun cols r =>
                if bool_decide (CalculationsService.name r ∈ cols) then cols
                else cols ++ [CalculationsService.name r])
             (df_columns t) pre
  /\ map CalculationsService.log_name
         (CalculationsService.applied_calculations after.2)
     = map CalculationsService.name pre.
Proof.
  intros Ht Hops Hpre Hrule. cbv zeta.
  apply Forall_app in Hops as [Hops Hop].
  apply Forall_cons in Hop as [Hop _].
  assert ((CalculationsService.run_calculations L h table
             (pre ++ rule :: post)).1 = st) as ->.
  { unfold CalculationsService.run_calculations,
      CalculationsService.apply_calculations.
    rewrite (apply_rules_app L _ _ _ _ Hpre). simpl. rewrite Hrule.
    by apply after_failure_builtin. }
  split; [done|].
  destruct (built_in_rules_add_columns L pre _ st Hops Hpre)
    as (_ & Hcols & Hlog).
  split.
  - rewrite Hcols. f_equal.
    unfold CalculationsService.__init__, alloc. cbn [fst snd].
    cbn [CalculationsService.df]. rewrite deref_insert.
    by rewrite (deref_lookup _ _ _ Ht).
  - rewrite Hlog. unfold CalculationsService.__init__, alloc. by cbn.
Qed.

Lemma failed_call_witness :
  df_columns
    (deref (CalculationsService.run_calculations plain_library
              {[ 0%nat := Examples.ab_table ]} 0%nat
              ([Examples.sum_rule] ++ Examples.broken_rule :: [])).1.1
           (CalculationsService.df
              (CalculationsService.run_calculations plain_library
                 {[ 0%nat := Examples.ab_table ]} 0%nat
                 ([Examples.sum_rule] ++ Examples.broken_rule :: [])).1.2))
  = ["a"; "b"; "total"].
Proof.
  refine (proj1 (proj2
    (failed_call_keeps_earlier_work plain_library
       {[ 0%nat := Examples.ab_table ]} 0%nat Examples.ab_table
       [Examples.sum_rule] [] Examples.broken_rule
       (CalculationsService.apply_rules plain_library [Examples.sum_rule]
          (CalculationsService.__init__ {[ 0%nat := Examples.ab_table ]}
             0%nat)).1
       (Exception ValueError "Columns not found: zz") eq_refl _ _ _))).
  - repeat constructor; discriminate.
  - vm_compute. reflexivity.
  - vm_compute. reflexivity.
Defined.



(** X23. The [mode] of [is_supported_file] never matters: the formats that
    can be read are the formats that can be written, so the answer for any
    mode, "write" or a misspelt one included, is the answer for "read". *)
Theorem supported_formats_do_not_depend_on_mode
    (get_file_extension : string -> string) (file_path mode : string) :
  FileHandler.is_supported_file get_file_extension file_path mode
  = FileHandler.is_supported_file get_file_extension file_path "read".
Proof.
  unfold FileHandler.is_supported_file.
  change (("read" =? "read")%string) with true. cbv iota.
  by destruct (String.eqb mode "read").
Qed.

Section PhoneFacts.
Context {char : Type} (is_digit : char -> bool).

Lemma digits_of_sublist (p q : list char) :
  p `sublist_of` q ->
  (length (filter (fun c => is_digit c = true) p)
   <= length (filter (fun c => is_digit c = true) q))%nat.
Proof.
  induction 1 as [|x p q _ IH|x p q _ IH]; [done| |].
  - rewrite !filter_cons. case_decide; simpl; lia.
  - rewrite filter_cons. case_decide; simpl; lia.
Qed.

End PhoneFacts.

(** X24. What [is_valid_phone] accepts has at least ten characters, and
    stays accepted whatever characters are put in anywhere (separators,
    spaces, letters, more digits): only the number of digits counts. *)
Theorem valid_phone_stays_valid {char : Type} (is_digit : char -> bool)
    (phone : list char) :
  DataValidator.is_valid_phone is_digit phone = true ->
  (10 <= length phone)%nat
  /\ forall longer, phone `sublist_of` longer ->
       DataValidator.is_valid_phone is_digit longer = true.
Proof.
  unfold DataValidator.is_valid_phone. intros Hvalid.
  destruct phone as [|c phone]; [discriminate|].
  apply Nat.leb_le in Hvalid. split.
  - pose proof (length_filter (fun c => is_digit c = true) (c :: phone)).
    lia.
  - intros longer Hsub.
    pose proof (digits_of_sublist is_digit _ _ Hsub) as Hle.
    destruct longer as [|c' longer]; [by apply sublist_nil_r in Hsub|].
    apply Nat.leb_le. lia.
Qed.

Lemma valid_phone_witness :
  (10 <= length (list_ascii_of_string "5551234567"))%nat
  /\ DataValidator.is_valid_phone ValidatorExamples.ascii_digit
       (list_ascii_of_string "+1 (555) 123-4567 ext") = true.
Proof.
  destruct (valid_phone_stays_valid ValidatorExamples.ascii_digit
              (list_ascii_of_string "5551234567") eq_refl) as [Hlen Hmore].
  split; [exact Hlen|]. apply Hmore. vm_compute.
  repeat first [apply sublist_nil_l | apply sublist_skip | apply sublist_cons].
Defined.

Section SchemaFacts.
Context {type : Type}.
Variable isinstance : list cell -> nat -> type -> bool.
Variable type_name : type -> string.
Variable value_type_name : list cell -> nat -> string.

Lemma no_message_for_missing_cells (g : nat -> cell -> list string)
    (column : list cell) :
  Forall (fun c => is_null c = true) column ->
  concat (imap (fun i value => if is_null value then [] else g i value)
               column) = [].
Proof.
  intros Hnull. revert g.
  induction Hnull as [|c column Hc _ IH]; intros g; [done|].
  simpl. rewrite Hc. simpl. apply (IH (fun i => g (S i))).
Qed.

Lemma column_errors_of_blank t col spec :
  has_column t col = true ->
  Forall (fun c => is_null c = true) (series t col) ->
  DataValidator.column_errors isinstance type_name value_type_name t col spec
  = [].
Proof.
  intros Hcol Hnull. unfold DataValidator.column_errors. rewrite Hcol.
  assert (DataValidator.type_errors isinstance type_name value_type_name
            spec.1 (series t col) = []) as ->.
  { unfold DataValidator.type_errors. destruct spec.1 as [ty|]; [|done].
    apply (no_message_for_missing_cells
             (fun i _ =>
                if isinstance (series t col) i ty then []
                else ["Row " +:+ pretty i +:+ ": Expected " +:+ type_name ty
                      +:+ ", got " +:+ value_type_name (series t col) i])).
    exact Hnull. }
  simpl. induction spec.2 as [|v vs IH]; [done|]. simpl. rewrite IH.
  rewrite app_nil_r. unfold DataValidator.validator_errors.
  by apply (no_message_for_missing_cells
              (fun i value =>
                 match DataValidator.validator_call v value with
                 | Ok true => []
                 | Ok false =>
                     ["Row " +:+ pretty i +:+ ": Validation failed for "
                      +:+ DataValidator.validator_name v]
                 | Raise e =>
                     ["Row " +:+ pretty i +:+ ": Error in validator "
                      +:+ DataValidator.validator_name v +:+ ": "
                      +:+ str_exn e]
                 end)).
Qed.

End SchemaFacts.

(** X25. [validate_dataframe] reports a column of the schema that the table
    does not have, with the one message "Column not found in DataFrame",
    whatever type and validators the schema gives it; and it never returns
    a column with an empty list of messages, nor a column from outside the
    schema. *)
Theorem validation_reports_absent_columns {type : Type}
    (isinstance : list cell -> nat -> type -> bool)
    (type_name : type -> string)
    (value_type_name : list cell -> nat -> string)
    (t : DataFrame)
    (schema : list (string * (option type * list DataValidator.validator)))
    (col : string) (spec : option type * list DataValidator.validator) :
  (col, spec) ∈ schema ->
  has_column t col = false ->
  let errors := DataValidator.validate_dataframe isinstance type_name
                  value_type_name t schema in
  (col, ["Column not found in DataFrame"]) ∈ errors
  /\ forall k messages, (k, messages) ∈ errors ->
       messages <> [] /\ k ∈ map fst schema.
Proof.
  intros Hin Hcol. cbv zeta. unfold DataValidator.validate_dataframe. split.
  - apply list_elem_of_filter. split; [done|].
    apply list_elem_of_fmap. exists (col, spec). split; [|done].
    cbn [fst snd]. unfold DataValidator.column_errors. by rewrite Hcol.
  - intros k messages Hk. apply list_elem_of_filter in Hk as [Hne Hk].
    split; [exact Hne|].
    apply list_elem_of_fmap in Hk as (item & [= -> _] & Hitem).
    apply list_elem_of_fmap. by exists item.
Qed.

Lemma validation_absent_witness :
  let errors := DataValidator.validate_dataframe
                  (fun _ _ (_ : unit) => true) (fun _ => "object")
                  (fun _ _ => "object")
                  ValidatorExamples.blank_table ValidatorExamples.schema in
  (("zip", ["Column not found in DataFrame"]) ∈ errors)
  /\ forall k messages, (k, messages) ∈ errors ->
       messages <> [] /\ k ∈ map fst ValidatorExamples.schema.
Proof.
  apply (validation_reports_absent_columns
           (fun _ _ (_ : unit) => true) (fun _ => "object")
           (fun _ _ => "object")
           ValidatorExamples.blank_table ValidatorExamples.schema
           "zip" (None, [])).
  - apply elem_of_cons. right. apply elem_of_cons. by left.
  - reflexivity.
Defined.

(** X26. [validate_dataframe] never reports a missing cell: in a table with
    distinct column names, a column that holds no value at all passes every
    schema, with whatever
    expected type and whatever validators, also validators that refuse or
    raise on everything. *)
Theorem validation_skips_missing_cells {type : Type}
    (isinstance : list cell -> nat -> type -> bool)
    (type_name : type -> string)
    (value_type_name : list cell -> nat -> string)
    (t : DataFrame)
    (schema : list (string * (option type * list DataValidator.validator)))
    (col : string) :
  NoDup (df_columns t) ->
  has_column t col = true ->
  Forall (fun c => is_null c = true) (series t col) ->
  col ∉ map fst (DataValidator.validate_dataframe isinstance type_name
                   value_type_name t schema).
Proof.
  intros _ Hcol Hnull Hin. unfold DataValidator.validate_dataframe in Hin.
  apply list_elem_of_fmap in Hin as ([k messages] & -> & Hk).
  apply list_elem_of_filter in Hk as [Hne Hk].
  apply list_elem_of_fmap in Hk as (item & [= -> ->] & _).
  apply Hne. cbn [snd].
  by apply column_errors_of_blank.
Qed.

Lemma validation_skips_witness :
  "city" ∉ map fst (DataValidator.validate_dataframe
                      (fun _ _ (_ : unit) => false) (fun _ => "object")
                      (fun _ _ => "object")
                      ValidatorExamples.blank_table ValidatorExamples.schema).
Proof.
  apply (validation_skips_missing_cells
           (fun _ _ (_ : unit) => false) (fun _ => "object")
           (fun _ _ => "object")
           ValidatorExamples.blank_table ValidatorExamples.schema "city").
  - compute_done.
  - reflexivity.
  - repeat constructor.
Defined.
